(** * The PDM command core of omnipy ([podcomm/pdm.py]), embedded in Rocq

    The class [Pdm] drives an insulin pod over a radio link.  Its methods
    mutate three objects ([self.pod], [self.radio], [self.nonce]) and raise
    Python exceptions whose side effects stay in place.  The embedding is a
    state-and-exception monad over a [World] that holds those objects together
    with the environment the methods talk to (what the pod answers on the
    radio, the clocks, the lock file, the disk) and a trace of the outward
    calls they make.

    Conventions.
    - [bytes] are lists of integers; [struct.pack] and [bytes([..])] check
      their ranges and raise like Python does.
    - [Decimal] is coefficient and number of decimal places.  Products and
      quotients are rounded as Python's default context does it: to 28
      significant digits, ties to even, subnormal results at the exponent
      -1000026.  The one trap of that context a product could spring,
      Overflow beyond the exponent 999999, is out of reach of a coefficient
      of under a million digits and is not modelled.
    - Python floats ([time.time()], [float(amount)]) are rationals, and the
      sums and products that are only compared with the clock are exact.
      Where a float product is cut to an integer ([_configure_alert]) it is
      rounded to binary64 first, as is the float [activate_pod] hands over
      there; NaN and the infinities are left out.
    - The logger is left out.
    - Collaborators whose source is in other files of the repository
      ([nonce.py], [pod.py], [pdmutils.py], [definitions.py]) are the fields
      of the classes [NonceGen], [PodShadow], [PdmUtils] and [Definitions];
      the theorems hold for all of them.  The radio ([radio.py]) is a script
      of exchanges in the [World], and the theorems hold for every script.

    The file has the model first, then a concrete environment for runs, the
    vocabulary of the statements, and the lemmas and theorems. *)

From Stdlib Require Import ZArith QArith Qround List String Bool Lia Lqa.
Import ListNotations.
#[local] Open Scope Z_scope.

(** ** Exceptions and results *)

(** Modelled from the spec: the exception classes of [exceptions.py], which
    is not among the sources.  Section 7: PdmError, TransmissionOutOfSyncError
    and PdmBusyError are members of the OmnipyError family, which the public
    methods let through; "any other exception is wrapped". *)
Inductive exn : Type :=
| PdmError (msg : string)
| PdmBusyError
| TransmissionOutOfSyncError
| OmnipyError (msg : string)   (* any other member of the OmnipyError family *)
| PyError (kind : string).     (* outside the family: struct.error, IndexError, ... *)

Definition is_OmnipyError (e : exn) : bool :=
  match e with
  | PyError _ => false
  | _ => true
  end.

Inductive Result (A : Type) : Type :=
| Ok (a : A)
| Raise (e : exn).
Arguments Ok {A} a.
Arguments Raise {A} e.

Definition rbind {A B} (r : Result A) (k : A -> Result B) : Result B :=
  match r with
  | Ok a => k a
  | Raise e => Raise e
  end.

Notation "'let?' x := r 'in' k" := (rbind r (fun x => k))
  (at level 10, x name, r at level 100, k at level 200).

(** ** Bytes, [struct] and checksums *)

Definition bytes := list Z.

Definition struct_error : exn := PyError "struct.error".
Definition ValueError : exn := PyError "ValueError".
Definition IndexError : exn := PyError "IndexError".
Definition TypeError : exn := PyError "TypeError".
Definition ZeroDivisionError : exn := PyError "ZeroDivisionError".
Definition AttributeError : exn := PyError "AttributeError".
Definition RecursionError : exn := PyError "RecursionError".

Definition is_byte (b : Z) : bool := (0 <=? b) && (b <? 256).

(** [bytes([b0, b1, ...])] *)
Definition bytes_of (l : list Z) : Result bytes :=
  if forallb is_byte l then Ok l else Raise ValueError.

(** The big-endian unsigned integers of the wire format. *)
Definition u8 (x : Z) : bytes := [x].
Definition u16 (x : Z) : bytes := [x / 256; x mod 256].
Definition u32 (x : Z) : bytes :=
  [x / 16777216; (x / 65536) mod 256; (x / 256) mod 256; x mod 256].

(** [struct.pack(">H", x)] *)
Definition pack_H (x : Z) : Result bytes :=
  if (0 <=? x) && (x <? 65536) then Ok (u16 x) else Raise struct_error.

(** [struct.pack(">I", x)] *)
Definition pack_I (x : Z) : Result bytes :=
  if (0 <=? x) && (x <? 4294967296) then Ok (u32 x) else Raise struct_error.

(** The 16-bit big-endian integer a decoder reads at two bytes. *)
Definition u16_be (b : bytes) : Z :=
  match b with
  | [hi; lo] => hi * 256 + lo
  | _ => 0
  end.

(** [struct.unpack(">H", b)[0]]: the buffer must hold exactly two bytes. *)
Definition unpack_H (b : bytes) : Result Z :=
  match b with
  | [_; _] => Ok (u16_be b)
  | _ => Raise struct_error
  end.

(** Python's [b[i:j]] for [0 <= i <= j]. *)
Definition slice (b : bytes) (i j : nat) : bytes := firstn (j - i) (skipn i b).

Definition byte_sum (b : bytes) : Z := fold_right Z.add 0 b.

(** Modelled from the spec: [getChecksum] of [pdmutils.py], which is not among
    the sources.  Section 4.1: "16-bit unsigned big-endian sum of all input
    bytes (no one's complement)". *)
Definition getChecksum (body : bytes) : Z := byte_sum body mod 65536.

(** ** Decimals *)

(** [Decimal]: the value is [d_coef / 10 ^ d_places]. *)
Record Decimal : Type := mkDecimal { d_coef : Z; d_places : nat }.

Definition pow10 (n : nat) : Z := 10 ^ Z.of_nat n.

(** [Decimal(n)] for an integer [n] *)
Definition Decimal_of_Z (n : Z) : Decimal := mkDecimal n 0.

(** The number of decimal digits of a positive integer. *)
Fixpoint digits_fuel (fuel : nat) (n : Z) : nat :=
  match fuel with
  | O => 0
  | S fuel' => if n <? 10 then 1 else S (digits_fuel fuel' (n / 10))
  end.

Definition digits (n : Z) : nat := digits_fuel (S (Z.to_nat (Z.log2 n))) n.

(** [c / d] rounded to the nearest integer, ties to the even one
    (ROUND_HALF_EVEN), for positive [d]. *)
Definition div_half_even (c d : Z) : Z :=
  let q := c / d in
  let r := c mod d in
  match 2 * r ?= d with
  | Lt => q
  | Gt => q + 1
  | Eq => if Z.even q then q else q + 1
  end.

(** The least exponent of the default context: Emin - prec + 1 with
    Emin = -999999 and prec = 28. *)
Definition Etiny : Z := -1000026.

(** The decimal [c * 10 ^ e]. *)
Definition decimal_at (c e : Z) : Decimal :=
  if 0 <=? e then mkDecimal (c * 10 ^ e) 0 else mkDecimal c (Z.to_nat (- e)).

(** What the default context of [decimal] makes of the exact result
    [c / 10 ^ places] of an operation: with more than 28 digits, or below
    the exponent [Etiny], the coefficient is rounded at the exponent that
    leaves 28 digits, and not below [Etiny]. *)
Definition dec_fix (c : Z) (places : nat) : Decimal :=
  if c =? 0 then mkDecimal 0 places
  else
    let n := Z.of_nat (digits (Z.abs c)) in
    let p := Z.of_nat places in
    let e := Z.max (n - p - 28) Etiny in
    if - p <? e then decimal_at (div_half_even c (10 ^ (e + p))) e
    else mkDecimal c places.

(** [a * b]: the exact product, rounded by the context. *)
Definition dec_mul (a b : Decimal) : Decimal :=
  dec_fix (d_coef a * d_coef b) (d_places a + d_places b).

(** [a / Decimal(2)]: the exact quotient has one more place and five times
    the coefficient; it is rounded by the context. *)
Definition dec_half (a : Decimal) : Decimal :=
  dec_fix (d_coef a * 5) (S (d_places a)).

(** [int(a)]: truncation toward zero. *)
Definition dec_int (a : Decimal) : Z := Z.quot (d_coef a) (pow10 (d_places a)).

(** The exact value, also what [float(a)] stands for here. *)
Definition dec_Q (a : Decimal) : Q := Qmake (d_coef a) (Z.to_pos (pow10 (d_places a))).

(** [a > b] and [a < b] on numbers *)
Definition Qgtb (a b : Q) : bool := negb (Qle_bool a b).
Definition Qltb (a b : Q) : bool := negb (Qle_bool b a).

(** [int(x)] of a float *)
Definition Q_int (x : Q) : Z := Z.quot (Qnum x) (Zpos (Qden x)).

(** [a / (b * 2 ^ e)] as numerator and denominator. *)
Definition scaled (a b e : Z) : Z * Z :=
  if 0 <=? e then (a, b * 2 ^ e) else (a * 2 ^ (- e), b).

(** The exponent of the last place of the binary64 number nearest to
    [a / b], for positive [a] and [b]: the one that puts the significand
    [a / (b * 2 ^ e)] between 2^52 and 2^53, and -1074 for subnormals. *)
Definition float_exponent (a b : Z) : Z :=
  let e0 := Z.log2 a - Z.log2 b - 52 in
  let e1 := if fst (scaled a b e0) <? 2 ^ 52 * snd (scaled a b e0) then e0 - 1 else e0 in
  Z.max e1 (-1074).

(** The binary64 number nearest to [x], ties to even: what [float(x)] gives,
    and what a float operation makes of its exact result. *)
Definition float_round (x : Q) : Q :=
  if Qnum x =? 0 then 0%Q
  else
    let a := Z.abs (Qnum x) in
    let b := Zpos (Qden x) in
    let e := float_exponent a b in
    let m := Z.sgn (Qnum x) * div_half_even (fst (scaled a b e)) (snd (scaled a b e)) in
    if 0 <=? e then inject_Z (m * 2 ^ e) else Qmake m (Z.to_pos (2 ^ (- e))).

(** [x * y] on floats. *)
Definition float_mul (x y : Q) : Q := float_round (x * y).

(** ** Enumerations of [definitions.py] *)

(** Modelled from the spec: the enumeration [PodProgress] of [definitions.py],
    which is not among the sources.  Section 3 gives its members and their
    order: Initial < TankPowerActivated < TankFillCompleted < PairingSuccess <
    Priming < RunningNormal < Running < RunningLow < ErrorShuttingDown <
    AlertExpiredShuttingDown < Inactive < Fault. *)
Inductive PodProgress : Type :=
| Initial | TankPowerActivated | TankFillCompleted | PairingSuccess
| Priming | RunningNormal | Running | RunningLow
| ErrorShuttingDown | AlertExpiredShuttingDown | Inactive | Fault.

Definition progress_rank (p : PodProgress) : Z :=
  match p with
  | Initial => 0 | TankPowerActivated => 1 | TankFillCompleted => 2
  | PairingSuccess => 3 | Priming => 4 | RunningNormal => 5
  | Running => 6 | RunningLow => 7 | ErrorShuttingDown => 8
  | AlertExpiredShuttingDown => 9 | Inactive => 10 | Fault => 11
  end.

Definition progress_ltb (a b : PodProgress) : bool := progress_rank a <? progress_rank b.
Definition progress_eqb (a b : PodProgress) : bool := progress_rank a =? progress_rank b.

(** Modelled from the spec: [BasalState] and [BolusState] of [definitions.py]
    (section 3: "Basal state: NotRunning | TempBasal | Program. Bolus state:
    NotRunning | Extended | Immediate"). *)
Inductive BasalState : Type := BasalNotRunning | TempBasal | Program.
Inductive BolusState : Type := BolusNotRunning | Extended | Immediate.

Definition BasalState_eqb (a b : BasalState) : bool :=
  match a, b with
  | BasalNotRunning, BasalNotRunning | TempBasal, TempBasal | Program, Program => true
  | _, _ => false
  end.

Definition BolusState_eqb (a b : BolusState) : bool :=
  match a, b with
  | BolusNotRunning, BolusNotRunning | Extended, Extended | Immediate, Immediate => true
  | _, _ => false
  end.

(** The numeric members of [definitions.py] that [activate_pod] puts on the
    wire. *)
Class Definitions : Type := {
  PodAlertBit_LowReservoir : Z;
  PodAlertBit_TimerLimit : Z;
  BeepPattern_OnceEveryMinuteForThreeMinutesAndRepeatHourly : Z;
  BeepPattern_OnceEveryMinuteForThreeMinutesAndRepeatEveryFifteenMinutes : Z;
  BeepType_BipBeepFourTimes : Z;
  BeepType_BipBipBipTwice : Z
}.

(** ** The pod shadow ([pod.py]): the attributes [pdm.py] reads and writes *)

Record Pod : Type := mkPod {
  id_lot : option Z;
  id_t : option Z;
  radio_address : option Z;
  radio_address_candidate : option Z;
  radio_message_sequence : Z;
  radio_packet_sequence : Z;
  nonce_last : option Z;
  nonce_seed : Z;
  state_progress : PodProgress;
  state_basal : BasalState;
  state_bolus : BolusState;
  state_faulted : bool;
  state_alert : Z;
  state_last_updated : option Q;
  state_active_minutes : option Z;
  insulin_reservoir : Q;
  last_enacted_bolus_start : option Q;
  last_enacted_bolus_amount : option Q;
  last_enacted_temp_basal_start : option Q;
  last_enacted_temp_basal_duration : option Q;
  last_enacted_temp_basal_amount : option Q;
  var_maximum_bolus : option Q;
  var_maximum_temp_basal_rate : option Q;
  var_basal_schedule : option (list Decimal);
  var_alert_low_reservoir : option Q;
  var_alert_replace_pod : option Z;
  var_utc_offset : option Z;
  basalSchedule : option (list Decimal)
}.

(** Attribute assignments [self.pod.x = v]. *)
Definition set_radio_address (v : option Z) (p : Pod) : Pod :=
  let '(mkPod a0 a1 a2 a3 a4 a5 a6 a7 a8 a9 a10 a11 a12 a13 a14 a15 a16 a17 a18 a19 a20 a21 a22
              a23 a24 a25 a26 a27) := p in
  mkPod a0 a1 v a3 a4 a5 a6 a7 a8 a9 a10 a11 a12 a13 a14 a15 a16 a17 a18 a19 a20 a21 a22 a23 a24
        a25 a26 a27.

Definition set_radio_message_sequence (v : Z) (p : Pod) : Pod :=
  let '(mkPod a0 a1 a2 a3 a4 a5 a6 a7 a8 a9 a10 a11 a12 a13 a14 a15 a16 a17 a18 a19 a20 a21 a22
              a23 a24 a25 a26 a27) := p in
  mkPod a0 a1 a2 a3 v a5 a6 a7 a8 a9 a10 a11 a12 a13 a14 a15 a16 a17 a18 a19 a20 a21 a22 a23 a24
        a25 a26 a27.

Definition set_radio_packet_sequence (v : Z) (p : Pod) : Pod :=
  let '(mkPod a0 a1 a2 a3 a4 a5 a6 a7 a8 a9 a10 a11 a12 a13 a14 a15 a16 a17 a18 a19 a20 a21 a22
              a23 a24 a25 a26 a27) := p in
  mkPod a0 a1 a2 a3 a4 v a6 a7 a8 a9 a10 a11 a12 a13 a14 a15 a16 a17 a18 a19 a20 a21 a22 a23 a24
        a25 a26 a27.

Definition set_nonce_last (v : option Z) (p : Pod) : Pod :=
  let '(mkPod a0 a1 a2 a3 a4 a5 a6 a7 a8 a9 a10 a11 a12 a13 a14 a15 a16 a17 a18 a19 a20 a21 a22
              a23 a24 a25 a26 a27) := p in
  mkPod a0 a1 a2 a3 a4 a5 v a7 a8 a9 a10 a11 a12 a13 a14 a15 a16 a17 a18 a19 a20 a21 a22 a23 a24
        a25 a26 a27.

Definition set_nonce_seed (v : Z) (p : Pod) : Pod :=
  let '(mkPod a0 a1 a2 a3 a4 a5 a6 a7 a8 a9 a10 a11 a12 a13 a14 a15 a16 a17 a18 a19 a20 a21 a22
              a23 a24 a25 a26 a27) := p in
  mkPod a0 a1 a2 a3 a4 a5 a6 v a8 a9 a10 a11 a12 a13 a14 a15 a16 a17 a18 a19 a20 a21 a22 a23 a24
        a25 a26 a27.

Definition set_last_enacted_bolus_start (v : option Q) (p : Pod) : Pod :=
  let '(mkPod a0 a1 a2 a3 a4 a5 a6 a7 a8 a9 a10 a11 a12 a13 a14 a15 a16 a17 a18 a19 a20 a21 a22
              a23 a24 a25 a26 a27) := p in
  mkPod a0 a1 a2 a3 a4 a5 a6 a7 a8 a9 a10 a11 a12 a13 a14 a15 v a17 a18 a19 a20 a21 a22 a23 a24
        a25 a26 a27.

Definition set_last_enacted_bolus_amount (v : option Q) (p : Pod) : Pod :=
  let '(mkPod a0 a1 a2 a3 a4 a5 a6 a7 a8 a9 a10 a11 a12 a13 a14 a15 a16 a17 a18 a19 a20 a21 a22
              a23 a24 a25 a26 a27) := p in
  mkPod a0 a1 a2 a3 a4 a5 a6 a7 a8 a9 a10 a11 a12 a13 a14 a15 a16 v a18 a19 a20 a21 a22 a23 a24
        a25 a26 a27.

Definition set_last_enacted_temp_basal_start (v : option Q) (p : Pod) : Pod :=
  let '(mkPod a0 a1 a2 a3 a4 a5 a6 a7 a8 a9 a10 a11 a12 a13 a14 a15 a16 a17 a18 a19 a20 a21 a22
              a23 a24 a25 a26 a27) := p in
  mkPod a0 a1 a2 a3 a4 a5 a6 a7 a8 a9 a10 a11 a12 a13 a14 a15 a16 a17 v a19 a20 a21 a22 a23 a24
        a25 a26 a27.

Definition set_last_enacted_temp_basal_duration (v : option Q) (p : Pod) : Pod :=
  let '(mkPod a0 a1 a2 a3 a4 a5 a6 a7 a8 a9 a10 a11 a12 a13 a14 a15 a16 a17 a18 a19 a20 a21 a22
              a23 a24 a25 a26 a27) := p in
  mkPod a0 a1 a2 a3 a4 a5 a6 a7 a8 a9 a10 a11 a12 a13 a14 a15 a16 a17 a18 v a20 a21 a22 a23 a24
        a25 a26 a27.

Definition set_last_enacted_temp_basal_amount (v : option Q) (p : Pod) : Pod :=
  let '(mkPod a0 a1 a2 a3 a4 a5 a6 a7 a8 a9 a10 a11 a12 a13 a14 a15 a16 a17 a18 a19 a20 a21 a22
              a23 a24 a25 a26 a27) := p in
  mkPod a0 a1 a2 a3 a4 a5 a6 a7 a8 a9 a10 a11 a12 a13 a14 a15 a16 a17 a18 a19 v a21 a22 a23 a24
        a25 a26 a27.

Definition set_var_basal_schedule (v : option (list Decimal)) (p : Pod) : Pod :=
  let '(mkPod a0 a1 a2 a3 a4 a5 a6 a7 a8 a9 a10 a11 a12 a13 a14 a15 a16 a17 a18 a19 a20 a21 a22
              a23 a24 a25 a26 a27) := p in
  mkPod a0 a1 a2 a3 a4 a5 a6 a7 a8 a9 a10 a11 a12 a13 a14 a15 a16 a17 a18 a19 a20 a21 a22 v a24
        a25 a26 a27.

Definition set_state_progress (v : PodProgress) (p : Pod) : Pod :=
  let '(mkPod a0 a1 a2 a3 a4 a5 a6 a7 a8 a9 a10 a11 a12 a13 a14 a15 a16 a17 a18 a19 a20 a21 a22
              a23 a24 a25 a26 a27) := p in
  mkPod a0 a1 a2 a3 a4 a5 a6 a7 v a9 a10 a11 a12 a13 a14 a15 a16 a17 a18 a19 a20 a21 a22 a23 a24
        a25 a26 a27.

Definition set_state_basal (v : BasalState) (p : Pod) : Pod :=
  let '(mkPod a0 a1 a2 a3 a4 a5 a6 a7 a8 a9 a10 a11 a12 a13 a14 a15 a16 a17 a18 a19 a20 a21 a22
              a23 a24 a25 a26 a27) := p in
  mkPod a0 a1 a2 a3 a4 a5 a6 a7 a8 v a10 a11 a12 a13 a14 a15 a16 a17 a18 a19 a20 a21 a22 a23 a24
        a25 a26 a27.

Definition set_state_bolus (v : BolusState) (p : Pod) : Pod :=
  let '(mkPod a0 a1 a2 a3 a4 a5 a6 a7 a8 a9 a10 a11 a12 a13 a14 a15 a16 a17 a18 a19 a20 a21 a22
              a23 a24 a25 a26 a27) := p in
  mkPod a0 a1 a2 a3 a4 a5 a6 a7 a8 a9 v a11 a12 a13 a14 a15 a16 a17 a18 a19 a20 a21 a22 a23 a24
        a25 a26 a27.

Definition set_state_last_updated (v : option Q) (p : Pod) : Pod :=
  let '(mkPod a0 a1 a2 a3 a4 a5 a6 a7 a8 a9 a10 a11 a12 a13 a14 a15 a16 a17 a18 a19 a20 a21 a22
              a23 a24 a25 a26 a27) := p in
  mkPod a0 a1 a2 a3 a4 a5 a6 a7 a8 a9 a10 a11 a12 v a14 a15 a16 a17 a18 a19 a20 a21 a22 a23 a24
        a25 a26 a27.

Definition set_radio_address_candidate (v : option Z) (p : Pod) : Pod :=
  let '(mkPod a0 a1 a2 a3 a4 a5 a6 a7 a8 a9 a10 a11 a12 a13 a14 a15 a16 a17 a18 a19 a20 a21 a22
              a23 a24 a25 a26 a27) := p in
  mkPod a0 a1 a2 v a4 a5 a6 a7 a8 a9 a10 a11 a12 a13 a14 a15 a16 a17 a18 a19 a20 a21 a22 a23 a24
        a25 a26 a27.

(** ** Messages ([message.py]) *)

Inductive MessageType : Type := PDM | POD.

(** Modelled from the spec: the class [Message] of [message.py], which is not
    among the sources.  Section 3: "Message: { type: PDM|POD, address: u32,
    sequence: u8, commands: [(ctype: u8, body: bytes)], nonce?: u32 }". *)
Record Message : Type := mkMessage {
  mtype : MessageType;
  address : option Z;
  sequence : Z;
  commands : list (Z * bytes);
  msg_nonce : option Z
}.

Definition Message_new (t : MessageType) (addr : option Z) (seq : Z) : Message :=
  mkMessage t addr seq [] None.

Definition addCommand (ctype : Z) (body : bytes) (m : Message) : Message :=
  mkMessage (mtype m) (address m) (sequence m) (commands m ++ [(ctype, body)]) (msg_nonce m).

Definition setNonce (n : Z) (m : Message) : Message :=
  mkMessage (mtype m) (address m) (sequence m) (commands m) (Some n).

(** The [request_msg] strings, kept as their format and its arguments. *)
Inductive RequestMsg : Type :=
| REQ_EMPTY
| REQ_STATUS (update_type : Z)
| REQ_ACK (alert_mask : Z)
| REQ_BOLUS (amount : Decimal)
| REQ_CANCEL (bolus tempbasal basal : bool)
| REQ_TEMPBASAL (rate hours : Decimal)
| REQ_SETBASALSCHEDULE (schedule : list Decimal)
| REQ_DEACTIVATE_POD
| REQ_ASSIGN_ADDRESS (candidate : Z)
| REQ_PAIR_POD
| REQ_PRIMING
| REQ_ACTIVATE_ALERT (alert_bit : Z) (activate : bool).

(** [datetime]: the fields [pdm.py] reads. *)
Record DateTime : Type := mkDateTime {
  year : Z; month : Z; day : Z; hour : Z; minute : Z; second : Z
}.

(** ** The environment *)

(** One exchange on the radio: what [send_request_get_response] does, and the
    counters the radio object holds afterwards. *)
Inductive RadioOutcome : Type :=
| Responds (contents : list (Z * bytes))
| Fails (e : exn).

Record RadioStep : Type := mkRadioStep {
  r_outcome : RadioOutcome;
  r_messageSequence : Z;
  r_packetSequence : Z
}.

(** The outward calls of a run, oldest first. *)
Inductive Event : Type :=
| ESleep (seconds : Z)
| ESend (message : Message) (stay_connected low_tx high_tx : bool) (address2 : option Z)
| EDisconnect
| ENonceSync (sync_word seq : Z)
| ESave (p : Pod) (written : bool).

(** ** Collaborators *)

(** [nonce.py]: the class [Nonce] and the constant [FAKE_NONCE]. *)
Class NonceGen : Type := {
  Nonce : Type;
  Nonce_new : option Z -> option Z -> option Z -> Z -> Nonce;
  getNext : Nonce -> Z * Nonce;
  sync : Z -> Z -> Nonce -> Nonce;
  lastNonce : Nonce -> option Z;
  seed : Nonce -> Z;
  FAKE_NONCE : Z
}.

(** [pod.py]: the response handlers of the pod shadow.  They see the clock
    and may raise. *)
Class PodShadow : Type := {
  handle_version_response : bytes -> Q -> Pod -> Result unit * Pod;
  handle_status_response : bytes -> option RequestMsg -> Q -> Pod -> Result unit * Pod;
  handle_information_response : bytes -> option RequestMsg -> Q -> Pod -> Result unit * Pod
}.

(** [pdmutils.py]: the schedule tables. *)
Class PdmUtils : Type := {
  getPulsesForHalfHours : list Decimal -> Result (list Z);
  getInsulinScheduleTableFromPulses : list Z -> Result (list Z);
  getStringBodyFromTable : list Z -> Result bytes;
  getPulseIntervalEntries : list Decimal -> Result (list (Z * Z))
}.

Section PdmCore.

Context {NG : NonceGen} {PS : PodShadow} {PU : PdmUtils} {DF : Definitions}.

(** ** The state of a [Pdm] object and of what surrounds it *)

Record World : Type := mkWorld {
  pod : Pod;                          (* self.pod *)
  nonce : Nonce;                      (* self.nonce *)
  radio_messageSequence : Z;          (* self.radio.messageSequence *)
  radio_packetSequence : Z;           (* self.radio.packetSequence *)
  radio_script : list RadioStep;      (* the exchanges to come *)
  clock : Q;                          (* time.time() *)
  wall_clock : Z -> DateTime;         (* datetime.utcnow() + timedelta(minutes=m) *)
  lock_busy : bool;                   (* the lock file is held by another process *)
  disk_ok : bool;                     (* pod.Save() succeeds *)
  saved : option Pod;                 (* the pod as last written by pod.Save() *)
  trace : list Event
}.

Definition with_pod (p : Pod) (w : World) : World :=
  mkWorld p (nonce w) (radio_messageSequence w) (radio_packetSequence w) (radio_script w)
          (clock w) (wall_clock w) (lock_busy w) (disk_ok w) (saved w) (trace w).

Definition with_nonce (n : Nonce) (w : World) : World :=
  mkWorld (pod w) n (radio_messageSequence w) (radio_packetSequence w) (radio_script w)
          (clock w) (wall_clock w) (lock_busy w) (disk_ok w) (saved w) (trace w).

Definition with_messageSequence (s : Z) (w : World) : World :=
  mkWorld (pod w) (nonce w) s (radio_packetSequence w) (radio_script w)
          (clock w) (wall_clock w) (lock_busy w) (disk_ok w) (saved w) (trace w).

Definition with_packetSequence (s : Z) (w : World) : World :=
  mkWorld (pod w) (nonce w) (radio_messageSequence w) s (radio_script w)
          (clock w) (wall_clock w) (lock_busy w) (disk_ok w) (saved w) (trace w).

Definition with_radio_script (l : list RadioStep) (w : World) : World :=
  mkWorld (pod w) (nonce w) (radio_messageSequence w) (radio_packetSequence w) l
          (clock w) (wall_clock w) (lock_busy w) (disk_ok w) (saved w) (trace w).

Definition with_clock (t : Q) (w : World) : World :=
  mkWorld (pod w) (nonce w) (radio_messageSequence w) (radio_packetSequence w) (radio_script w)
          t (wall_clock w) (lock_busy w) (disk_ok w) (saved w) (trace w).

Definition with_saved (s : option Pod) (w : World) : World :=
  mkWorld (pod w) (nonce w) (radio_messageSequence w) (radio_packetSequence w) (radio_script w)
          (clock w) (wall_clock w) (lock_busy w) (disk_ok w) s (trace w).

Definition log (e : Event) (w : World) : World :=
  mkWorld (pod w) (nonce w) (radio_messageSequence w) (radio_packetSequence w) (radio_script w)
          (clock w) (wall_clock w) (lock_busy w) (disk_ok w) (saved w) (trace w ++ [e]).

(** ** The monad: state that survives exceptions *)

Definition M (A : Type) : Type := World -> Result A * World.

Definition ret {A} (a : A) : M A := fun w => (Ok a, w).

Definition raise {A} (e : exn) : M A := fun w => (Raise e, w).

Definition bind {A B} (m : M A) (k : A -> M B) : M B :=
  fun w =>
    match m w with
    | (Ok a, w') => k a w'
    | (Raise e, w') => (Raise e, w')
    end.

Definition liftR {A} (r : Result A) : M A := fun w => (r, w).

(** [try: m except Exception as e: handler e] *)
Definition try_except {A} (m : M A) (handler : exn -> M A) : M A :=
  fun w =>
    match m w with
    | (Ok a, w') => (Ok a, w')
    | (Raise e, w') => handler e w'
    end.

(** [try: m finally: fin].  An exception of [fin] replaces the outcome of
    [m]. *)
Definition try_finally {A} (m : M A) (fin : M unit) : M A :=
  fun w =>
    let (r, w') := m w in
    match fin w' with
    | (Ok _, w'') => (r, w'')
    | (Raise e, w'') => (Raise e, w'')
    end.

Notation "x <- m ;; k" := (bind m (fun x => k))
  (at level 61, m at next level, right associativity).
Notation "m ;; k" := (bind m (fun _ => k))
  (at level 61, right associativity).

Definition when (b : bool) (m : M unit) : M unit := if b then m else ret tt.

(** ** Primitive effects *)

Definition get_pod : M Pod := fun w => (Ok (pod w), w).

Definition modify_pod (f : Pod -> Pod) : M unit := fun w => (Ok tt, with_pod (f (pod w)) w).

(** [time.time()] *)
Definition time_time : M Q := fun w => (Ok (clock w), w).

(** [time.sleep(n)] *)
Definition time_sleep (n : Z) : M unit :=
  fun w => (Ok tt, log (ESleep n) (with_clock (clock w + inject_Z n)%Q w)).

(** [datetime.utcnow() + timedelta(minutes=m)] *)
Definition pod_date (m : Z) : M DateTime := fun w => (Ok (wall_clock w m), w).

(** [self.nonce.getNext()] *)
Definition nonce_getNext : M Z :=
  fun w => (Ok (fst (getNext (nonce w))), with_nonce (snd (getNext (nonce w))) w).

(** [self.nonce.sync(word, seq)] *)
Definition nonce_sync (word seq : Z) : M unit :=
  fun w => (Ok tt, log (ENonceSync word seq) (with_nonce (sync word seq (nonce w)) w)).

(** Modelled from the spec: [Radio.send_request_get_response] of [radio.py],
    which is not among the sources.  Section 4.3: it "performs one framed
    exchange", "fails with TransmissionOutOfSyncError when peer counters
    disagree" and "holds messageSequence and packetSequence counters".  Here
    it takes one step of the script: the call is recorded, the counters
    become those of the step, and the step answers or raises.  A radio that
    has nothing more to answer raises a member of the OmnipyError family. *)
Definition radio_send_request_get_response (message : Message)
    (stay_connected low_tx high_tx : bool) (address2 : option Z) : M (list (Z * bytes)) :=
  fun w =>
    let w1 := log (ESend message stay_connected low_tx high_tx address2) w in
    match radio_script w1 with
    | [] => (Raise (OmnipyError "no response"), w1)
    | step :: rest =>
        let w2 := with_packetSequence (r_packetSequence step)
                    (with_messageSequence (r_messageSequence step)
                       (with_radio_script rest w1)) in
        match r_outcome step with
        | Responds contents => (Ok contents, w2)
        | Fails e => (Raise e, w2)
        end
    end.

(** Modelled from the spec: [Radio.disconnect] of [radio.py] (section 4.3:
    "disconnect() must be idempotent"); it does not raise. *)
Definition radio_disconnect : M unit := fun w => (Ok tt, log EDisconnect w).

(** Modelled from the spec: [Pod.Save] of [pod.py], which is not among the
    sources.  Sections 4.7 and 6: the shadow is "written atomically", and
    the write can fail. *)
Definition pod_Save : M unit :=
  fun w =>
    if disk_ok w
    then (Ok tt, log (ESave (pod w) true) (with_saved (Some (pod w)) w))
    else (Raise (PyError "IOError"), log (ESave (pod w) false) w).

(** Modelled from the spec: [pdmlock] of [pdmutils.py], which is not among the
    sources.  Sections 5 and 7: a process-wide lock, re-entrant for nested
    commands, released on every exit; taking it while another caller holds
    it raises [PdmBusyError]. *)
Definition pdmlock {A} (body : M A) : M A :=
  fun w => if lock_busy w then (Raise PdmBusyError, w) else body w.

(** A handler of the pod shadow, run on [self.pod]. *)
Definition pod_handle (h : Q -> Pod -> Result unit * Pod) : M unit :=
  fun w => (fst (h (clock w) (pod w)), with_pod (snd (h (clock w) (pod w))) w).

(** ** Transport *)

Definition _createMessage (commandType : Z) (commandBody : bytes) : M Message :=
  fun w =>
    let msg := Message_new PDM (radio_address (pod w)) (radio_messageSequence w) in
    (Ok (addCommand commandType commandBody msg), w).

(** The loop over the response contents of [_sendMessage], up to the first
    bad-nonce error (where the source leaves the loop by [return]): it gives
    [Some content[1:]] there and [None] when the loop runs to its end. *)
Fixpoint dispatch (contents : list (Z * bytes)) (request_msg : option RequestMsg)
  : M (option bytes) :=
  match contents with
  | [] => ret None
  | (ctype, content) :: rest =>
      when (ctype =? 0x01) (pod_handle (handle_version_response content)) ;;
      if ctype =? 0x1d then
        pod_handle (handle_status_response content request_msg) ;;
        dispatch rest request_msg
      else if ctype =? 0x02 then
        pod_handle (handle_information_response content request_msg) ;;
        dispatch rest request_msg
      else if ctype =? 0x06 then
        match content with
        | [] => raise IndexError
        | c0 :: tl => if c0 =? 0x14 then ret (Some tl) else dispatch rest request_msg
        end
      else dispatch rest request_msg
  end.

(** [try: m except E: ...], as the outcome of [m] handed to what follows. *)
Definition attempt {A} (m : M A) : M (Result A) :=
  fun w => let (r, w') := m w in (Ok r, w').

Definition get_nonce : M Nonce := fun w => (Ok (nonce w), w).

Definition set_nonce (g : Nonce) : M unit := fun w => (Ok tt, with_nonce g w).

Definition get_radio_messageSequence : M Z := fun w => (Ok (radio_messageSequence w), w).

Definition get_radio_packetSequence : M Z := fun w => (Ok (radio_packetSequence w), w).

Definition set_radio_messageSequence (s : Z) : M unit :=
  fun w => (Ok tt, with_messageSequence s w).

Definition set_radio_packetSequence (s : Z) : M unit :=
  fun w => (Ok tt, with_packetSequence s w).

(** The signature of [_sendMessage]: message, with_nonce, nonce_retry_count,
    stay_connected, request_msg, resync_allowed, low_tx, high_tx, address2. *)
Definition Sender : Type :=
  Message -> bool -> Z -> bool -> option RequestMsg -> bool -> bool -> bool -> option Z ->
  M unit.

(** [_interim_resync], over the [_sendMessage] it calls. *)
Definition interim_resync_with (send : Sender) : M unit :=
  time_sleep 15 ;;
  let commandType := 0x0e in
  commandBody <- liftR (bytes_of [0]) ;;
  msg <- _createMessage commandType commandBody ;;
  send msg false 0 true (Some (REQ_STATUS 0)) true false true None ;;
  time_sleep 5.

(** [_sendMessage], lines 457-462: the nonce goes into the message, and a
    fake nonce keeps the radio connected. *)
Definition apply_nonce (with_nonce : bool) (message : Message) (stay_connected : bool)
  : M (Message * bool) :=
  if with_nonce
  then n <- nonce_getNext ;;
       ret (setNonce n message, if n =? FAKE_NONCE then true else stay_connected)
  else ret (message, stay_connected).

(** The body of [_sendMessage], over the [_sendMessage] it calls to resend.
    [message.setNonce] mutates the message, so the resends get the message
    with the nonce of this attempt in it. *)
Definition sendMessage_body (send : Sender) (message : Message) (with_nonce : bool)
    (nonce_retry_count : Z) (stay_connected : bool) (request_msg : option RequestMsg)
    (resync_allowed low_tx high_tx : bool) (address2 : option Z) : M unit :=
  let requested_stay_connected := stay_connected in
  ms <- apply_nonce with_nonce message stay_connected ;;
  let message := fst ms in
  let stay_connected := snd ms in
  response <- attempt (radio_send_request_get_response message stay_connected low_tx
                         high_tx address2) ;;
  match response with
  | Raise TransmissionOutOfSyncError =>
      if resync_allowed then
        interim_resync_with send ;;
        send message with_nonce nonce_retry_count requested_stay_connected request_msg
          false low_tx high_tx address2
      else raise TransmissionOutOfSyncError
  | Raise e => raise e
  | Ok contents =>
      bad_nonce <- dispatch contents request_msg ;;
      match bad_nonce with
      | None => ret tt
      | Some rest =>
          (if nonce_retry_count =? 0 then ret tt
           else if nonce_retry_count >? 3
                then raise (PdmError "Nonce re-negotiation failed")
                else ret tt) ;;
          nonce_sync_word <- liftR (unpack_H rest) ;;
          nonce_sync nonce_sync_word (sequence message) ;;
          set_radio_messageSequence (sequence message) ;;
          send message true (nonce_retry_count + 1) requested_stay_connected request_msg
            true false false None
      end
  end.

(** [_sendMessage] with its recursion (resend after a resync, resend after a
    bad nonce) bounded by [fuel]; a run out of fuel is Python's recursion
    limit. *)
Fixpoint sendMessage_fuel (fuel : nat) : Sender :=
  match fuel with
  | O => fun _ _ _ _ _ _ _ _ _ => raise RecursionError
  | S fuel' => sendMessage_body (sendMessage_fuel fuel')
  end.

(** Every call of [_sendMessage] makes one exchange before it calls itself,
    so one more unit of fuel than the script has steps is never used up. *)
Definition _sendMessage (message : Message) (with_nonce : bool) (nonce_retry_count : Z)
    (stay_connected : bool) (request_msg : option RequestMsg)
    (resync_allowed low_tx high_tx : bool) (address2 : option Z) : M unit :=
  fun w =>
    sendMessage_fuel (S (List.length (radio_script w))) message with_nonce nonce_retry_count
      stay_connected request_msg resync_allowed low_tx high_tx address2 w.

Definition _interim_resync : M unit := interim_resync_with _sendMessage.

Definition _update_status (update_type : Z) (stay_connected : bool) : M unit :=
  let commandType := 0x0e in
  commandBody <- liftR (bytes_of [update_type]) ;;
  msg <- _createMessage commandType commandBody ;;
  _sendMessage msg false 0 stay_connected (Some (REQ_STATUS update_type)) true false false None.

Definition _acknowledge_alerts (alert_mask : Z) : M unit :=
  let commandType := 0x11 in
  commandBody <- liftR (bytes_of [0; 0; 0; 0; alert_mask]) ;;
  msg <- _createMessage commandType commandBody ;;
  _sendMessage msg true 0 true (Some (REQ_ACK alert_mask)) true false false None.

Definition _savePod : M unit :=
  try_except
    (ms <- get_radio_messageSequence ;;
     modify_pod (set_radio_message_sequence ms) ;;
     ps <- get_radio_packetSequence ;;
     modify_pod (set_radio_packet_sequence ps) ;;
     g <- get_nonce ;;
     modify_pod (set_nonce_last (lastNonce g)) ;;
     modify_pod (set_nonce_seed (seed g)) ;;
     pod_Save)
    (fun e => raise (PdmError "Pod status was not saved")).

(** ** Lifecycle: liveness inference *)

Definition is_Some {A} (o : option A) : bool :=
  match o with
  | Some _ => true
  | None => false
  end.

Definition _is_bolus_running : M bool :=
  p <- get_pod ;;
  if is_Some (state_last_updated p) && negb (BolusState_eqb (state_bolus p) Immediate)
  then ret false
  else
    decided <-
      match last_enacted_bolus_amount p, last_enacted_bolus_start p with
      | Some amount, Some start =>
          if Qltb amount 0 then ret (Some false)
          else
            now <- time_time ;;
            let bolus_end_earliest := (amount * 35 + start)%Q in
            let bolus_end_latest := (amount * 45 + 10 + start)%Q in
            if Qgtb now bolus_end_latest then ret (Some false)
            else if Qltb now bolus_end_earliest then ret (Some true)
            else ret None
      | _, _ => ret None
      end ;;
    match decided with
    | Some b => ret b
    | None =>
        _update_status 0 true ;;
        p <- get_pod ;;
        ret (BolusState_eqb (state_bolus p) Immediate)
    end.

Definition _is_basal_schedule_active : M bool :=
  p <- get_pod ;;
  if is_Some (state_last_updated p) && BasalState_eqb (state_basal p) BasalNotRunning
  then ret false
  else
    _update_status 0 true ;;
    p <- get_pod ;;
    ret (BasalState_eqb (state_basal p) Program).

Definition _is_temp_basal_active : M bool :=
  p <- get_pod ;;
  if is_Some (state_last_updated p) && negb (BasalState_eqb (state_basal p) TempBasal)
  then ret false
  else
    decided <-
      match last_enacted_temp_basal_start p, last_enacted_temp_basal_duration p with
      | Some start, Some duration =>
          match last_enacted_temp_basal_amount p with
          | None => raise TypeError
          | Some amount =>
              if Qltb amount 0 then ret (Some false)
              else
                now <- time_time ;;
                let temp_basal_end_earliest := (start + duration * 3600 - 60)%Q in
                let temp_basal_end_latest := (start + duration * 3660 + 60)%Q in
                if Qgtb now temp_basal_end_latest then ret (Some false)
                else if Qltb now temp_basal_end_earliest then ret (Some true)
                else ret None
          end
      | _, _ => ret None
      end ;;
    match decided with
    | Some b => ret b
    | None =>
        _update_status 0 true ;;
        p <- get_pod ;;
        ret (BasalState_eqb (state_basal p) TempBasal)
    end.

(** ** Lifecycle: guards.  [self.pod] is an object throughout, so the tests
    [self.pod is None] of the source never fire. *)

Definition min_rate : Q := 5 # 100.
Definition max_rate : Q := 30.

Fixpoint check_schedule_entries (schedule : list Decimal) : M unit :=
  match schedule with
  | [] => ret tt
  | entry :: rest =>
      when (Qltb (dec_Q entry) min_rate)
        (raise (PdmError "A basal rate schedule entry cannot be less than 0.05U/h")) ;;
      when (Qgtb (dec_Q entry) max_rate)
        (raise (PdmError "A basal rate schedule entry cannot be more than 30U/h")) ;;
      check_schedule_entries rest
  end.

Definition _assert_basal_schedule_is_valid (schedule : option (list Decimal)) : M unit :=
  match schedule with
  | None => raise (PdmError "No basal schedule defined")
  | Some schedule =>
      when (negb (Nat.eqb (List.length schedule) 48))
        (raise (PdmError "A full schedule of 48 half hours is needed")) ;;
      check_schedule_entries schedule ;;
      p <- get_pod ;;
      when (negb (is_Some (var_utc_offset p))) (raise (PdmError "Pod utc offset not set"))
  end.

Definition _assert_pod_address_not_assigned : M unit :=
  p <- get_pod ;;
  when (is_Some (radio_address p)) (raise (PdmError "Radio radio_address already set")).

Definition _assert_pod_address_assigned : M unit :=
  p <- get_pod ;;
  when (negb (is_Some (radio_address p))) (raise (PdmError "Radio radio_address not set")).

Definition _assert_pod_activate_can_start : M unit :=
  _assert_pod_address_not_assigned ;;
  p <- get_pod ;;
  _assert_basal_schedule_is_valid (var_basal_schedule p).

Definition _assert_pod_can_activate : M unit :=
  p <- get_pod ;;
  when (negb (is_Some (radio_address_candidate p)))
    (raise (PdmError "Radio radio_address candidate not set")) ;;
  when (negb (is_Some (id_lot p))) (raise (PdmError "Lot number unknown")) ;;
  when (negb (is_Some (id_t p))) (raise (PdmError "Serial number unknown")) ;;
  when (negb (progress_eqb (state_progress p) TankFillCompleted))
    (raise (PdmError "Pod is not at the expected state of Tank Fill Completed")).

Definition _assert_pod_paired : M unit :=
  p <- get_pod ;;
  when (negb (is_Some (radio_address p))) (raise (PdmError "Radio radio_address not accepted")) ;;
  when (negb (progress_eqb (state_progress p) PairingSuccess))
    (raise (PdmError "Progress does not indicate pairing success")).

Definition _assert_can_generate_nonce : M unit :=
  p <- get_pod ;;
  when (negb (is_Some (id_lot p))) (raise (PdmError "Lot number is not defined")) ;;
  when (negb (is_Some (id_t p))) (raise (PdmError "Pod serial number is not defined")).

Definition _assert_can_deactivate : M unit :=
  _assert_pod_address_assigned ;;
  _assert_can_generate_nonce ;;
  p <- get_pod ;;
  when (progress_ltb (state_progress p) PairingSuccess) (raise (PdmError "Pod is not paired")) ;;
  when (progress_ltb AlertExpiredShuttingDown (state_progress p))
    (raise (PdmError "Pod already deactivated")).

Definition _assert_can_acknowledge_alerts : M unit :=
  _assert_pod_address_assigned ;;
  p <- get_pod ;;
  when (progress_ltb (state_progress p) PairingSuccess)
    (raise (PdmError "Pod not paired completely yet.")) ;;
  when (progress_eqb (state_progress p) ErrorShuttingDown)
    (raise (PdmError "Pod is shutting down, cannot acknowledge alerts.")) ;;
  when (progress_eqb (state_progress p) AlertExpiredShuttingDown)
    (raise (PdmError "Acknowledgement period expired, pod is shutting down")) ;;
  when (progress_ltb AlertExpiredShuttingDown (state_progress p))
    (raise (PdmError "Pod is not active")).

Definition _assert_status_running : M unit :=
  p <- get_pod ;;
  when (progress_ltb (state_progress p) Running) (raise (PdmError "Pod is not yet running")) ;;
  when (progress_ltb RunningLow (state_progress p)) (raise (PdmError "Pod has stopped")).

Definition _assert_not_faulted : M unit :=
  p <- get_pod ;;
  when (state_faulted p) (raise (PdmError "Pod is state_faulted")).

Definition _assert_no_active_alerts : M unit :=
  p <- get_pod ;;
  when (negb (state_alert p =? 0)) (raise (PdmError "Pod has active alerts")).

Definition _assert_immediate_bolus_not_active : M unit :=
  running <- _is_bolus_running ;;
  when running (raise (PdmError "Pod is busy delivering a bolus")).

(** ** Encoder

    The command bodies are built from pure values; each function below is the
    byte-building part of the method named, in the order of the source.
    [_createMessage], which the source calls between the two bodies, reads
    the state and cannot raise, so it is applied to the pair afterwards. *)

(** Python's [l[i]], negative indices included. *)
Definition py_index {A} (l : list A) (i : Z) : Result A :=
  let n := Z.of_nat (List.length l) in
  let j := if i <? 0 then n + i else i in
  if j <? 0 then Raise IndexError
  else match nth_error l (Z.to_nat j) with
       | Some x => Ok x
       | None => Raise IndexError
       end.

(** The loop [for pulseCount, interval in pulseEntries: ...] of
    [setTempBasal] and [_set_basal_schedule]. *)
Fixpoint pack_entries (pulseEntries : list (Z * Z)) : Result bytes :=
  match pulseEntries with
  | [] => Ok []
  | (pulseCount, interval) :: rest =>
      let? a := pack_H pulseCount in
      let? b := pack_I interval in
      let? r := pack_entries rest in
      Ok (a ++ b ++ r)
  end.

(** [_immediate_bolus], lines 386-405: the bodies of commands 0x1a and
    0x17. *)
Definition immediate_bolus_bodies (pulse_count pulse_speed reminders delivery_delay : Z)
  : Result (bytes * bytes) :=
  let? zero := pack_I 0 in
  let commandBody := zero ++ [0x02] in
  let bodyForChecksum := [0x01] in
  let pulse_span := pulse_speed * pulse_count in
  let? span := pack_H pulse_span in
  let bodyForChecksum := bodyForChecksum ++ span in
  let? count1 := pack_H pulse_count in
  let bodyForChecksum := bodyForChecksum ++ count1 in
  let? count2 := pack_H pulse_count in
  let bodyForChecksum := bodyForChecksum ++ count2 in
  let checksum := getChecksum bodyForChecksum in
  let? cs := pack_H checksum in
  let commandBody := commandBody ++ cs in
  let commandBody := commandBody ++ bodyForChecksum in
  let outer := commandBody in
  let? commandBody := bytes_of [reminders] in
  let? tenths := pack_H (pulse_count * 10) in
  let commandBody := commandBody ++ tenths in
  let? delay := pack_I (delivery_delay * 100000) in
  let commandBody := commandBody ++ delay in
  let commandBody := commandBody ++ [0; 0; 0; 0; 0; 0] in
  Ok (outer, commandBody).

(** [setTempBasal], lines 191-227: the bodies of commands 0x1a and 0x16. *)
Definition temp_basal_bodies (basalRate : Decimal) (halfHours : Z) (confidenceReminder : bool)
  : Result (bytes * bytes) :=
  let halfHourUnits := repeat (dec_half basalRate) (Z.to_nat halfHours) in
  let? pulseList := getPulsesForHalfHours halfHourUnits in
  let? iseList := getInsulinScheduleTableFromPulses pulseList in
  let? iseBody := getStringBodyFromTable iseList in
  let? pulseBody := getStringBodyFromTable pulseList in
  let? zero := pack_I 0 in
  let commandBody := zero ++ [0x01] in
  let? bodyForChecksum := bytes_of [halfHours] in
  let? span := pack_H 0x3840 in
  let bodyForChecksum := bodyForChecksum ++ span in
  let? pulse0 := py_index pulseList 0 in
  let? first := pack_H pulse0 in
  let bodyForChecksum := bodyForChecksum ++ first in
  let checksum := getChecksum (bodyForChecksum ++ pulseBody) in
  let? cs := pack_H checksum in
  let commandBody := commandBody ++ cs in
  let commandBody := commandBody ++ bodyForChecksum in
  let commandBody := commandBody ++ iseBody in
  let outer := commandBody in
  let reminders := 0 in
  let reminders := if confidenceReminder then Z.lor reminders 0x40 else reminders in
  let? commandBody := bytes_of [reminders] in
  let commandBody := commandBody ++ [0x00] in
  let? pulseEntries := getPulseIntervalEntries halfHourUnits in
  let? firstEntry := py_index pulseEntries 0 in
  let firstPulseCount := fst firstEntry in
  let firstInterval := snd firstEntry in
  let? fc := pack_H firstPulseCount in
  let commandBody := commandBody ++ fc in
  let? fi := pack_I firstInterval in
  let commandBody := commandBody ++ fi in
  let? entries := pack_entries pulseEntries in
  Ok (outer, commandBody ++ entries).

(** [_set_basal_schedule], lines 585-597: the half hour the pod is in and the
    seconds left in it. *)
Definition half_hour_timing (podDate : DateTime) : Z * Z :=
  let currentHalfHour := hour podDate * 2 in
  let secondsUntilHalfHour := 0 in
  let '(secondsUntilHalfHour, currentHalfHour) :=
    if minute podDate <? 30
    then (secondsUntilHalfHour + (30 - minute podDate - 1) * 60, currentHalfHour)
    else (secondsUntilHalfHour + (60 - minute podDate - 1) * 60, currentHalfHour + 1) in
  let secondsUntilHalfHour := secondsUntilHalfHour + (60 - second podDate) in
  (currentHalfHour, secondsUntilHalfHour).

(** [_set_basal_schedule], line 607.  The operands are integers below 2^53
    and the quotient of two such floats, when not an integer, is further from
    the next integer than a rounding error, so [int(a / b)] is the truncated
    integer quotient. *)
Definition pulsesRemainingCurrentHour (secondsUntilHalfHour pulses : Z) : Z :=
  Z.quot (secondsUntilHalfHour * pulses) 1800.

(** [int(a / b)] with Python's true division. *)
Definition int_truediv (a b : Z) : Result Z :=
  if b =? 0 then Raise ZeroDivisionError else Ok (Z.quot a b).

(** [_set_basal_schedule], lines 576-635: the bodies of commands 0x1a and
    0x13. *)
Definition basal_schedule_bodies (schedule : list Decimal) (podDate : DateTime)
  : Result (bytes * bytes) :=
  let halvedSchedule := map dec_half schedule in
  let '(currentHalfHour, secondsUntilHalfHour) := half_hour_timing podDate in
  let? pulse_list := getPulsesForHalfHours halvedSchedule in
  let? ise_list := getInsulinScheduleTableFromPulses pulse_list in
  let? ise_body := getStringBodyFromTable ise_list in
  let? pulse_body := getStringBodyFromTable pulse_list in
  let? zero := pack_I 0 in
  let commandBody := zero ++ [0x00] in
  let? pulses := py_index pulse_list currentHalfHour in
  let pulsesRemaining := pulsesRemainingCurrentHour secondsUntilHalfHour pulses in
  let? body_checksum := bytes_of [currentHalfHour] in
  let? eighths := pack_H (secondsUntilHalfHour * 8) in
  let body_checksum := body_checksum ++ eighths in
  let? remaining := pack_H pulsesRemaining in
  let body_checksum := body_checksum ++ remaining in
  let checksum := getChecksum (body_checksum ++ pulse_body) in
  let? cs := pack_H checksum in
  let commandBody := commandBody ++ cs in
  let commandBody := commandBody ++ body_checksum in
  let commandBody := commandBody ++ ise_body in
  let outer := commandBody in
  let reminders := 0 in
  let? commandBody := bytes_of [reminders] in
  let commandBody := commandBody ++ [0x00] in
  let? pulseEntries := getPulseIntervalEntries halvedSchedule in
  let? tenths := pack_H (pulsesRemaining * 10) in
  let commandBody := commandBody ++ tenths in
  let? interval := int_truediv (secondsUntilHalfHour * 1000 * 1000) pulsesRemaining in
  let? iv := pack_I interval in
  let commandBody := commandBody ++ iv in
  let? entries := pack_entries pulseEntries in
  Ok (outer, commandBody ++ entries).

(** ** Commands: the private methods *)

Definition _immediate_bolus (pulse_count pulse_speed reminders delivery_delay : Z)
    (request_msg : option RequestMsg) (stay_connected : bool) : M unit :=
  bodies <- liftR (immediate_bolus_bodies pulse_count pulse_speed reminders delivery_delay) ;;
  msg <- _createMessage 0x1a (fst bodies) ;;
  let msg := addCommand 0x17 (snd bodies) msg in
  _sendMessage msg true 0 stay_connected request_msg true false false None ;;
  p <- get_pod ;;
  when (negb (BolusState_eqb (state_bolus p) Immediate))
    (raise (PdmError "Pod did not confirm bolus")).

Definition _cancelActivity (cancelBasal cancelBolus cancelTempBasal beep : bool) : M unit :=
  commandBody <- liftR (pack_I 0) ;;
  let c := if beep then 0x60 else 0 in
  let c := if cancelBolus then Z.lor c 0x04 else c in
  let c := if cancelTempBasal then Z.lor c 0x02 else c in
  let c := if cancelBasal then Z.lor c 0x01 else c in
  flags <- liftR (bytes_of [c]) ;;
  let commandBody := commandBody ++ flags in
  msg <- _createMessage 0x1f commandBody ;;
  _sendMessage msg true 0 true (Some (REQ_CANCEL cancelBolus cancelTempBasal cancelBasal))
    true false false None.

Definition _configure_alert (alert_bit : Z) (activate trigger_auto_off : bool)
    (duration_minutes beep_repeat_type beep_type : Z) (alert_after_minutes : option Z)
    (alert_after_reservoir : option Q) (trigger_reservoir stay_connected : bool) : M unit :=
  match alert_after_minutes with
  | None =>
      match alert_after_reservoir with
      | None => raise (PdmError "Either alert_after_minutes or alert_after_reservoir must be set")
      | Some _ =>
          when (negb trigger_reservoir)
            (raise (PdmError
               "Trigger insulin_reservoir must be True if alert_after_reservoir is to be set"))
      end
  | Some _ =>
      match alert_after_reservoir with
      | Some _ =>
          raise (PdmError "Only one of alert_after_minutes or alert_after_reservoir must be set")
      | None =>
          when trigger_reservoir
            (raise (PdmError
               "Trigger insulin_reservoir must be False if alert_after_minutes is to be set"))
      end
  end ;;
  (if duration_minutes >? 0x1FF
   then raise (PdmError "Alert duration in minutes cannot be more than 511")
   else when (duration_minutes <? 0) (raise (PdmError "Invalid alert duration value"))) ;;
  when (match alert_after_minutes with Some m => m >? 4800 | None => false end)
    (raise (PdmError "Alert cannot be set beyond 80 hours")) ;;
  when (match alert_after_minutes with Some m => m <? 0 | None => false end)
    (raise (PdmError "Invalid value for alert_after_minutes")) ;;
  when (match alert_after_reservoir with Some r => Qgtb r 50 | None => false end)
    (raise (PdmError "Alert cannot be set for more than 50 units")) ;;
  when (match alert_after_reservoir with Some r => Qltb r 0 | None => false end)
    (raise (PdmError "Invalid value for alert_after_reservoir")) ;;
  let b0 := Z.shiftl alert_bit 4 in
  let b0 := if activate then Z.lor b0 0x08 else b0 in
  let b0 := if trigger_reservoir then Z.lor b0 0x04 else b0 in
  let b0 := if trigger_auto_off then Z.lor b0 0x02 else b0 in
  let b0 := Z.lor b0 (Z.land (Z.shiftr duration_minutes 8) 0x0001) in
  let b1 := Z.land duration_minutes 0x00ff in
  b23 <- match alert_after_reservoir, alert_after_minutes with
         | Some r, _ =>
             let reservoir_limit := Q_int (float_mul r 10) in
             ret (Z.shiftr reservoir_limit 8, Z.land reservoir_limit 0x00ff)
         | None, Some m => ret (Z.shiftr m 8, Z.land m 0x00ff)
         | None, None => raise (PdmError "Incorrect alert configuration requested")
         end ;;
  let commandType := 0x19 in
  commandBody <- liftR (bytes_of [0; 0; 0; 0; b0; b1; fst b23; snd b23;
                                  beep_repeat_type; beep_type]) ;;
  msg <- _createMessage commandType commandBody ;;
  _sendMessage msg true 0 stay_connected (Some (REQ_ACTIVATE_ALERT alert_bit activate))
    true false false None.

Definition _set_basal_schedule (schedule : list Decimal) : M unit :=
  p <- get_pod ;;
  offset <- match var_utc_offset p with
            | Some m => ret m
            | None => raise TypeError
            end ;;
  podDate <- pod_date offset ;;
  bodies <- liftR (basal_schedule_bodies schedule podDate) ;;
  msg <- _createMessage 0x1a (fst bodies) ;;
  let msg := addCommand 0x13 (snd bodies) msg in
  _sendMessage msg true 0 false (Some (REQ_SETBASALSCHEDULE schedule)) true false false None.

(** ** Commands: the public methods *)

(** [except OmnipyError: raise / except Exception as e: raise
    PdmError("Unexpected error") from e] *)
Definition reraise {A} (e : exn) : M A :=
  if is_OmnipyError e then raise e else raise (PdmError "Unexpected error").

(** The [try ... except ... finally] that nine of the ten public methods
    share. *)
Definition pdm_command {A} (body : M A) : M A :=
  try_finally (try_except body reraise) (radio_disconnect ;; _savePod).

Definition updatePodStatus (update_type : Z) : M unit :=
  pdm_command
    (_assert_pod_address_assigned ;;
     p <- get_pod ;;
     now <- time_time ;;
     if (update_type =? 0) &&
        match state_last_updated p with
        | Some t => Qltb (now - t) 60
        | None => false
        end
     then ret tt
     else pdmlock (_update_status update_type false)).

Definition acknowledge_alerts (alert_mask : Z) : M unit :=
  pdm_command
    (_assert_can_acknowledge_alerts ;;
     pdmlock (_acknowledge_alerts alert_mask)).

Definition is_busy : M bool :=
  try_finally
    (try_except (pdmlock _is_bolus_running)
       (fun e =>
          match e with
          | PdmBusyError => ret true
          | _ => reraise e
          end))
    radio_disconnect.

Definition bolus (bolus_amount : Decimal) : M unit :=
  pdm_command
    (pdmlock
       (_assert_pod_address_assigned ;;
        _assert_can_generate_nonce ;;
        _assert_immediate_bolus_not_active ;;
        _assert_not_faulted ;;
        _assert_status_running ;;
        p <- get_pod ;;
        when (match var_maximum_bolus p with
              | Some m => Qgtb (dec_Q bolus_amount) m
              | None => false
              end)
          (raise (PdmError "Bolus exceeds defined maximum bolus of %.2fU")) ;;
        let pulseCount := dec_int (dec_mul bolus_amount (Decimal_of_Z 20)) in
        when (pulseCount =? 0) (raise (PdmError "Cannot do a zero bolus")) ;;
        let pulseSpan := pulseCount * 16 in
        when (pulseSpan >? 0x3840)
          (raise (PdmError
             "Bolus would exceed the maximum time allowed for an immediate bolus")) ;;
        running <- _is_bolus_running ;;
        when running (raise (PdmError "A previous bolus is already running")) ;;
        p <- get_pod ;;
        when (Qgtb (dec_Q bolus_amount) (insulin_reservoir p))
          (raise (PdmError
             "Cannot bolus %.2f units, insulin_reservoir capacity is at: %.2f")) ;;
        _immediate_bolus pulseCount 16 0 2 (Some (REQ_BOLUS bolus_amount)) false ;;
        p <- get_pod ;;
        when (negb (BolusState_eqb (state_bolus p) Immediate))
          (raise (PdmError "Pod did not confirm bolus")) ;;
        now <- time_time ;;
        modify_pod (set_last_enacted_bolus_start (Some now)) ;;
        modify_pod (set_last_enacted_bolus_amount (Some (dec_Q bolus_amount))))).

Definition cancelBolus (beep : bool) : M unit :=
  pdm_command
    (pdmlock
       (_assert_pod_address_assigned ;;
        _assert_can_generate_nonce ;;
        _assert_not_faulted ;;
        _assert_status_running ;;
        running <- _is_bolus_running ;;
        if running then
          _cancelActivity false true false beep ;;
          p <- get_pod ;;
          if BolusState_eqb (state_bolus p) Immediate
          then raise (PdmError "Failed to cancel bolus")
          else
            modify_pod (set_last_enacted_bolus_amount (Some (-1)%Q)) ;;
            now <- time_time ;;
            modify_pod (set_last_enacted_bolus_start (Some now))
        else raise (PdmError "Bolus is not running"))).

Definition cancelTempBasal (beep : bool) : M unit :=
  pdm_command
    (pdmlock
       (_assert_pod_address_assigned ;;
        _assert_can_generate_nonce ;;
        _assert_immediate_bolus_not_active ;;
        _assert_not_faulted ;;
        _assert_status_running ;;
        active <- _is_temp_basal_active ;;
        if active then
          _cancelActivity false false true beep ;;
          p <- get_pod ;;
          if BasalState_eqb (state_basal p) TempBasal
          then raise (PdmError "Failed to cancel temp basal")
          else
            modify_pod (set_last_enacted_temp_basal_duration (Some (-1)%Q)) ;;
            now <- time_time ;;
            modify_pod (set_last_enacted_temp_basal_start (Some now)) ;;
            modify_pod (set_last_enacted_temp_basal_amount (Some (-1)%Q))
        else ret tt)).

(** [setTempBasal], lines 171-175: the guards. *)
Definition setTempBasal_guards : M unit :=
  _assert_pod_address_assigned ;;
  _assert_can_generate_nonce ;;
  _assert_immediate_bolus_not_active ;;
  _assert_not_faulted ;;
  _assert_status_running.

(** [setTempBasal], lines 191-239: programming the pod. *)
Definition setTempBasal_program (basalRate hours : Decimal) (halfHours : Z)
    (confidenceReminder : bool) : M unit :=
  bodies <- liftR (temp_basal_bodies basalRate halfHours confidenceReminder) ;;
  msg <- _createMessage 0x1a (fst bodies) ;;
  let msg := addCommand 0x16 (snd bodies) msg in
  _sendMessage msg true 0 false (Some (REQ_TEMPBASAL basalRate hours)) true false false None ;;
  p <- get_pod ;;
  if negb (BasalState_eqb (state_basal p) TempBasal)
  then raise (PdmError "Failed to set temp basal")
  else
    modify_pod (set_last_enacted_temp_basal_duration (Some (dec_Q hours))) ;;
    now <- time_time ;;
    modify_pod (set_last_enacted_temp_basal_start (Some now)) ;;
    modify_pod (set_last_enacted_temp_basal_amount (Some (dec_Q basalRate))).

Definition setTempBasal (basalRate hours : Decimal) (confidenceReminder : bool) : M unit :=
  pdm_command
    (pdmlock
       (setTempBasal_guards ;;
        let halfHours := dec_int (dec_mul hours (Decimal_of_Z 2)) in
        when ((halfHours >? 24) || (halfHours <? 1))
          (raise (PdmError "Requested duration is not valid")) ;;
        p <- get_pod ;;
        when (match var_maximum_temp_basal_rate p with
              | Some m => Qgtb (dec_Q basalRate) m
              | None => false
              end)
          (raise (PdmError "Requested rate exceeds maximum temp basal setting")) ;;
        when (Qgtb (dec_Q basalRate) (dec_Q (Decimal_of_Z 30)))
          (raise (PdmError "Requested rate exceeds maximum temp basal capability")) ;;
        active <- _is_temp_basal_active ;;
        when active (cancelTempBasal false) ;;
        setTempBasal_program basalRate hours halfHours confidenceReminder)).

Definition set_basal_schedule (schedule : option (list Decimal)) : M unit :=
  pdm_command
    (pdmlock
       (_assert_pod_address_assigned ;;
        _assert_can_generate_nonce ;;
        _assert_immediate_bolus_not_active ;;
        _assert_not_faulted ;;
        _assert_status_running ;;
        active <- _is_temp_basal_active ;;
        when active
          (raise (PdmError "Cannot change basal schedule while a temp. basal is active")) ;;
        _assert_basal_schedule_is_valid schedule ;;
        match schedule with
        | None => raise TypeError
        | Some entries => _set_basal_schedule entries
        end ;;
        p <- get_pod ;;
        if negb (BasalState_eqb (state_basal p) Program)
        then raise (PdmError "Failed to set basal schedule")
        else modify_pod (set_var_basal_schedule schedule))).

Definition deactivate_pod : M unit :=
  pdm_command
    (pdmlock
       (body <- liftR (bytes_of [0; 0; 0; 0]) ;;
        msg <- _createMessage 0x1c body ;;
        _sendMessage msg true 0 false (Some REQ_DEACTIVATE_POD) true false false None)).

Definition activate_pod : M unit :=
  pdm_command
    (pdmlock
       (_assert_pod_activate_can_start ;;
        set_radio_packetSequence 0 ;;
        set_radio_messageSequence 0 ;;
        modify_pod (set_radio_address (Some 0xffffffff)) ;;
        let address_candidate := 0x66000000 in
        address_candidate_bytes <- liftR (pack_I address_candidate) ;;
        msg <- _createMessage 0x07 address_candidate_bytes ;;
        _sendMessage msg false 0 true (Some (REQ_ASSIGN_ADDRESS address_candidate))
          false true false (Some address_candidate) ;;
        _assert_pod_can_activate ;;
        let command_body := address_candidate_bytes in
        let packet_timeout := 4 in
        timeout_bytes <- liftR (bytes_of [0x14; packet_timeout]) ;;
        let command_body := command_body ++ timeout_bytes in
        p <- get_pod ;;
        offset <- match var_utc_offset p with
                  | Some m => ret m
                  | None => raise TypeError
                  end ;;
        pod_date <- pod_date offset ;;
        date_bytes <- liftR (bytes_of [month pod_date; day pod_date; year pod_date - 2000;
                                       hour pod_date; minute pod_date]) ;;
        let command_body := command_body ++ date_bytes in
        lot <- match id_lot p with
               | Some v => liftR (pack_I v)
               | None => raise struct_error
               end ;;
        let command_body := command_body ++ lot in
        tid <- match id_t p with
               | Some v => liftR (pack_I v)
               | None => raise struct_error
               end ;;
        let command_body := command_body ++ tid in
        msg <- _createMessage 0x03 command_body ;;
        _sendMessage msg false 0 true (Some REQ_PAIR_POD)
          false true false (Some address_candidate) ;;
        _assert_pod_paired ;;
        modify_pod (set_nonce_seed 0) ;;
        p <- get_pod ;;
        set_nonce (Nonce_new (id_lot p) (id_t p) None 0) ;;
        match var_alert_low_reservoir p with
        | Some limit =>
            _configure_alert PodAlertBit_LowReservoir true false 0
              BeepPattern_OnceEveryMinuteForThreeMinutesAndRepeatHourly
              BeepType_BipBeepFourTimes None (Some (float_round limit)) true true
        | None => ret tt
        end ;;
        _configure_alert PodAlertBit_TimerLimit true false 55
          BeepPattern_OnceEveryMinuteForThreeMinutesAndRepeatEveryFifteenMinutes
          BeepType_BipBipBipTwice (Some 5) None false true ;;
        _immediate_bolus 52 8 0 1 (Some REQ_PRIMING) true ;;
        time_sleep 55 ;;
        p <- get_pod ;;
        match var_alert_replace_pod p with
        | Some replace_pod =>
            match state_active_minutes p with
            | None => raise TypeError
            | Some active_minutes =>
                _configure_alert PodAlertBit_LowReservoir true false 0
                  BeepPattern_OnceEveryMinuteForThreeMinutesAndRepeatEveryFifteenMinutes
                  BeepType_BipBeepFourTimes (Some (replace_pod - active_minutes)) None
                  false true
            end
        | None => ret tt
        end ;;
        p <- get_pod ;;
        match basalSchedule p with
        | Some schedule => _set_basal_schedule schedule
        | None => raise AttributeError
        end)).

(** [Pdm(pod)], with the environment of the run. *)
Definition Pdm_init (p : Pod) (script : list RadioStep) (now : Q) (dates : Z -> DateTime)
    (busy disk : bool) : World :=
  mkWorld p (Nonce_new (id_lot p) (id_t p) (nonce_last p) (nonce_seed p))
          (radio_message_sequence p) (radio_packet_sequence p)
          script now dates busy disk None [].

End PdmCore.

Notation "x <- m ;; k" := (bind m (fun x => k))
  (at level 61, m at next level, right associativity).
Notation "m ;; k" := (bind m (fun _ => k))
  (at level 61, right associativity).

(** * A concrete environment

    Stand-ins for the collaborators, small enough to run, and a pod in the
    middle of its life.  The theorems below hold for every collaborator; the
    stand-ins serve the runs on concrete inputs. *)

Module Sim.

(** A nonce generator that counts: the state is the last nonce and the
    seed. *)
Definition nonce_gen : NonceGen := {|
  Nonce := Z * Z;
  Nonce_new := fun _ _ seekNonce seed =>
    (match seekNonce with Some n => n | None => 0 end, seed);
  getNext := fun g => (fst g + 1, (fst g + 1, snd g));
  sync := fun word seq g => (word * 16 + seq, snd g + 1);
  lastNonce := fun g => Some (fst g);
  seed := fun g => snd g;
  FAKE_NONCE := 0xD012FA62
|}.

Definition basal_of_byte (b : Z) : BasalState :=
  if b =? 1 then TempBasal else if b =? 2 then Program else BasalNotRunning.

Definition bolus_of_byte (b : Z) : BolusState :=
  if b =? 1 then Extended else if b =? 2 then Immediate else BolusNotRunning.

(** A status response of two bytes, basal state and bolus state. *)
Definition status_response (content : bytes) (now : Q) (p : Pod) : Result unit * Pod :=
  match content with
  | [basal; bolus] =>
      (Ok tt, set_state_last_updated (Some now)
                (set_state_bolus (bolus_of_byte bolus)
                   (set_state_basal (basal_of_byte basal) p)))
  | _ => (Raise ValueError, p)
  end.

Definition pod_shadow : PodShadow := {|
  handle_version_response := fun _ _ p => (Ok tt, p);
  handle_status_response := fun content _ now p => status_response content now p;
  handle_information_response := fun _ _ _ p => (Ok tt, p)
|}.

(** One pulse is 0.05 U (section 4.1 of the spec): the pulses of a half hour
    are its units times twenty, whole pulses only. *)
Definition pulses_of_units (u : Decimal) : Z := dec_int (dec_mul u (Decimal_of_Z 20)).

Fixpoint pack_table (table : list Z) : Result bytes :=
  match table with
  | [] => Ok []
  | v :: rest =>
      let? a := pack_H v in
      let? r := pack_table rest in
      Ok (a ++ r)
  end.

Definition interval_entry (u : Decimal) : Z * Z :=
  let pulses := pulses_of_units u in
  (pulses * 10, if pulses =? 0 then 1800000000 else 1800000000 / pulses).

Definition pdm_utils : PdmUtils := {|
  getPulsesForHalfHours := fun units => Ok (map pulses_of_units units);
  getInsulinScheduleTableFromPulses := fun pulses => Ok pulses;
  getStringBodyFromTable := pack_table;
  getPulseIntervalEntries := fun units => Ok (map interval_entry units)
|}.

Definition definitions : Definitions := {|
  PodAlertBit_LowReservoir := 4;
  PodAlertBit_TimerLimit := 7;
  BeepPattern_OnceEveryMinuteForThreeMinutesAndRepeatHourly := 2;
  BeepPattern_OnceEveryMinuteForThreeMinutesAndRepeatEveryFifteenMinutes := 3;
  BeepType_BipBeepFourTimes := 2;
  BeepType_BipBipBipTwice := 3
|}.

(** A paired pod that runs its basal program; its status was last read at
    second 1000. *)
Definition running_pod : Pod := {|
  id_lot := Some 44147;
  id_t := Some 1100256;
  radio_address := Some 0x1f0e89f0;
  radio_address_candidate := None;
  radio_message_sequence := 4;
  radio_packet_sequence := 9;
  nonce_last := Some 100;
  nonce_seed := 0;
  state_progress := Running;
  state_basal := Program;
  state_bolus := BolusNotRunning;
  state_faulted := false;
  state_alert := 0;
  state_last_updated := Some 1000%Q;
  state_active_minutes := Some 600;
  insulin_reservoir := 50%Q;
  last_enacted_bolus_start := None;
  last_enacted_bolus_amount := None;
  last_enacted_temp_basal_start := None;
  last_enacted_temp_basal_duration := None;
  last_enacted_temp_basal_amount := None;
  var_maximum_bolus := Some 10%Q;
  var_maximum_temp_basal_rate := Some 5%Q;
  var_basal_schedule := None;
  var_alert_low_reservoir := None;
  var_alert_replace_pod := None;
  var_utc_offset := Some 60;
  basalSchedule := None
|}.

(** The pod's answer to a command: a status response (0x1d) with the basal
    and bolus states given, and the counters of the radio after it. *)
Definition answers (basal bolus : Z) (mseq pseq : Z) : RadioStep :=
  mkRadioStep (Responds [(0x1d, [basal; bolus])]) mseq pseq.

(** The pod's answer that the nonce was bad, with the sync word [hb lb]. *)
Definition bad_nonce (hb lb : Z) : RadioStep :=
  mkRadioStep (Responds [(0x06, [0x14; hb; lb])]) 5 11.

(** An exchange that ends in TransmissionOutOfSyncError. *)
Definition out_of_sync : RadioStep := mkRadioStep (Fails TransmissionOutOfSyncError) 4 10.

(** The message of [deactivate_pod], as [_createMessage] builds it for
    [running_pod]. *)
Definition deactivate_message : Message :=
  mkMessage PDM (Some 0x1f0e89f0) 4 [(0x1c, [0; 0; 0; 0])] None.

(** [running_pod] before its status was ever read. *)
Definition unread_pod : Pod := set_state_last_updated None running_pod.

(** [running_pod] after it was deactivated. *)
Definition inactive_pod : Pod := set_state_progress Inactive running_pod.

(** 1.00 U/h around the clock. *)
Definition flat_schedule : list Decimal := repeat (mkDecimal 100 2) 48.

(** One clock for all offsets. *)
Definition at_time (h m s : Z) : Z -> DateTime := fun _ => mkDateTime 2019 6 1 h m s.

(** [running_pod] in the middle of an immediate bolus. *)
Definition bolusing_pod : Pod := set_state_bolus Immediate running_pod.

(** [running_pod] ten seconds into a temp basal of 1 U/h for two hours. *)
Definition temp_basal_pod : Pod :=
  set_last_enacted_temp_basal_amount (Some 1%Q)
    (set_last_enacted_temp_basal_duration (Some 2%Q)
       (set_last_enacted_temp_basal_start (Some 1000%Q)
          (set_state_basal TempBasal running_pod))).

(** A pod out of the box: no address yet, a schedule to program. *)
Definition fresh_pod : Pod := {|
  id_lot := Some 44147;
  id_t := Some 1100256;
  radio_address := None;
  radio_address_candidate := None;
  radio_message_sequence := 0;
  radio_packet_sequence := 0;
  nonce_last := None;
  nonce_seed := 0;
  state_progress := Initial;
  state_basal := BasalNotRunning;
  state_bolus := BolusNotRunning;
  state_faulted := false;
  state_alert := 0;
  state_last_updated := None;
  state_active_minutes := Some 0;
  insulin_reservoir := 0%Q;
  last_enacted_bolus_start := None;
  last_enacted_bolus_amount := None;
  last_enacted_temp_basal_start := None;
  last_enacted_temp_basal_duration := None;
  last_enacted_temp_basal_amount := None;
  var_maximum_bolus := Some 10%Q;
  var_maximum_temp_basal_rate := Some 5%Q;
  var_basal_schedule := Some flat_schedule;
  var_alert_low_reservoir := None;
  var_alert_replace_pod := None;
  var_utc_offset := Some 60;
  basalSchedule := Some flat_schedule
|}.

Definition progress_of_byte (b : Z) : PodProgress :=
  if b =? 2 then TankFillCompleted else if b =? 3 then PairingSuccess else Initial.

(** A version response of one byte, the progress of the pod; the pod shadow
    notes the candidate address with it. *)
Definition version_response (content : bytes) (p : Pod) : Result unit * Pod :=
  match content with
  | [progress] =>
      (Ok tt, set_radio_address_candidate (Some 0x66000000)
                (set_state_progress (progress_of_byte progress) p))
  | _ => (Raise ValueError, p)
  end.

(** A pod shadow that follows the activation. *)
Definition activation_shadow : PodShadow := {|
  handle_version_response := fun content _ p => version_response content p;
  handle_status_response := fun content _ now p => status_response content now p;
  handle_information_response := fun _ _ _ p => (Ok tt, p)
|}.

(** The answers of a pod that is being activated: its version with the
    progress TankFillCompleted, then with PairingSuccess, a status after the
    alert, the bolus state Immediate after the priming bolus, the basal state
    Program after the schedule. *)
Definition activation_script : list RadioStep :=
  [mkRadioStep (Responds [(0x01, [2])]) 1 2;
   mkRadioStep (Responds [(0x01, [3])]) 2 4;
   answers 0 0 3 6;
   answers 0 2 4 8;
   answers 2 0 5 10].

(** A response of commands the pdm has no use for: an error that is not the
    bad-nonce error, and a type it does not know. *)
Definition odd_response : RadioStep :=
  mkRadioStep (Responds [(0x06, [0x15; 0]); (0x42, [])]) 5 11.

(** A [Pdm] on [p] with the radio script given, at second 1010, the lock
    free and the disk writable. *)
Definition pdm (p : Pod) (script : list RadioStep) (dates : Z -> DateTime) : @World nonce_gen :=
  @Pdm_init nonce_gen p script 1010%Q dates false true.

End Sim.

(** * What the spec speaks of *)

(** Rounding to the nearest integer, ties to the even one. *)
Definition round_half_even (x : Q) : Z :=
  let f := Qfloor x in
  match Qcompare (x - inject_Z f) (1 # 2) with
  | Lt => f
  | Gt => f + 1
  | Eq => if Z.even f then f else f + 1
  end.

(** [a] is a whole number of 0.05-unit steps: twenty times [a] is an
    integer. *)
Definition whole_steps (a : Decimal) : bool :=
  (d_coef a * 20) mod pow10 (d_places a) =? 0.

(** The checksum law as section 8 of the spec words it, for an outer 0x1a
    body and the packed pulse list that went into it. *)
Definition checksum_law (body pulse_body : bytes) : Prop :=
  u16_be (slice body 5 7) = byte_sum (slice body 7 (7 + 6 + List.length pulse_body)) mod 65536.

Definition is_save (e : Event) : bool :=
  match e with
  | ESave _ _ => true
  | _ => false
  end.

Definition is_send (e : Event) : bool :=
  match e with
  | ESend _ _ _ _ _ => true
  | _ => false
  end.

Definition is_sync (e : Event) : bool :=
  match e with
  | ENonceSync _ _ => true
  | _ => false
  end.

(** How many events of a trace are of one kind. *)
Definition count (f : Event -> bool) (t : list Event) : nat := List.length (filter f t).

(** A reply that is the bad-nonce error and nothing else. *)
Definition bad_nonce_reply (s : RadioStep) : Prop :=
  exists hb lb, r_outcome s = Responds [(0x06, [0x14; hb; lb])].

Section Vocabulary.

Context {NG : NonceGen} {PS : PodShadow} {PU : PdmUtils} {DF : Definitions}.

(** Between [w] and [w'] the radio was asked to send a message with the
    commands [cmds]. *)
Definition sends_during (w w' : World) (cmds : list (Z * bytes)) : Prop :=
  exists before after m sc lo hi a2,
    trace w' = trace w ++ before ++ ESend m sc lo hi a2 :: after /\ commands m = cmds.

(** Whenever [m] returns, it has sent a message whose commands satisfy
    [P]. *)
Definition emits {A} (m : M A) (P : list (Z * bytes) -> Prop) : Prop :=
  forall w a w', m w = (Ok a, w') -> exists cmds, P cmds /\ sends_during w w' cmds.

(** The quantum law as section 8 of the spec words it, for the amount [a]
    and a run of [bolus] from [w]: the pulse count in the body sent is twenty
    times the amount, rounded half to even, and the amount is a whole number
    of 0.05-unit steps. *)
Definition quantum_law (a : Decimal) (w : World) : Prop :=
  forall w' outer inner,
    bolus a w = (Ok tt, w') ->
    sends_during w w' [(0x1a, outer); (0x17, inner)] ->
    u16_be (slice outer 10 12) = round_half_even (dec_Q a * 20) /\ whole_steps a = true.

(** The duration law as section 4.6 of the spec words it, for a duration
    [hours] and the runs of [setTempBasal] from [w]: half_hours is the hours
    times two, and outside 1 to 24 the call raises PdmError. *)
Definition duration_law (hours : Decimal) (w : World) : Prop :=
  forall rate confidence,
    let half_hours := (dec_Q hours * 2)%Q in
    (half_hours < 1)%Q \/ (24 < half_hours)%Q ->
    exists msg, fst (setTempBasal rate hours confidence w) = Raise (PdmError msg).

(** [w'] continues the trace of [w]. *)
Definition extends (w w' : World) : Prop := exists t, trace w' = trace w ++ t.

(** What the transport does to the world: it adds to the trace, but no
    save; it consumes the script; it leaves the saved pod, the disk and the
    lock alone. *)
Definition transports (w w' : World) : Prop :=
  (exists t, trace w' = trace w ++ t /\ existsb is_save t = false) /\
  (List.length (radio_script w') <= List.length (radio_script w))%nat /\
  saved w' = saved w /\ disk_ok w' = disk_ok w /\ lock_busy w' = lock_busy w.

(** A relation between the worlds before and after, kept along a run. *)
Class Invariant (R : World -> World -> Prop) : Prop := {
  inv_refl : forall w, R w w;
  inv_trans : forall a b c, R a b -> R b c -> R a c
}.

(** Every run of [m] relates its first world to its last. *)
Definition preserves (R : World -> World -> Prop) {A} (m : M A) : Prop :=
  forall w, R w (snd (m w)).

Definition transporting (send : Sender) : Prop :=
  forall m wn rc sc rq ra lo hi a2, preserves transports (send m wn rc sc rq ra lo hi a2).

(** The script has at most [k] steps left. *)
Definition short (k : nat) (w : World) : Prop := (List.length (radio_script w) <= k)%nat.

(** Two computations do the same on the worlds of [P]. *)
Definition agree (P : World -> Prop) {A} (m1 m2 : M A) : Prop :=
  forall w, P w -> m1 w = m2 w.

Definition agreeing (k : nat) (s1 s2 : Sender) : Prop :=
  forall m wn rc sc rq ra lo hi a2,
    agree (short k) (s1 m wn rc sc rq ra lo hi a2) (s2 m wn rc sc rq ra lo hi a2).

(** The status request of the interim resync, as [_createMessage] builds it
    in the world [w]. *)
Definition status_probe (w : World) : Message :=
  mkMessage PDM (radio_address (pod w)) (radio_messageSequence w) [(0x0e, [0])] None.

(** The world after [self.nonce.sync(word, seq)] and
    [self.radio.messageSequence = seq]. *)
Definition resynced (word seq : Z) (w : World) : World :=
  with_messageSequence seq (log (ENonceSync word seq) (with_nonce (sync word seq (nonce w)) w)).

(** The pod as [_savePod] hands it to [Save]: the counters of the radio and
    the state of the nonce generator written back. *)
Definition saved_pod (w : World) : Pod :=
  set_nonce_seed (seed (nonce w))
    (set_nonce_last (lastNonce (nonce w))
       (set_radio_packet_sequence (radio_packetSequence w)
          (set_radio_message_sequence (radio_messageSequence w) (pod w)))).

(** The world after [self.radio.disconnect()] and [self._savePod()]. *)
Definition closed (w : World) : World :=
  let w1 := with_pod (saved_pod w) (log EDisconnect w) in
  if disk_ok w
  then log (ESave (saved_pod w) true) (with_saved (Some (saved_pod w)) w1)
  else log (ESave (saved_pod w) false) w1.

(** What the [except] clauses and the [finally] of [pdm_command] make of the
    outcome of the body. *)
Definition finish {A} (rw : Result A * World) : Result A * World :=
  (if disk_ok (snd rw)
   then match fst rw with
        | Ok a => Ok a
        | Raise e => if is_OmnipyError e then Raise e else Raise (PdmError "Unexpected error")
        end
   else Raise (PdmError "Pod status was not saved"),
   closed (snd rw)).

(** A run of [m] ends with the radio disconnected and the pod handed to
    [Save], and a failed save is what it raises. *)
Definition ends_by_saving {A} (m : M A) : Prop :=
  forall w, exists w1,
    snd (m w) = closed w1 /\
    (disk_ok w1 = false -> fst (m w) = Raise (PdmError "Pod status was not saved")).

(** A guard that looks at the pod shadow and at nothing else: it leaves the
    world as it found it, and when it fails, it fails with PdmError. *)
Definition inspects_only (g : M unit) : Prop :=
  forall w,
    snd (g w) = w /\ (fst (g w) = Ok tt \/ exists msg, fst (g w) = Raise (PdmError msg)).

(** A basal rate the validity guard lets through. *)
Definition rate_in_range (entry : Decimal) : Prop :=
  (min_rate <= dec_Q entry)%Q /\ (dec_Q entry <= max_rate)%Q.

(** The pod passes the guards the delivery commands share after the bolus
    test: address and identifiers known, not faulted, running. *)
Definition ready (p : Pod) : Prop :=
  is_Some (radio_address p) = true /\ is_Some (id_lot p) = true /\
  is_Some (id_t p) = true /\ state_faulted p = false /\
  (state_progress p = Running \/ state_progress p = RunningLow).

(** A command of a response that the loop of [_sendMessage] passes over:
    its type is none of 0x01, 0x1d and 0x02, and if it is the error 0x06, its
    first byte is not the bad-nonce code 0x14. *)
Definition passed_over (c : Z * bytes) : bool :=
  negb (fst c =? 0x01) && negb (fst c =? 0x1d) && negb (fst c =? 0x02) &&
  (negb (fst c =? 0x06) ||
   match snd c with
   | c0 :: _ => negb (c0 =? 0x14)
   | [] => false
   end).

(** The world after one exchange on the radio that took the step [step]. *)
Definition exchanged (message : Message) (stay_connected low_tx high_tx : bool)
    (address2 : option Z) (step : RadioStep) (rest : list RadioStep) (w : World) : World :=
  with_packetSequence (r_packetSequence step)
    (with_messageSequence (r_messageSequence step)
       (with_radio_script rest (log (ESend message stay_connected low_tx high_tx address2) w))).

(** The flag byte of [_cancelActivity] as a sum. *)
Definition cancel_flags (cancelBasal cancelBolus cancelTempBasal beep : bool) : Z :=
  (if beep then 0x60 else 0) + (if cancelBolus then 4 else 0) +
  (if cancelTempBasal then 2 else 0) + (if cancelBasal then 1 else 0).

(** The message [_createMessage] builds in the world [w], with the next
    nonce of [w] in it. *)
Definition nonced_message (commandType : Z) (commandBody : bytes) (w : World) : Message :=
  mkMessage PDM (radio_address (pod w)) (radio_messageSequence w)
            [(commandType, commandBody)] (Some (fst (getNext (nonce w)))).

(** The same without a nonce. *)
Definition plain_message (commandType : Z) (commandBody : bytes) (w : World) : Message :=
  mkMessage PDM (radio_address (pod w)) (radio_messageSequence w)
            [(commandType, commandBody)] None.

(** The first flag byte of an alert configuration as a sum: the alert bit in
    the high nibble, then activate, trigger_reservoir, trigger_auto_off, and
    bit 8 of the duration. *)
Definition alert_flags (alert_bit : Z) (activate trigger_reservoir trigger_auto_off : bool)
    (duration_minutes : Z) : Z :=
  alert_bit * 16 + (if activate then 8 else 0) + (if trigger_reservoir then 4 else 0) +
  (if trigger_auto_off then 2 else 0) + duration_minutes / 256.

(** The limit an alert configuration carries in its bytes 6 and 7: tenths of
    a unit for a reservoir alert, minutes otherwise. *)
Definition alert_limit (alert_after_minutes : option Z) (alert_after_reservoir : option Q) : Z :=
  match alert_after_reservoir, alert_after_minutes with
  | Some r, _ => Q_int (float_mul r 10)
  | None, Some m => m
  | None, None => 0
  end.

(** The arguments [_configure_alert] accepts: exactly one of the two limits,
    with the matching trigger, and every number in its range. *)
Definition alert_arguments_valid (duration_minutes : Z) (alert_after_minutes : option Z)
    (alert_after_reservoir : option Q) (trigger_reservoir : bool) : Prop :=
  0 <= duration_minutes <= 511 /\
  match alert_after_minutes, alert_after_reservoir with
  | Some m, None => trigger_reservoir = false /\ 0 <= m <= 4800
  | None, Some r => trigger_reservoir = true /\ (0 <= r)%Q /\ (r <= 50)%Q
  | _, _ => False
  end.

(** The world [activate_pod] sends its first message from: the counters of
    the radio at 0 and the broadcast address in the pod. *)
Definition activation_start (w : World) : World :=
  with_pod (set_radio_address (Some 0xffffffff) (pod w))
    (with_messageSequence 0 (with_packetSequence 0 w)).

(** The first message of [activate_pod]. *)
Definition assign_address_message : Message :=
  mkMessage PDM (Some 0xffffffff) 0 [(0x07, [0x66; 0; 0; 0])] None.

(** The body of the pairing command for a pod date and the identifiers of the
    pod. *)
Definition pairing_body (date : DateTime) (lot tid : Z) : bytes :=
  [0x66; 0; 0; 0; 0x14; 4; month date; day date; year date - 2000; hour date; minute date]
  ++ u32 lot ++ u32 tid.

(** [stay_connected] as [_sendMessage] hands it to the radio when a nonce is
    used: the fake nonce keeps the radio connected. *)
Definition connected (stay_connected : bool) (w : World) : bool :=
  if fst (getNext (nonce w)) =? FAKE_NONCE then true else stay_connected.

End Vocabulary.

(** * Reasoning about runs *)

Section Runs.

Context {NG : NonceGen} {PS : PodShadow} {PU : PdmUtils} {DF : Definitions}.

(** *** Results of the combinators *)

Lemma bind_Ok {A B} (m : M A) (k : A -> M B) w b w' :
  bind m k w = (Ok b, w') ->
  exists a w1, m w = (Ok a, w1) /\ k a w1 = (Ok b, w').
Proof.
  unfold bind. destruct (m w) as [[a|e] w1]; intros H.
  - eauto.
  - discriminate.
Qed.

Lemma bind_eq {A B} (m : M A) (k : A -> M B) w a w1 :
  m w = (Ok a, w1) -> bind m k w = k a w1.
Proof. unfold bind. intros ->. reflexivity. Qed.

Lemma bind_raise {A B} (m : M A) (k : A -> M B) w e w1 :
  m w = (Raise e, w1) -> bind m k w = (Raise e, w1).
Proof. unfold bind. intros ->. reflexivity. Qed.

Lemma when_raise_Ok b e w u w' :
  when b (raise e) w = (Ok u, w') -> b = false /\ w' = w.
Proof. destruct b; cbn; intros H; inversion H; auto. Qed.

Lemma get_pod_Ok w p w' : get_pod w = (Ok p, w') -> p = pod w /\ w' = w.
Proof. unfold get_pod. intros H; inversion H; auto. Qed.

Lemma liftR_Ok {A} (r : Result A) w a w' :
  liftR r w = (Ok a, w') -> r = Ok a /\ w' = w.
Proof. unfold liftR. intros H; inversion H; auto. Qed.

Lemma pdmlock_Ok {A} (m : M A) w a w' :
  pdmlock m w = (Ok a, w') -> lock_busy w = false /\ m w = (Ok a, w').
Proof. unfold pdmlock. destruct (lock_busy w); intros H; [discriminate | auto]. Qed.

Lemma reraise_raises {A} e w : exists e', @reraise _ A e w = (Raise e', w).
Proof. unfold reraise, raise. destruct (is_OmnipyError e); eauto. Qed.

Lemma try_except_reraise_Ok {A} (m : M A) w a w' :
  try_except m reraise w = (Ok a, w') -> m w = (Ok a, w').
Proof.
  unfold try_except. destruct (m w) as [[x|e] w1]; intros H; [exact H|].
  destruct (@reraise_raises A e w1) as [e' He]. rewrite He in H. discriminate.
Qed.

Lemma try_finally_Ok {A} (m : M A) fin w a w' :
  try_finally m fin w = (Ok a, w') ->
  exists w1, m w = (Ok a, w1) /\ fin w1 = (Ok tt, w').
Proof.
  unfold try_finally. destruct (m w) as [r w1].
  destruct (fin w1) as [[[]|e] w2] eqn:Hf; intros H; inversion H; subst; eauto.
Qed.

Lemma pdm_command_Ok {A} (body : M A) w a w' :
  pdm_command body w = (Ok a, w') ->
  exists w1, body w = (Ok a, w1) /\ (radio_disconnect ;; _savePod) w1 = (Ok tt, w').
Proof.
  unfold pdm_command. intros H. apply try_finally_Ok in H as (w1 & H1 & H2).
  apply try_except_reraise_Ok in H1. eauto.
Qed.

(** *** The encoder *)

Lemma rbind_Ok {A B} (r : Result A) (k : A -> Result B) b :
  rbind r k = Ok b -> exists a, r = Ok a /\ k a = Ok b.
Proof. destruct r; cbn; intros H; [eauto | discriminate]. Qed.

Lemma pack_H_Ok x b : pack_H x = Ok b -> b = u16 x /\ 0 <= x < 65536.
Proof.
  unfold pack_H. destruct ((0 <=? x) && (x <? 65536)) eqn:E; intros H; inversion H.
  split; [reflexivity | lia].
Qed.

Lemma pack_I_Ok x b : pack_I x = Ok b -> b = u32 x /\ 0 <= x < 4294967296.
Proof.
  unfold pack_I. destruct ((0 <=? x) && (x <? 4294967296)) eqn:E; intros H; inversion H.
  split; [reflexivity | lia].
Qed.

Lemma bytes_of_Ok l b : bytes_of l = Ok b -> b = l.
Proof. unfold bytes_of. destruct (forallb is_byte l); intros H; inversion H; reflexivity. Qed.

Lemma py_index_0_Ok {A} (l : list A) x :
  py_index l 0 = Ok x -> exists rest, l = x :: rest.
Proof.
  unfold py_index. cbn. destruct l as [|y rest]; cbn; intros H; inversion H. eauto.
Qed.

Lemma u16_be_u16 x : u16_be (u16 x) = x.
Proof. unfold u16, u16_be. pose proof (Z.div_mod x 256). lia. Qed.

Lemma byte_sum_app a b : byte_sum (a ++ b) = byte_sum a + byte_sum b.
Proof. unfold byte_sum. induction a as [|x a IH]; cbn; [reflexivity | rewrite IH; lia]. Qed.

Ltac rinv H :=
  repeat (let a := fresh "v" in let E := fresh "E" in
          apply rbind_Ok in H; destruct H as (a & E & H)).

Ltac packs :=
  repeat match goal with
         | H : pack_H _ = Ok _ |- _ => apply pack_H_Ok in H; destruct H as [-> ?]
         | H : pack_I _ = Ok _ |- _ => apply pack_I_Ok in H; destruct H as [-> ?]
         | H : bytes_of _ = Ok _ |- _ => apply bytes_of_Ok in H; subst
         end.

Lemma u16_be_pair x : u16_be [x / 256; x mod 256] = x.
Proof. exact (u16_be_u16 x). Qed.

Ltac bodies H :=
  rinv H; packs; injection H as <- <-.

Ltac slices :=
  cbv [slice u32 u16 u8 app skipn firstn Nat.sub Nat.add List.length];
  rewrite u16_be_pair; cbv [getChecksum byte_sum fold_right];
  fold (fold_right Z.add 0); f_equal; try lia.

(** The outer body of an immediate bolus carries, at bytes 5 and 6, the sum
    of the seven bytes after them. *)
Lemma immediate_bolus_checksum pc ps r d outer inner :
  immediate_bolus_bodies pc ps r d = Ok (outer, inner) ->
  u16_be (slice outer 5 7) = byte_sum (slice outer 7 14) mod 65536.
Proof.
  unfold immediate_bolus_bodies. intros H. bodies H. slices.
Qed.

(** The outer body of a temp basal carries the sum of the five bytes after
    the checksum and of the packed pulse list, which is not in the body. *)
Lemma temp_basal_checksum rate hh c outer inner :
  temp_basal_bodies rate hh c = Ok (outer, inner) ->
  exists pulse_list pulse_body,
    getPulsesForHalfHours (repeat (dec_half rate) (Z.to_nat hh)) = Ok pulse_list /\
    getStringBodyFromTable pulse_list = Ok pulse_body /\
    u16_be (slice outer 5 7) = (byte_sum (slice outer 7 12) + byte_sum pulse_body) mod 65536.
Proof.
  unfold temp_basal_bodies. intros H. bodies H.
  eexists _, _. split; [eassumption|]. split; [eassumption|]. slices.
Qed.

(** The same for a basal schedule. *)
Lemma basal_schedule_checksum schedule podDate outer inner :
  basal_schedule_bodies schedule podDate = Ok (outer, inner) ->
  exists pulse_list pulse_body,
    getPulsesForHalfHours (map dec_half schedule) = Ok pulse_list /\
    getStringBodyFromTable pulse_list = Ok pulse_body /\
    u16_be (slice outer 5 7) = (byte_sum (slice outer 7 12) + byte_sum pulse_body) mod 65536.
Proof.
  unfold basal_schedule_bodies.
  destruct (half_hour_timing podDate) as [currentHalfHour secondsUntilHalfHour].
  intros H. bodies H.
  eexists _, _. split; [eassumption|]. split; [eassumption|]. slices.
Qed.

(** *** Relations every step of a run keeps *)

#[local] Instance extends_Invariant : Invariant extends.
Proof.
  split.
  - intros w. exists []. now rewrite app_nil_r.
  - intros a b c [t1 H1] [t2 H2]. exists (t1 ++ t2). now rewrite H2, H1, app_assoc.
Qed.

#[local] Instance transports_Invariant : Invariant transports.
Proof.
  split.
  - intros w. repeat split; try lia. exists []. now rewrite app_nil_r.
  - intros a b c ((t1 & H1 & N1) & L1 & S1 & D1 & B1) ((t2 & H2 & N2) & L2 & S2 & D2 & B2).
    repeat split; try congruence; try lia.
    exists (t1 ++ t2). split.
    + now rewrite H2, H1, app_assoc.
    + rewrite existsb_app, N1, N2. reflexivity.
Qed.

Lemma transports_extends w w' : transports w w' -> extends w w'.
Proof. intros ((t & H & _) & _). now exists t. Qed.

Lemma preserves_run R {A} (m : M A) w r w' : preserves R m -> m w = (r, w') -> R w w'.
Proof. intros P H. specialize (P w). now rewrite H in P. Qed.

Lemma preserves_weaken {A} (m : M A) : preserves transports m -> preserves extends m.
Proof. intros P w. apply transports_extends, P. Qed.

Section Preservation.

Context (R : World -> World -> Prop) `{!Invariant R}.

Lemma preserves_ret {A} (a : A) : preserves R (ret a).
Proof. intros w. apply inv_refl. Qed.

Lemma preserves_raise {A} e : preserves R (@raise _ A e).
Proof. intros w. apply inv_refl. Qed.

Lemma preserves_liftR {A} (r : Result A) : preserves R (liftR r).
Proof. intros w. apply inv_refl. Qed.

Lemma preserves_get_pod : preserves R get_pod.
Proof. intros w. apply inv_refl. Qed.

Lemma preserves_time_time : preserves R time_time.
Proof. intros w. apply inv_refl. Qed.

Lemma preserves_pod_date m : preserves R (pod_date m).
Proof. intros w. apply inv_refl. Qed.

Lemma preserves_get_nonce : preserves R get_nonce.
Proof. intros w. apply inv_refl. Qed.

Lemma preserves_get_radio_messageSequence : preserves R get_radio_messageSequence.
Proof. intros w. apply inv_refl. Qed.

Lemma preserves_get_radio_packetSequence : preserves R get_radio_packetSequence.
Proof. intros w. apply inv_refl. Qed.

Lemma preserves_createMessage t b : preserves R (_createMessage t b).
Proof. intros w. apply inv_refl. Qed.

Lemma preserves_bind {A B} (m : M A) (k : A -> M B) :
  preserves R m -> (forall a, preserves R (k a)) -> preserves R (bind m k).
Proof.
  intros Pm Pk w. unfold bind. specialize (Pm w).
  destruct (m w) as [[a|e] w1]; cbn in *.
  - eapply inv_trans; [exact Pm | apply Pk].
  - exact Pm.
Qed.

Lemma preserves_when b m : preserves R m -> preserves R (when b m).
Proof. destruct b; cbn; [auto | intros _; apply preserves_ret]. Qed.

Lemma preserves_try_except {A} (m : M A) h :
  preserves R m -> (forall e, preserves R (h e)) -> preserves R (try_except m h).
Proof.
  intros Pm Ph w. unfold try_except. specialize (Pm w).
  destruct (m w) as [[a|e] w1]; cbn in *.
  - exact Pm.
  - eapply inv_trans; [exact Pm | apply Ph].
Qed.

Lemma preserves_try_finally {A} (m : M A) fin :
  preserves R m -> preserves R fin -> preserves R (try_finally m fin).
Proof.
  intros Pm Pf w. unfold try_finally. specialize (Pm w).
  destruct (m w) as [r w1]. specialize (Pf w1).
  destruct (fin w1) as [[[]|e] w2]; cbn in *; eapply inv_trans; eauto.
Qed.

Lemma preserves_attempt {A} (m : M A) : preserves R m -> preserves R (attempt m).
Proof. intros Pm w. unfold attempt. specialize (Pm w). now destruct (m w). Qed.

Lemma preserves_pdmlock {A} (m : M A) : preserves R m -> preserves R (pdmlock m).
Proof. intros Pm w. unfold pdmlock. destruct (lock_busy w); [apply inv_refl | apply Pm]. Qed.

Lemma preserves_reraise {A} e : preserves R (@reraise _ A e).
Proof. unfold reraise. destruct (is_OmnipyError e); apply preserves_raise. Qed.

End Preservation.

(** The primitives that change the world keep [transports], all but the
    save. *)

Lemma transports_log w e : is_save e = false -> transports w (log e w).
Proof.
  intros N. repeat split; try (cbn; lia).
  exists [e]. split; [reflexivity | cbn; now rewrite N].
Qed.

Lemma transports_same_trace w w' :
  trace w' = trace w -> (List.length (radio_script w') <= List.length (radio_script w))%nat ->
  saved w' = saved w -> disk_ok w' = disk_ok w -> lock_busy w' = lock_busy w ->
  transports w w'.
Proof.
  intros T L S D B. repeat split; auto. exists []. now rewrite app_nil_r.
Qed.

Lemma transports_modify_pod f : preserves transports (modify_pod f).
Proof. intros w. apply transports_same_trace; reflexivity || (cbn; lia). Qed.

Lemma transports_set_nonce g : preserves transports (set_nonce g).
Proof. intros w. apply transports_same_trace; reflexivity || (cbn; lia). Qed.

Lemma transports_set_radio_messageSequence s : preserves transports (set_radio_messageSequence s).
Proof. intros w. apply transports_same_trace; reflexivity || (cbn; lia). Qed.

Lemma transports_set_radio_packetSequence s : preserves transports (set_radio_packetSequence s).
Proof. intros w. apply transports_same_trace; reflexivity || (cbn; lia). Qed.

Lemma transports_pod_handle h : preserves transports (pod_handle h).
Proof.
  intros w. apply transports_same_trace; reflexivity || (cbn; lia).
Qed.

Lemma transports_nonce_getNext : preserves transports nonce_getNext.
Proof.
  intros w. apply transports_same_trace; reflexivity || (cbn; lia).
Qed.

Lemma transports_time_sleep n : preserves transports (time_sleep n).
Proof.
  intros w. cbn. eapply inv_trans; [| apply transports_log; reflexivity].
  apply transports_same_trace; reflexivity || (cbn; lia).
Qed.

Lemma transports_nonce_sync word seq : preserves transports (nonce_sync word seq).
Proof.
  intros w. cbn. eapply inv_trans; [| apply transports_log; reflexivity].
  apply transports_same_trace; reflexivity || (cbn; lia).
Qed.

Lemma transports_radio_disconnect : preserves transports radio_disconnect.
Proof. intros w. cbn. apply transports_log; reflexivity. Qed.

Lemma transports_radio_send m sc lo hi a2 :
  preserves transports (radio_send_request_get_response m sc lo hi a2).
Proof.
  intros w. unfold radio_send_request_get_response.
  set (w1 := log _ w).
  assert (T1 : transports w w1) by (apply transports_log; reflexivity).
  change (radio_script w1) with (radio_script w).
  destruct (radio_script w) as [|step rest] eqn:Es; [exact T1|].
  eapply inv_trans; [exact T1|].
  assert (transports w1 (with_packetSequence (r_packetSequence step)
            (with_messageSequence (r_messageSequence step) (with_radio_script rest w1)))).
  { apply transports_same_trace; try reflexivity.
    cbn. rewrite Es. cbn. lia. }
  destruct (r_outcome step); assumption.
Qed.

Create HintDb preserve discriminated.

#[local] Hint Resolve preserves_ret preserves_raise preserves_liftR preserves_get_pod
  preserves_time_time preserves_pod_date preserves_get_nonce
  preserves_get_radio_messageSequence preserves_get_radio_packetSequence
  preserves_createMessage preserves_reraise
  transports_modify_pod transports_set_nonce transports_set_radio_messageSequence
  transports_set_radio_packetSequence transports_pod_handle transports_nonce_getNext
  transports_time_sleep transports_nonce_sync transports_radio_disconnect
  transports_radio_send : preserve.

(** Preservation goals follow the shape of the program. *)
Ltac preserve :=
  repeat (intros;
          match goal with
          | |- Invariant _ => typeclasses eauto
          | |- preserves _ (bind _ _) => apply preserves_bind
          | |- preserves _ (when _ _) => apply preserves_when
          | |- preserves _ (try_except _ _) => apply preserves_try_except
          | |- preserves _ (try_finally _ _) => apply preserves_try_finally
          | |- preserves _ (attempt _) => apply preserves_attempt
          | |- preserves _ (pdmlock _) => apply preserves_pdmlock
          | |- preserves _ (if ?b then _ else _) => destruct b
          | |- preserves _ (match ?x with _ => _ end) => destruct x
          | |- preserves _ _ => solve [auto with preserve typeclass_instances]
          | |- preserves extends _ => apply preserves_weaken
          end).

Lemma transports_dispatch contents request_msg :
  preserves transports (dispatch contents request_msg).
Proof.
  induction contents as [|[ctype content] rest IH]; cbn [dispatch]; preserve.
Qed.
#[local] Hint Resolve transports_dispatch : preserve.

Lemma transports_apply_nonce with_nonce message sc :
  preserves transports (apply_nonce with_nonce message sc).
Proof. unfold apply_nonce. preserve. Qed.
#[local] Hint Resolve transports_apply_nonce : preserve.

Lemma transports_interim_resync_with send :
  transporting send -> preserves transports (interim_resync_with send).
Proof. intros T. unfold interim_resync_with. preserve. Qed.

Lemma transports_sendMessage_body send :
  transporting send -> transporting (sendMessage_body send).
Proof.
  intros T m wn rc sc rq ra lo hi a2. unfold sendMessage_body.
  pose proof (transports_interim_resync_with send T).
  preserve; apply T.
Qed.

Lemma transports_sendMessage_fuel fuel : transporting (sendMessage_fuel fuel).
Proof.
  induction fuel as [|fuel IH]; cbn [sendMessage_fuel].
  - intros m wn rc sc rq ra lo hi a2. preserve.
  - apply transports_sendMessage_body, IH.
Qed.

Lemma transports_sendMessage : transporting _sendMessage.
Proof.
  intros m wn rc sc rq ra lo hi a2 w. unfold _sendMessage. apply transports_sendMessage_fuel.
Qed.

(** *** Fuel

    A call of [_sendMessage] makes one exchange before it calls itself, and
    the script only gets shorter: with more fuel than the script has steps
    the bound is never met, and the result does not depend on it. *)

Lemma short_transports k w w' : short k w -> transports w w' -> short k w'.
Proof. unfold short. intros S (_ & L & _). lia. Qed.

Lemma agree_refl P {A} (m : M A) : agree P m m.
Proof. intros w _. reflexivity. Qed.

Lemma agree_bind k {A B} (m1 m2 : M A) (k1 k2 : A -> M B) :
  agree (short k) m1 m2 -> preserves transports m1 ->
  (forall a, agree (short k) (k1 a) (k2 a)) ->
  agree (short k) (bind m1 k1) (bind m2 k2).
Proof.
  intros Hm Pm Hk w Sw. unfold bind. rewrite <- (Hm w Sw).
  destruct (m1 w) as [[a|e] w1] eqn:E; [|reflexivity].
  apply Hk. eapply short_transports; [exact Sw|]. eapply preserves_run; eauto.
Qed.

Lemma agree_weaken k {A} (m1 m2 : M A) : agree (short (S k)) m1 m2 -> agree (short k) m1 m2.
Proof. intros H w Sw. apply H. unfold short in *. lia. Qed.

Lemma agree_after_exchange k {A} m sc lo hi a2 (k1 k2 : Result (list (Z * bytes)) -> M A) :
  (forall r, agree (short k) (k1 r) (k2 r)) ->
  (forall w, k1 (Raise (OmnipyError "no response")) w
             = k2 (Raise (OmnipyError "no response")) w) ->
  agree (short (S k))
    (bind (attempt (radio_send_request_get_response m sc lo hi a2)) k1)
    (bind (attempt (radio_send_request_get_response m sc lo hi a2)) k2).
Proof.
  intros Hk Hn w Sw. unfold bind, attempt, radio_send_request_get_response.
  change (radio_script (log (ESend m sc lo hi a2) w)) with (radio_script w).
  unfold short in Sw.
  destruct (radio_script w) as [|step rest] eqn:Es.
  - apply Hn.
  - cbn in Sw. destruct (r_outcome step); apply Hk; unfold short; cbn; lia.
Qed.

Lemma sendMessage_body_agreeing k s1 s2 :
  transporting s1 -> agreeing k s1 s2 ->
  agreeing (S k) (sendMessage_body s1) (sendMessage_body s2).
Proof.
  intros T H m wn rc sc rq ra lo hi a2. unfold sendMessage_body.
  apply agree_bind; [apply agree_refl | auto with preserve |]. intros ms.
  apply agree_after_exchange.
  - intros [contents|e].
    + apply agree_bind; [apply agree_refl | auto with preserve |].
      intros [rest|]; [|apply agree_refl].
      apply agree_bind; [apply agree_refl | preserve |]. intros _.
      apply agree_bind; [apply agree_refl | preserve |]. intros word.
      apply agree_bind; [apply agree_refl | preserve |]. intros _.
      apply agree_bind; [apply agree_refl | preserve |]. intros _.
      apply H.
    + destruct e; try apply agree_refl.
      destruct ra; [|apply agree_refl].
      apply agree_bind.
      * unfold interim_resync_with.
        apply agree_bind; [apply agree_refl | preserve |]. intros _.
        apply agree_bind; [apply agree_refl | preserve |]. intros body.
        apply agree_bind; [apply agree_refl | preserve |]. intros msg.
        apply agree_bind; [apply H | apply T |]. intros _.
        apply agree_refl.
      * apply transports_interim_resync_with, T.
      * intros _. apply H.
  - reflexivity.
Qed.

Lemma sendMessage_body_agreeing_0 s1 s2 :
  agreeing 0 (sendMessage_body s1) (sendMessage_body s2).
Proof.
  intros m wn rc sc rq ra lo hi a2. unfold sendMessage_body.
  intros w Sw. unfold short in Sw.
  assert (Es : radio_script w = []) by (destruct (radio_script w); [reflexivity | cbn in Sw; lia]).
  unfold bind. destruct (apply_nonce wn m sc w) as [[ms|e] w0] eqn:E0; [|reflexivity].
  assert (Es0 : radio_script w0 = []).
  { pose proof (preserves_run _ _ _ _ _ (transports_apply_nonce wn m sc) E0) as (_ & L & _).
    rewrite Es in L. destruct (radio_script w0); [reflexivity | cbn in L; lia]. }
  unfold attempt, radio_send_request_get_response.
  change (radio_script (log ?e w0)) with (radio_script w0). rewrite Es0. reflexivity.
Qed.

Lemma sendMessage_fuel_agreeing k n1 n2 :
  (k < n1)%nat -> (k < n2)%nat -> agreeing k (sendMessage_fuel n1) (sendMessage_fuel n2).
Proof.
  revert n1 n2. induction k as [|k IH]; intros n1 n2 L1 L2;
    (destruct n1 as [|n1]; [lia|]); (destruct n2 as [|n2]; [lia|]); cbn [sendMessage_fuel].
  - apply sendMessage_body_agreeing_0.
  - apply sendMessage_body_agreeing.
    + apply transports_sendMessage_fuel.
    + apply IH; lia.
Qed.

(** With fuel beyond the length of the script, [sendMessage_fuel] is
    [_sendMessage]. *)
Lemma sendMessage_fuel_enough fuel m wn rc sc rq ra lo hi a2 w :
  (List.length (radio_script w) < fuel)%nat ->
  sendMessage_fuel fuel m wn rc sc rq ra lo hi a2 w = _sendMessage m wn rc sc rq ra lo hi a2 w.
Proof.
  intros L. unfold _sendMessage.
  apply (sendMessage_fuel_agreeing (List.length (radio_script w))); unfold short; lia.
Qed.

(** [_sendMessage] satisfies the equation of the source: its body, calling
    itself. *)
Lemma sendMessage_unfold m wn rc sc rq ra lo hi a2 w :
  _sendMessage m wn rc sc rq ra lo hi a2 w
  = sendMessage_body _sendMessage m wn rc sc rq ra lo hi a2 w.
Proof.
  unfold _sendMessage at 1. cbn [sendMessage_fuel].
  destruct (List.length (radio_script w)) as [|k] eqn:El.
  - apply sendMessage_body_agreeing_0. unfold short. lia.
  - apply (sendMessage_body_agreeing k).
    + apply transports_sendMessage_fuel.
    + intros m' wn' rc' sc' rq' ra' lo' hi' a2' w' Sw'.
      apply sendMessage_fuel_enough. unfold short in Sw'. lia.
    + unfold short. lia.
Qed.

Lemma transports_interim_resync : preserves transports _interim_resync.
Proof. apply transports_interim_resync_with, transports_sendMessage. Qed.

Lemma interim_resync_eq w :
  _interim_resync w
  = (time_sleep 15 ;;
     msg <- _createMessage 0x0e [0] ;;
     _sendMessage msg false 0 true (Some (REQ_STATUS 0)) true false true None ;;
     time_sleep 5) w.
Proof. reflexivity. Qed.

#[local] Hint Resolve transports_sendMessage transports_interim_resync : preserve.

(** *** What a send puts on the trace *)

Lemma apply_nonce_true message sc w :
  apply_nonce true message sc w
  = (Ok (setNonce (fst (getNext (nonce w))) message,
         if fst (getNext (nonce w)) =? FAKE_NONCE then true else sc),
     with_nonce (snd (getNext (nonce w))) w).
Proof. reflexivity. Qed.

Lemma apply_nonce_Ok wn message sc w :
  exists message' sc' w0,
    apply_nonce wn message sc w = (Ok (message', sc'), w0) /\
    trace w0 = trace w /\ commands message' = commands message /\
    sequence message' = sequence message /\ setNonce 0 message' = setNonce 0 message.
Proof.
  destruct wn.
  - rewrite apply_nonce_true. eexists _, _, _. split; [reflexivity|]. cbn. auto.
  - cbn. eexists _, _, _. split; [reflexivity|]. auto.
Qed.

Lemma radio_send_trace m sc lo hi a2 w r w1 :
  radio_send_request_get_response m sc lo hi a2 w = (r, w1) ->
  trace w1 = trace w ++ [ESend m sc lo hi a2].
Proof.
  unfold radio_send_request_get_response.
  change (radio_script (log (ESend m sc lo hi a2) w)) with (radio_script w).
  destruct (radio_script w) as [|step rest].
  - intros H; inversion H; reflexivity.
  - destruct (r_outcome step); intros H; inversion H; reflexivity.
Qed.

(** The first thing a call of [_sendMessage] does to the outside is to send
    the message it was given, with the nonce in it. *)
Lemma sendMessage_first_event m wn rc sc rq ra lo hi a2 w r w' :
  _sendMessage m wn rc sc rq ra lo hi a2 w = (r, w') ->
  exists m' sc' w0 t,
    apply_nonce wn m sc w = (Ok (m', sc'), w0) /\
    trace w' = trace w ++ ESend m' sc' lo hi a2 :: t.
Proof.
  rewrite sendMessage_unfold. unfold sendMessage_body.
  destruct (apply_nonce_Ok wn m sc w) as (m' & sc' & w0 & E0 & T0 & _).
  rewrite (bind_eq _ _ _ _ _ E0). cbn [fst snd].
  unfold bind at 1, attempt.
  destruct (radio_send_request_get_response m' sc' lo hi a2 w0) as [r1 w1] eqn:E1.
  apply radio_send_trace in E1. intros H.
  match type of H with
  | ?k w1 = _ => assert (P : preserves transports k) by preserve
  end.
  apply (preserves_run _ _ _ _ _ P) in H. destruct H as ((t & Ht & _) & _).
  exists m', sc', w0, t. split; [exact E0|].
  rewrite Ht, E1, T0, <- app_assoc. reflexivity.
Qed.

Lemma interim_resync_trace w r w' :
  _interim_resync w = (r, w') ->
  exists t,
    trace w' = trace w ++ ESleep 15 :: ESend (status_probe w) true false true None :: t /\
    (r = Ok tt -> exists t', t = t' ++ [ESleep 5]).
Proof.
  unfold _interim_resync, interim_resync_with.
  unfold bind at 1. cbn [time_sleep].
  set (w1 := log (ESleep 15) _).
  unfold bind at 1. cbn [liftR bytes_of forallb is_byte Z.leb Z.ltb Z.compare andb].
  unfold bind at 1. cbn [_createMessage].
  unfold bind at 1.
  destruct (_sendMessage _ false 0 true (Some (REQ_STATUS 0)) true false true None w1)
    as [r1 w2] eqn:E.
  apply sendMessage_first_event in E. destruct E as (m' & sc' & w0 & t & E0 & Ht).
  cbn in E0. inversion E0; subst m' sc' w0; clear E0.
  destruct r1 as [[]|e]; intros H; inversion H; subst; clear H.
  - exists (t ++ [ESleep 5]). split; [|eauto].
    cbn. rewrite Ht. cbn. rewrite <- !app_assoc. reflexivity.
  - exists t. split; [|discriminate].
    rewrite Ht. cbn. rewrite <- !app_assoc. reflexivity.
Qed.

(** C4.  When the radio exchange of [_sendMessage] raises
    TransmissionOutOfSyncError: with resync not allowed the error goes to
    the caller at once; with resync allowed there is one interim resync
    (sleep 15 s, a status request 0x0e with body 00 sent with stay_connected
    and high_tx, sleep 5 s) and then the message is sent again with
    resync_allowed false, so that a second TransmissionOutOfSyncError on it
    goes to the caller. *)
Theorem out_of_sync_resync
    (message : Message) (with_nonce : bool) (nonce_retry_count : Z) (stay_connected : bool)
    (request_msg : option RequestMsg) (low_tx high_tx : bool) (address2 : option Z)
    (w w0 w1 : World) (message' : Message) (stay_connected' : bool) :
  apply_nonce with_nonce message stay_connected w = (Ok (message', stay_connected'), w0) ->
  radio_send_request_get_response message' stay_connected' low_tx high_tx address2 w0
    = (Raise TransmissionOutOfSyncError, w1) ->
  _sendMessage message with_nonce nonce_retry_count stay_connected request_msg
      false low_tx high_tx address2 w
    = (Raise TransmissionOutOfSyncError, w1)
  /\
  _sendMessage message with_nonce nonce_retry_count stay_connected request_msg
      true low_tx high_tx address2 w
    = (_interim_resync ;;
       _sendMessage message' with_nonce nonce_retry_count stay_connected request_msg
         false low_tx high_tx address2) w1
  /\
  (forall r w2,
     _interim_resync w1 = (r, w2) ->
     exists t,
       trace w2 = trace w1 ++ ESleep 15 :: ESend (status_probe w1) true false true None :: t /\
       (r = Ok tt -> exists t', t = t' ++ [ESleep 5]))
  /\
  (forall w2 w3 w4 message'' stay_connected'',
     _interim_resync w1 = (Ok tt, w2) ->
     apply_nonce with_nonce message' stay_connected w2 = (Ok (message'', stay_connected''), w3) ->
     radio_send_request_get_response message'' stay_connected'' low_tx high_tx address2 w3
       = (Raise TransmissionOutOfSyncError, w4) ->
     _sendMessage message with_nonce nonce_retry_count stay_connected request_msg
         true low_tx high_tx address2 w
       = (Raise TransmissionOutOfSyncError, w4)).
Proof.
  intros E0 E1.
  assert (Step : forall ra m wn sc u u0 u1 m' sc',
             apply_nonce wn m sc u = (Ok (m', sc'), u0) ->
             radio_send_request_get_response m' sc' low_tx high_tx address2 u0
               = (Raise TransmissionOutOfSyncError, u1) ->
             _sendMessage m wn nonce_retry_count sc request_msg ra low_tx high_tx address2 u
             = (if ra
                then interim_resync_with _sendMessage ;;
                     _sendMessage m' wn nonce_retry_count sc request_msg
                       false low_tx high_tx address2
                else raise TransmissionOutOfSyncError) u1).
  { intros ra m wn sc u u0 u1 m' sc' A B.
    rewrite sendMessage_unfold. unfold sendMessage_body.
    rewrite (bind_eq _ _ _ _ _ A). cbn [fst snd].
    unfold bind at 1, attempt. rewrite B. reflexivity. }
  split; [exact (Step false _ _ _ _ _ _ _ _ E0 E1)|].
  split; [exact (Step true _ _ _ _ _ _ _ _ E0 E1)|].
  split; [intros r w2; apply interim_resync_trace|].
  intros w2 w3 w4 message'' stay_connected'' R A B.
  rewrite (Step true _ _ _ _ _ _ _ _ E0 E1).
  fold _interim_resync. rewrite (bind_eq _ _ _ _ _ R).
  exact (Step false _ _ _ _ _ _ _ _ A B).
Qed.

(** *** Bad nonce *)

Lemma dispatch_app pre l request_msg w :
  dispatch (pre ++ l) request_msg w
  = (r <- dispatch pre request_msg ;;
     match r with
     | None => dispatch l request_msg
     | Some rest => ret (Some rest)
     end) w.
Proof.
  revert w. induction pre as [|[ctype content] pre IH]; intros w; [reflexivity|].
  cbn [app dispatch]. unfold bind.
  destruct (when (ctype =? 1) _ w) as [[u|e] w1]; [|reflexivity].
  destruct (ctype =? 29).
  { destruct (pod_handle _ w1) as [[u1|e] w2]; [rewrite IH | ]; reflexivity. }
  destruct (ctype =? 2).
  { destruct (pod_handle _ w1) as [[u1|e] w2]; [rewrite IH | ]; reflexivity. }
  destruct (ctype =? 6); [|rewrite IH; reflexivity].
  destruct content as [|c0 tl]; [reflexivity|].
  destruct (c0 =? 20); [|rewrite IH]; reflexivity.
Qed.

Lemma dispatch_bad_nonce pre post hb lb request_msg w1 w2 :
  dispatch pre request_msg w1 = (Ok None, w2) ->
  dispatch (pre ++ (0x06, [0x14; hb; lb]) :: post) request_msg w1 = (Ok (Some [hb; lb]), w2).
Proof. intros H. rewrite dispatch_app, (bind_eq _ _ _ _ _ H). reflexivity. Qed.

Lemma bad_nonce_step message retry sc req ra lo hi a2 w w0 w1 w2 message' sc' pre post hb lb :
  apply_nonce true message sc w = (Ok (message', sc'), w0) ->
  radio_send_request_get_response message' sc' lo hi a2 w0
    = (Ok (pre ++ (0x06, [0x14; hb; lb]) :: post), w1) ->
  dispatch pre req w1 = (Ok None, w2) ->
  _sendMessage message true retry sc req ra lo hi a2 w
  = (if retry >? 3
     then (Raise (PdmError "Nonce re-negotiation failed"), w2)
     else _sendMessage message' true (retry + 1) sc req true false false None
            (resynced (hb * 256 + lb) (sequence message) w2)).
Proof.
  intros E0 E1 E2.
  rewrite sendMessage_unfold. unfold sendMessage_body.
  rewrite (bind_eq _ _ _ _ _ E0). cbn [fst snd].
  unfold bind at 1, attempt. rewrite E1.
  rewrite (bind_eq _ _ _ _ _ (dispatch_bad_nonce _ _ _ _ _ _ _ E2)).
  rewrite apply_nonce_true in E0. inversion E0; subst; clear E0.
  destruct (retry =? 0) eqn:Z0.
  - assert ((retry >? 3) = false) as -> by lia. reflexivity.
  - destruct (retry >? 3); reflexivity.
Qed.

Lemma radio_send_step m sc lo hi a2 w step rest :
  radio_script w = step :: rest ->
  radio_send_request_get_response m sc lo hi a2 w
  = (match r_outcome step with
     | Responds contents => Ok contents
     | Fails e => Raise e
     end,
     with_packetSequence (r_packetSequence step)
       (with_messageSequence (r_messageSequence step)
          (with_radio_script rest (log (ESend m sc lo hi a2) w)))).
Proof.
  intros Es. unfold radio_send_request_get_response.
  change (radio_script (log (ESend m sc lo hi a2) w)) with (radio_script w). rewrite Es.
  destruct (r_outcome step); reflexivity.
Qed.

Lemma bad_nonce_run n :
  forall message retry sc req ra lo hi a2 w bads rest,
    radio_script w = bads ++ rest ->
    List.length bads = S n ->
    Forall bad_nonce_reply bads ->
    retry + Z.of_nat n = 4 ->
    exists w' t,
      _sendMessage message true retry sc req ra lo hi a2 w
        = (Raise (PdmError "Nonce re-negotiation failed"), w') /\
      radio_script w' = rest /\
      trace w' = trace w ++ t /\
      count is_send t = S n /\ count is_sync t = n.
Proof.
  induction n as [|n IH]; intros message retry sc req ra lo hi a2 w bads rest Es Lb Fb Hr;
    destruct bads as [|b bads]; try discriminate;
    inversion Fb as [|? ? (hb & lb & Hb) Fb']; subst;
    pose proof (apply_nonce_true message sc w) as E0;
    pose proof (radio_send_step (setNonce (fst (getNext (nonce w))) message)
                  (if fst (getNext (nonce w)) =? FAKE_NONCE then true else sc) lo hi a2
                  (with_nonce (snd (getNext (nonce w))) w) b (bads ++ rest) Es) as E1;
    rewrite Hb in E1;
    rewrite (bad_nonce_step _ _ _ _ _ _ _ _ _ _ _ _ _ _ [] [] hb lb E0 E1 eq_refl).
  - destruct bads; [|discriminate].
    assert ((retry >? 3) = true) as -> by lia.
    eexists _, _. split; [reflexivity|]. split; [reflexivity|].
    split; [reflexivity|]. split; reflexivity.
  - assert ((retry >? 3) = false) as -> by lia.
    match goal with
    | |- exists _ _, _sendMessage ?m _ _ _ _ _ _ _ _ ?W = _ /\ _ =>
        destruct (IH m (retry + 1) sc req true false false None W bads rest)
          as (w' & t & R & S' & T & C1 & C2)
    end.
    + reflexivity.
    + cbn in Lb. lia.
    + exact Fb'.
    + lia.
    + rewrite R. eexists _, _. split; [reflexivity|]. split; [exact S'|].
      rewrite T. cbn [trace resynced with_messageSequence log with_nonce with_packetSequence
                        with_radio_script].
      rewrite <- !app_assoc. split; [reflexivity|].
      cbn. unfold count in *. rewrite C1, C2. split; reflexivity.
Qed.

(** C3.  A response to a nonce-bearing send that carries the error command
    0x06 with first body byte 0x14: [_sendMessage] reads the big-endian
    16-bit sync word at body bytes 1 and 2, calls [nonce.sync] with it and
    the sequence of the message, sets the message sequence of the radio back
    to that of the message, and sends the same message again with a fresh
    nonce and the retry count one higher; with a retry count above 3 it
    raises PdmError("Nonce re-negotiation failed") instead, which is the fifth
    bad-nonce reply in a row. *)
Theorem bad_nonce_renegotiation :
  (forall message retry sc req ra lo hi a2 w w0 w1 w2 message' sc' pre post hb lb,
     apply_nonce true message sc w = (Ok (message', sc'), w0) ->
     radio_send_request_get_response message' sc' lo hi a2 w0
       = (Ok (pre ++ (0x06, [0x14; hb; lb]) :: post), w1) ->
     dispatch pre req w1 = (Ok None, w2) ->
     let w3 := resynced (u16_be [hb; lb]) (sequence message) w2 in
     (retry > 3 ->
      _sendMessage message true retry sc req ra lo hi a2 w
        = (Raise (PdmError "Nonce re-negotiation failed"), w2)) /\
     (retry <= 3 ->
      _sendMessage message true retry sc req ra lo hi a2 w
        = _sendMessage message' true (retry + 1) sc req true false false None w3) /\
     (forall r w',
        _sendMessage message' true (retry + 1) sc req true false false None w3 = (r, w') ->
        exists t,
          trace w' = trace w3
                     ++ ESend (setNonce (fst (getNext (nonce w3))) message)
                          (if fst (getNext (nonce w3)) =? FAKE_NONCE then true else sc)
                          false false None :: t)) /\
  (forall message sc req ra lo hi a2 w b1 b2 b3 b4 b5 rest,
     radio_script w = b1 :: b2 :: b3 :: b4 :: b5 :: rest ->
     Forall bad_nonce_reply [b1; b2; b3; b4; b5] ->
     exists w' t,
       _sendMessage message true 0 sc req ra lo hi a2 w
         = (Raise (PdmError "Nonce re-negotiation failed"), w') /\
       radio_script w' = rest /\
       trace w' = trace w ++ t /\
       count is_send t = 5%nat /\ count is_sync t = 4%nat).
Proof.
  split.
  - intros message retry sc req ra lo hi a2 w w0 w1 w2 message' sc' pre post hb lb E0 E1 E2 w3.
    pose proof (bad_nonce_step message retry sc req ra lo hi a2 _ _ _ _ _ _ _ _ _ _ E0 E1 E2)
      as Step.
    split; [|split].
    + intros Hr. rewrite Step. assert ((retry >? 3) = true) as -> by lia. reflexivity.
    + intros Hr. rewrite Step. assert ((retry >? 3) = false) as -> by lia. reflexivity.
    + intros r w' R. apply sendMessage_first_event in R.
      destruct R as (m' & sc'' & w0' & t & A & T).
      rewrite apply_nonce_true in A, E0. inversion A; inversion E0; subst. clear A E0.
      exists t. exact T.
  - intros message sc req ra lo hi a2 w b1 b2 b3 b4 b5 rest Es Fb.
    apply (bad_nonce_run 4 message 0 sc req ra lo hi a2 w [b1; b2; b3; b4; b5] rest);
      auto.
Qed.

(** *** The private methods keep [transports], the public ones [extends] *)

Lemma transports_update_status t sc : preserves transports (_update_status t sc).
Proof. unfold _update_status. preserve. Qed.
#[local] Hint Resolve transports_update_status : preserve.

Lemma transports_acknowledge_alerts mask : preserves transports (_acknowledge_alerts mask).
Proof. unfold _acknowledge_alerts. preserve. Qed.

Lemma transports_is_bolus_running : preserves transports _is_bolus_running.
Proof. unfold _is_bolus_running. preserve. Qed.

Lemma transports_is_temp_basal_active : preserves transports _is_temp_basal_active.
Proof. unfold _is_temp_basal_active. preserve. Qed.
#[local] Hint Resolve transports_acknowledge_alerts transports_is_bolus_running
  transports_is_temp_basal_active : preserve.

Lemma transports_assert_pod_address_assigned : preserves transports _assert_pod_address_assigned.
Proof. unfold _assert_pod_address_assigned. preserve. Qed.

Lemma transports_assert_can_generate_nonce : preserves transports _assert_can_generate_nonce.
Proof. unfold _assert_can_generate_nonce. preserve. Qed.

Lemma transports_assert_immediate_bolus_not_active :
  preserves transports _assert_immediate_bolus_not_active.
Proof. unfold _assert_immediate_bolus_not_active. preserve. Qed.

Lemma transports_assert_not_faulted : preserves transports _assert_not_faulted.
Proof. unfold _assert_not_faulted. preserve. Qed.

Lemma transports_assert_status_running : preserves transports _assert_status_running.
Proof. unfold _assert_status_running. preserve. Qed.
#[local] Hint Resolve transports_assert_pod_address_assigned
  transports_assert_can_generate_nonce transports_assert_immediate_bolus_not_active
  transports_assert_not_faulted transports_assert_status_running : preserve.

Lemma transports_setTempBasal_guards : preserves transports setTempBasal_guards.
Proof. unfold setTempBasal_guards. preserve. Qed.

Lemma transports_immediate_bolus pc ps r d rq sc :
  preserves transports (_immediate_bolus pc ps r d rq sc).
Proof. unfold _immediate_bolus. preserve. Qed.

Lemma transports_cancelActivity a b c d : preserves transports (_cancelActivity a b c d).
Proof. unfold _cancelActivity. preserve. Qed.

Lemma transports_setTempBasal_program rate hours hh c :
  preserves transports (setTempBasal_program rate hours hh c).
Proof. unfold setTempBasal_program. preserve. Qed.
#[local] Hint Resolve transports_setTempBasal_guards transports_immediate_bolus
  transports_cancelActivity transports_setTempBasal_program : preserve.

Lemma extends_pod_Save : preserves extends pod_Save.
Proof.
  intros w. unfold pod_Save. destruct (disk_ok w); cbn; eexists; reflexivity.
Qed.
#[local] Hint Resolve extends_pod_Save : preserve.

Lemma extends_savePod : preserves extends _savePod.
Proof. unfold _savePod. preserve. Qed.
#[local] Hint Resolve extends_savePod : preserve.

Lemma extends_pdm_command {A} (body : M A) :
  preserves extends body -> preserves extends (pdm_command body).
Proof. intros P. unfold pdm_command. preserve. Qed.

Lemma extends_cancelTempBasal beep : preserves extends (cancelTempBasal beep).
Proof. unfold cancelTempBasal. apply extends_pdm_command. preserve. Qed.
#[local] Hint Resolve extends_cancelTempBasal : preserve.

(** *** What a command that returns has sent *)

Lemma sends_during_before w w1 w' cmds :
  extends w w1 -> sends_during w1 w' cmds -> sends_during w w' cmds.
Proof.
  intros [t Ht] (b & a & m & sc & lo & hi & a2 & T & C).
  exists (t ++ b), a, m, sc, lo, hi, a2. split; [|exact C].
  rewrite T, Ht, <- !app_assoc. reflexivity.
Qed.

Lemma sends_during_after w w1 w' cmds :
  sends_during w w1 cmds -> extends w1 w' -> sends_during w w' cmds.
Proof.
  intros (b & a & m & sc & lo & hi & a2 & T & C) [t Ht].
  exists b, (a ++ t), m, sc, lo, hi, a2. split; [|exact C].
  rewrite Ht, T, <- !app_assoc. reflexivity.
Qed.

Lemma emits_bind_l {A B} (m : M A) (k : A -> M B) P :
  emits m P -> (forall a, preserves extends (k a)) -> emits (bind m k) P.
Proof.
  intros Em Pk w b w' H. apply bind_Ok in H as (a & w1 & H1 & H2).
  destruct (Em _ _ _ H1) as (cmds & Pc & S). exists cmds. split; [exact Pc|].
  eapply sends_during_after; [exact S|]. eapply preserves_run; [apply Pk | exact H2].
Qed.

Lemma emits_bind_r {A B} (m : M A) (k : A -> M B) P :
  preserves extends m -> (forall a, emits (k a) P) -> emits (bind m k) P.
Proof.
  intros Pm Ek w b w' H. apply bind_Ok in H as (a & w1 & H1 & H2).
  destruct (Ek _ _ _ _ H2) as (cmds & Pc & S). exists cmds. split; [exact Pc|].
  eapply sends_during_before; [|exact S]. eapply preserves_run; [apply Pm | exact H1].
Qed.

Lemma emits_unless {B} b e (k : M B) P :
  (b = false -> emits k P) -> emits (when b (raise e) ;; k) P.
Proof.
  intros Ek w x w' H. apply bind_Ok in H as (a & w1 & H1 & H2).
  apply when_raise_Ok in H1 as [-> ->]. apply (Ek eq_refl _ _ _ H2).
Qed.

Lemma emits_liftR {A B} (r : Result A) (k : A -> M B) P :
  (forall a, r = Ok a -> emits (k a) P) -> emits (bind (liftR r) k) P.
Proof.
  intros Ek w x w' H. apply bind_Ok in H as (a & w1 & H1 & H2).
  apply liftR_Ok in H1 as [-> ->]. apply (Ek _ eq_refl _ _ _ H2).
Qed.

Lemma emits_pdmlock {A} (m : M A) P : emits m P -> emits (pdmlock m) P.
Proof. intros Em w a w' H. apply pdmlock_Ok in H as [_ H]. eauto. Qed.

Lemma emits_pdm_command {A} (body : M A) P : emits body P -> emits (pdm_command body) P.
Proof.
  intros Eb w a w' H. apply pdm_command_Ok in H as (w1 & H1 & H2).
  destruct (Eb _ _ _ H1) as (cmds & Pc & S). exists cmds. split; [exact Pc|].
  eapply sends_during_after; [exact S|].
  eapply (preserves_run extends); [|exact H2]. preserve.
Qed.

Lemma emits_sendMessage m wn rc sc rq ra lo hi a2 :
  emits (_sendMessage m wn rc sc rq ra lo hi a2) (fun cmds => cmds = commands m).
Proof.
  intros w a w' H. apply sendMessage_first_event in H.
  destruct H as (m' & sc' & w0 & t & E0 & T).
  destruct (apply_nonce_Ok wn m sc w) as (m1 & sc1 & w1 & E1 & _ & C & _).
  rewrite E1 in E0. inversion E0; subst.
  exists (commands m). split; [reflexivity|].
  exists [], t, m', sc', lo, hi, a2. split; [exact T | exact C].
Qed.

Lemma emits_createMessage {B} t b (k : Message -> M B) P :
  (forall msg, commands msg = [(t, b)] -> emits (k msg) P) ->
  emits (bind (_createMessage t b) k) P.
Proof.
  intros Ek w x w' H. apply bind_Ok in H as (msg & w1 & H1 & H2).
  unfold _createMessage in H1. inversion H1; subst.
  refine (Ek _ _ _ _ _ H2). reflexivity.
Qed.

Lemma emits_weaken {A} (m : M A) (P Q : list (Z * bytes) -> Prop) :
  emits m P -> (forall cmds, P cmds -> Q cmds) -> emits m Q.
Proof. intros Em PQ w a w' H. destruct (Em _ _ _ H) as (c & Pc & S). eauto. Qed.

(** [_immediate_bolus] sends the two bodies of the encoder as commands 0x1a
    and 0x17 of one message. *)
Lemma emits_immediate_bolus pc ps r d rq sc :
  emits (_immediate_bolus pc ps r d rq sc)
    (fun cmds => exists outer inner,
         immediate_bolus_bodies pc ps r d = Ok (outer, inner) /\
         cmds = [(0x1a, outer); (0x17, inner)]).
Proof.
  unfold _immediate_bolus. apply emits_liftR. intros [outer inner] E.
  apply emits_createMessage. intros msg C.
  apply emits_bind_l; [|preserve].
  eapply emits_weaken; [apply emits_sendMessage|].
  cbn. rewrite C. intros cmds ->. eauto.
Qed.

(** A bolus that returns has sent the immediate-bolus message for
    [int(amount * 20)] pulses, and that count passed the two tests of
    [bolus]. *)
Lemma emits_bolus a :
  emits (bolus a)
    (fun cmds =>
       let pulseCount := dec_int (dec_mul a (Decimal_of_Z 20)) in
       pulseCount <> 0 /\ pulseCount * 16 <= 0x3840 /\
       exists outer inner,
         immediate_bolus_bodies pulseCount 16 0 2 = Ok (outer, inner) /\
         cmds = [(0x1a, outer); (0x17, inner)]).
Proof.
  unfold bolus. apply emits_pdm_command, emits_pdmlock.
  do 6 (apply emits_bind_r; [preserve|]; intros ?).
  apply emits_unless; intros _. cbv zeta.
  apply emits_unless; intros Hz.
  apply emits_unless; intros Hs.
  apply emits_bind_r; [preserve|]; intros running.
  apply emits_unless; intros _.
  apply emits_bind_r; [preserve|]; intros p.
  apply emits_unless; intros _.
  apply emits_bind_l; [|preserve].
  eapply emits_weaken; [apply emits_immediate_bolus|].
  cbn beta. intros cmds (outer & inner & E & ->).
  split; [lia|]. split; [lia|]. eauto.
Qed.

(** *** Pulse counts *)

Lemma pow10_pos n : 0 < pow10 n.
Proof. unfold pow10. apply Z.pow_pos_nonneg; lia. Qed.

(** *** Rounding by the decimal context *)

Lemma digits_fuel_spec fuel : forall n,
  0 < n < 2 ^ Z.of_nat fuel ->
  (1 <= digits_fuel fuel n)%nat /\
  10 ^ (Z.of_nat (digits_fuel fuel n) - 1) <= n < 10 ^ Z.of_nat (digits_fuel fuel n).
Proof.
  induction fuel as [|fuel IH]; intros n H.
  - cbn in H. lia.
  - cbn [digits_fuel]. destruct (n <? 10) eqn:E.
    + apply Z.ltb_lt in E. cbn. lia.
    + apply Z.ltb_ge in E.
      assert (B : 0 < n / 10 < 2 ^ Z.of_nat fuel).
      { split; [apply Z.div_str_pos; lia|].
        apply Z.div_lt_upper_bound; [lia|].
        rewrite Nat2Z.inj_succ, Z.pow_succ_r in H by lia. lia. }
      destruct (IH _ B) as (D & Lo & Hi).
      set (d := digits_fuel fuel (n / 10)) in *.
      split; [lia|].
      rewrite Nat2Z.inj_succ.
      replace (Z.succ (Z.of_nat d) - 1) with (Z.succ (Z.of_nat d - 1)) by lia.
      rewrite !Z.pow_succ_r by lia.
      pose proof (Z.div_mod n 10 ltac:(lia)) as DM.
      pose proof (Z.mod_pos_bound n 10 ltac:(lia)).
      lia.
Qed.

Lemma digits_spec n :
  0 < n ->
  1 <= Z.of_nat (digits n) /\
  10 ^ (Z.of_nat (digits n) - 1) <= n < 10 ^ Z.of_nat (digits n).
Proof.
  intros H. unfold digits.
  destruct (digits_fuel_spec (S (Z.to_nat (Z.log2 n))) n) as (D & B).
  - split; [exact H|]. rewrite Nat2Z.inj_succ, Z2Nat.id by apply Z.log2_nonneg.
    apply Z.log2_spec, H.
  - split; [lia | exact B].
Qed.

Lemma div_half_even_ge c d i : 0 < d -> i * d <= c -> i <= div_half_even c d.
Proof.
  intros D H. unfold div_half_even. cbv zeta.
  assert (Q : i <= c / d) by (apply Z.div_le_lower_bound; lia).
  destruct (2 * (c mod d) ?= d); try destruct (Z.even (c / d)); lia.
Qed.

Lemma div_half_even_le c d i : 0 < d -> c <= i * d -> div_half_even c d <= i.
Proof.
  intros D H. unfold div_half_even. cbv zeta.
  pose proof (Z.div_mod c d ltac:(lia)) as DM.
  pose proof (Z.mod_pos_bound c d D) as MB.
  assert (Q : c / d <= i).
  { apply Z.lt_succ_r. apply Z.div_lt_upper_bound; [lia|]. nia. }
  assert (R : c / d = i -> c mod d = 0) by nia.
  destruct (2 * (c mod d) ?= d) eqn:C.
  - apply Z.compare_eq_iff in C. destruct (Z.even (c / d)); lia.
  - lia.
  - apply Z.compare_gt_iff in C. lia.
Qed.

(** A coefficient of at most 28 digits, above the subnormal range, is left
    as it is. *)
Lemma dec_fix_small c places :
  Z.abs c < 10 ^ 28 -> Z.of_nat places <= 1000026 -> dec_fix c places = mkDecimal c places.
Proof.
  intros C P. unfold dec_fix. destruct (c =? 0) eqn:Z0.
  - apply Z.eqb_eq in Z0. subst. reflexivity.
  - apply Z.eqb_neq in Z0. cbv zeta.
    destruct (digits_spec (Z.abs c) ltac:(lia)) as (D1 & Lo & _).
    assert (N : Z.of_nat (digits (Z.abs c)) <= 28).
    { destruct (Z.le_gt_cases (Z.of_nat (digits (Z.abs c))) 28) as [L|G]; [exact L|].
      exfalso.
      assert (10 ^ 28 <= 10 ^ (Z.of_nat (digits (Z.abs c)) - 1))
        by (apply Z.pow_le_mono_r; lia).
      lia. }
    unfold Etiny.
    destruct (- Z.of_nat places <? Z.max (Z.of_nat (digits (Z.abs c)) - Z.of_nat places - 28)
                                     (-1000026)) eqn:E; [|reflexivity].
    apply Z.ltb_lt in E. lia.
Qed.

Lemma dec_int_decimal_at c e :
  dec_int (decimal_at c e)
  = if 0 <=? e then c * 10 ^ e else Z.quot c (10 ^ (- e)).
Proof.
  unfold decimal_at, dec_int. destruct (0 <=? e) eqn:E; cbn [d_coef d_places].
  - unfold pow10. cbn. apply Z.quot_1_r.
  - apply Z.leb_gt in E. unfold pow10. rewrite Z2Nat.id by lia. reflexivity.
Qed.

(** Rounding to 28 digits does not pass an integer of at most 28 digits:
    a value at or above it stays at or above it, a value at or below it
    stays at or below it. *)
Lemma dec_int_fix_ge c places m :
  0 <= m < 10 ^ 28 -> m * pow10 places <= c -> m <= dec_int (dec_fix c places).
Proof.
  intros M H. pose proof (pow10_pos places) as PP. unfold pow10 in *.
  unfold dec_fix. destruct (c =? 0) eqn:Z0.
  { apply Z.eqb_eq in Z0. subst c. unfold dec_int. cbn [d_coef d_places].
    rewrite Z.quot_0_l by (unfold pow10; lia). nia. }
  apply Z.eqb_neq in Z0. cbv zeta.
  assert (Cpos : 0 < c) by nia.
  rewrite Z.abs_eq by lia.
  destruct (digits_spec c Cpos) as (D1 & Lo & Hi).
  set (n := Z.of_nat (digits c)) in *. set (p := Z.of_nat places) in *.
  assert (P0 : 0 <= p) by (subst p; lia).
  destruct (- p <? Z.max (n - p - 28) Etiny) eqn:R.
  - apply Z.ltb_lt in R. set (e := Z.max (n - p - 28) Etiny) in *.
    assert (K : 0 < e + p) by lia.
    assert (PK : 0 < 10 ^ (e + p)) by (apply Z.pow_pos_nonneg; lia).
    rewrite dec_int_decimal_at. destruct (0 <=? e) eqn:E0.
    + apply Z.leb_le in E0.
      destruct (Z.eq_dec e 0) as [Ez|En].
      * rewrite Ez in *. cbn [Z.add] in *. rewrite Z.pow_0_r, Z.mul_1_r.
        apply div_half_even_ge; [exact PK | exact H].
      * assert (En' : e = n - p - 28) by (unfold Etiny in *; lia).
        assert (C27 : 10 ^ 27 <= div_half_even c (10 ^ (e + p))).
        { apply div_half_even_ge; [exact PK|].
          rewrite <- Z.pow_add_r by lia.
          replace (27 + (e + p)) with (n - 1) by lia. exact Lo. }
        assert (10 ^ 1 <= 10 ^ e) by (apply Z.pow_le_mono_r; lia).
        change (10 ^ 1) with 10 in *. nia.
    + apply Z.leb_gt in E0.
      assert (PE : 0 < 10 ^ (- e)) by (apply Z.pow_pos_nonneg; lia).
      assert (G : m * 10 ^ (- e) <= div_half_even c (10 ^ (e + p))).
      { apply div_half_even_ge; [exact PK|].
        rewrite <- Z.mul_assoc, <- Z.pow_add_r by lia.
        replace (- e + (e + p)) with p by lia. exact H. }
      rewrite Z.quot_div_nonneg by nia.
      apply Z.div_le_lower_bound; lia.
  - unfold dec_int. cbn [d_coef d_places]. fold p. unfold pow10. fold p.
    rewrite Z.quot_div_nonneg by lia. apply Z.div_le_lower_bound; lia.
Qed.

Lemma dec_int_fix_le c places m :
  0 <= m < 10 ^ 28 -> c <= m * pow10 places -> dec_int (dec_fix c places) <= m.
Proof.
  intros M H. pose proof (pow10_pos places) as PP. unfold pow10 in *.
  unfold dec_fix. destruct (c =? 0) eqn:Z0.
  { apply Z.eqb_eq in Z0. subst c. unfold dec_int. cbn [d_coef d_places].
    rewrite Z.quot_0_l by (unfold pow10; lia). lia. }
  apply Z.eqb_neq in Z0. cbv zeta.
  set (p := Z.of_nat places) in *.
  assert (P0 : 0 <= p) by (subst p; lia).
  destruct (Z.lt_ge_cases c 0) as [Neg|Pos].
  - (* a negative value stays at or below zero *)
    assert (Q0 : forall x d, x <= 0 -> 0 < d -> Z.quot x d <= 0).
    { intros x d X D. replace x with (- (- x)) by lia. rewrite Z.quot_opp_l by lia.
      pose proof (Z.quot_pos (- x) d). lia. }
    destruct (- p <? Z.max (Z.of_nat (digits (Z.abs c)) - p - 28) Etiny) eqn:R.
    + apply Z.ltb_lt in R. set (e := Z.max _ Etiny) in *.
      assert (PK : 0 < 10 ^ (e + p)) by (apply Z.pow_pos_nonneg; lia).
      assert (L : div_half_even c (10 ^ (e + p)) <= 0)
        by (apply div_half_even_le; [exact PK | lia]).
      rewrite dec_int_decimal_at. destruct (0 <=? e) eqn:E0.
      * apply Z.leb_le in E0. assert (0 < 10 ^ e) by (apply Z.pow_pos_nonneg; lia). nia.
      * apply Z.leb_gt in E0.
        assert (0 < 10 ^ (- e)) by (apply Z.pow_pos_nonneg; lia).
        pose proof (Q0 _ _ L H0). lia.
    + unfold dec_int. cbn [d_coef d_places]. unfold pow10. fold p.
      pose proof (Q0 c (10 ^ p) ltac:(lia) PP). lia.
  - assert (Cpos : 0 < c) by lia.
    rewrite Z.abs_eq by lia.
    destruct (digits_spec c Cpos) as (D1 & Lo & Hi).
    set (n := Z.of_nat (digits c)) in *.
    destruct (- p <? Z.max (n - p - 28) Etiny) eqn:R.
    + apply Z.ltb_lt in R. set (e := Z.max (n - p - 28) Etiny) in *.
      assert (K : 0 < e + p) by lia.
      assert (PK : 0 < 10 ^ (e + p)) by (apply Z.pow_pos_nonneg; lia).
      assert (E0 : e <= 0).
      { destruct (Z.le_gt_cases e 0) as [L|G]; [exact L|]. exfalso.
        assert (En : e = n - p - 28) by (unfold Etiny in *; lia).
        assert (10 ^ (p + 28) <= 10 ^ (n - 1)) by (apply Z.pow_le_mono_r; lia).
        rewrite Z.pow_add_r in H0 by lia. nia. }
      assert (PE : 0 < 10 ^ (- e)) by (apply Z.pow_pos_nonneg; lia).
      assert (G : div_half_even c (10 ^ (e + p)) <= m * 10 ^ (- e)).
      { apply div_half_even_le; [exact PK|].
        rewrite <- Z.mul_assoc, <- Z.pow_add_r by lia.
        replace (- e + (e + p)) with p by lia. exact H. }
      assert (G0 : 0 <= div_half_even c (10 ^ (e + p)))
        by (apply div_half_even_ge; [exact PK | lia]).
      rewrite dec_int_decimal_at. destruct (0 <=? e) eqn:E1.
      * apply Z.leb_le in E1. assert (Ez : e = 0) by lia. rewrite Ez in *.
        cbn [Z.opp] in G. rewrite Z.pow_0_r in *. lia.
      * rewrite Z.quot_div_nonneg by lia.
        apply Z.lt_succ_r. apply Z.div_lt_upper_bound; [lia|]. nia.
    + unfold dec_int. cbn [d_coef d_places]. unfold pow10. fold p.
      rewrite Z.quot_div_nonneg by lia.
      apply Z.lt_succ_r. apply Z.div_lt_upper_bound; [lia|]. nia.
Qed.

Lemma dec_times_20 a :
  Qfloor (dec_Q a * 20) = (d_coef a * 20) / pow10 (d_places a).
Proof.
  unfold dec_Q, Qmult, Qfloor. cbn [Qnum Qden].
  rewrite Pos.mul_1_r, Z2Pos.id by apply pow10_pos. reflexivity.
Qed.

Lemma abs_times a k : 0 <= k -> Z.abs (a * k) = Z.abs a * k.
Proof. intros K. rewrite Z.abs_mul, (Z.abs_eq k) by exact K. reflexivity. Qed.

(** A product that the context leaves exact: [int] of it, when positive, is
    the floor of twenty times the amount. *)
Lemma dec_int_times_20 a :
  Z.abs (d_coef a) * 20 < 10 ^ 28 -> Z.of_nat (d_places a) <= 1000026 ->
  1 <= dec_int (dec_mul a (Decimal_of_Z 20)) ->
  dec_int (dec_mul a (Decimal_of_Z 20)) = Qfloor (dec_Q a * 20).
Proof.
  intros Small Places. rewrite dec_times_20. unfold dec_mul, Decimal_of_Z.
  cbn [d_coef d_places]. rewrite Nat.add_0_r.
  rewrite dec_fix_small by (rewrite ?abs_times by lia; assumption).
  unfold dec_int. cbn [d_coef d_places]. intros H.
  pose proof (pow10_pos (d_places a)) as P.
  destruct (Z.le_gt_cases 0 (d_coef a * 20)) as [N|N].
  - apply Z.quot_div_nonneg; lia.
  - exfalso.
    assert (E : d_coef a * 20 = - (- (d_coef a * 20))) by lia.
    rewrite E, Z.quot_opp_l in H by lia.
    pose proof (Z.quot_pos (- (d_coef a * 20)) (pow10 (d_places a))). lia.
Qed.

(** A positive [int(a * Decimal(k))] for a positive [k] needs a positive
    [a]. *)
Lemma dec_int_mul_pos a k :
  0 < k -> 1 <= dec_int (dec_mul a (Decimal_of_Z k)) -> (0 < dec_Q a)%Q.
Proof.
  intros K H. unfold dec_mul, Decimal_of_Z in H. cbn [d_coef d_places] in H.
  assert (C : 0 < d_coef a).
  { destruct (Z.lt_ge_cases 0 (d_coef a)) as [L|G]; [exact L|]. exfalso.
    assert (B : dec_int (dec_fix (d_coef a * k) (d_places a + 0)) <= 0).
    { apply dec_int_fix_le; [lia|]. nia. }
    lia. }
  unfold Qlt, dec_Q. cbn [Qnum Qden]. lia.
Qed.

(** The floor of [k] times a decimal. *)
Lemma dec_times a k :
  Qfloor (dec_Q a * inject_Z k) = (d_coef a * k) / pow10 (d_places a).
Proof.
  unfold dec_Q, Qmult, Qfloor, inject_Z. cbn [Qnum Qden].
  rewrite Pos.mul_1_r, Z2Pos.id by apply pow10_pos. reflexivity.
Qed.

(** [int(a * Decimal(k))], when it is between 1 and a bound of at most 28
    digits, is the floor of [k] times [a], or one more: rounding to 28
    digits does not pass an integer. *)
Lemma dec_int_mul_near a k m :
  m < 10 ^ 28 - 1 ->
  1 <= dec_int (dec_mul a (Decimal_of_Z k)) <= m ->
  Qfloor (dec_Q a * inject_Z k) <= dec_int (dec_mul a (Decimal_of_Z k))
    <= Qfloor (dec_Q a * inject_Z k) + 1.
Proof.
  rewrite dec_times. unfold dec_mul, Decimal_of_Z. cbn [d_coef d_places].
  rewrite Nat.add_0_r. intros M H.
  pose proof (pow10_pos (d_places a)) as P.
  set (c := d_coef a * k) in *. set (t := pow10 (d_places a)) in *.
  pose proof (Z.div_mod c t ltac:(lia)) as DM.
  pose proof (Z.mod_pos_bound c t P) as MB.
  assert (C : 0 < c).
  { destruct (Z.lt_ge_cases 0 c) as [L|G]; [exact L|]. exfalso.
    assert (dec_int (dec_fix c (d_places a)) <= 0) by (apply dec_int_fix_le; [lia | fold t; lia]).
    lia. }
  assert (F0 : 0 <= c / t) by (apply Z.div_pos; lia).
  assert (F1 : c / t <= m).
  { destruct (Z.le_gt_cases (c / t) m) as [L|G]; [exact L|]. exfalso.
    assert (m + 1 <= dec_int (dec_fix c (d_places a)))
      by (apply dec_int_fix_ge; [lia | fold t; nia]).
    lia. }
  split.
  - apply dec_int_fix_ge; [lia | fold t; nia].
  - apply dec_int_fix_le; [lia | fold t; nia].
Qed.

Lemma dec_int_times_20_near a :
  1 <= dec_int (dec_mul a (Decimal_of_Z 20)) <= 900 ->
  Qfloor (dec_Q a * 20) <= dec_int (dec_mul a (Decimal_of_Z 20))
    <= Qfloor (dec_Q a * 20) + 1.
Proof. apply (dec_int_mul_near a 20 900). lia. Qed.

(** On a whole number of steps it is the floor. *)
Lemma dec_int_times_20_whole a :
  whole_steps a = true ->
  1 <= dec_int (dec_mul a (Decimal_of_Z 20)) <= 900 ->
  dec_int (dec_mul a (Decimal_of_Z 20)) = Qfloor (dec_Q a * 20).
Proof.
  intros W H. pose proof (dec_int_times_20_near a H) as [Lo _].
  apply Z.le_antisymm; [|exact Lo].
  revert H Lo. rewrite dec_times_20. unfold dec_mul, Decimal_of_Z. cbn [d_coef d_places].
  rewrite Nat.add_0_r. intros H Lo.
  unfold whole_steps in W. apply Z.eqb_eq in W.
  pose proof (pow10_pos (d_places a)) as P.
  pose proof (Z.div_mod (d_coef a * 20) (pow10 (d_places a)) ltac:(lia)) as DM.
  assert (C : 0 < d_coef a * 20).
  { destruct (Z.lt_ge_cases 0 (d_coef a * 20)) as [L|G]; [exact L|]. exfalso.
    assert (dec_int (dec_fix (d_coef a * 20) (d_places a)) <= 0)
      by (apply dec_int_fix_le; [lia | lia]).
    lia. }
  assert (F0 : 0 <= d_coef a * 20 / pow10 (d_places a)) by (apply Z.div_pos; lia).
  apply dec_int_fix_le; [lia | nia].
Qed.

(** On a whole number of steps rounding and floor coincide. *)
Lemma round_half_even_whole a :
  whole_steps a = true -> round_half_even (dec_Q a * 20) = Qfloor (dec_Q a * 20).
Proof.
  unfold whole_steps, round_half_even. intros W. apply Z.eqb_eq in W.
  rewrite dec_times_20.
  pose proof (pow10_pos (d_places a)) as P.
  assert (E : d_coef a * 20 = pow10 (d_places a) * (d_coef a * 20 / pow10 (d_places a))).
  { apply Z.div_exact; lia. }
  set (k := d_coef a * 20 / pow10 (d_places a)) in *.
  assert (C : (dec_Q a * 20 - inject_Z k ?= 1 # 2)%Q = Lt).
  { apply -> Qlt_alt. unfold Qlt, dec_Q, Qminus, Qplus, Qmult, Qopp, inject_Z. cbn [Qnum Qden].
    rewrite !Pos.mul_1_r, Z2Pos.id by exact P. lia. }
  rewrite C. reflexivity.
Qed.

(** The bodies of an immediate bolus, field by field. *)
Lemma immediate_bolus_bodies_Ok pc ps r d outer inner :
  immediate_bolus_bodies pc ps r d = Ok (outer, inner) ->
  0 <= pc < 65536 /\
  outer = u32 0 ++ [0x02]
          ++ u16 (getChecksum ([0x01] ++ u16 (ps * pc) ++ u16 pc ++ u16 pc))
          ++ [0x01] ++ u16 (ps * pc) ++ u16 pc ++ u16 pc /\
  inner = u8 r ++ u16 (pc * 10) ++ u32 (d * 100000) ++ [0; 0; 0; 0; 0; 0].
Proof.
  unfold immediate_bolus_bodies. intros H. bodies H.
  split; [lia|]. split; reflexivity.
Qed.

(** C5.  A bolus of 1.00 U with the default parameters: 20 pulses, a pulse
    span of 320, the outer 0x1a body 00 00 00 00 02 00 6A 01 01 40 00 14 00 14
    whose checksum 0x006A is the sum of the seven bytes after it, and the
    inner 0x17 body 00 00 C8 00 03 0D 40 00 00 00 00 00 00; this is the
    message every such bolus that returns has sent. *)
Theorem bolus_one_unit :
  let amount := mkDecimal 100 2 in
  let outer := [0x00; 0x00; 0x00; 0x00; 0x02; 0x00; 0x6A; 0x01; 0x01; 0x40; 0x00; 0x14; 0x00; 0x14] in
  let inner := [0x00; 0x00; 0xC8; 0x00; 0x03; 0x0D; 0x40; 0x00; 0x00; 0x00; 0x00; 0x00; 0x00] in
  dec_int (dec_mul amount (Decimal_of_Z 20)) = 20 /\
  immediate_bolus_bodies 20 16 0 2 = Ok (outer, inner) /\
  u16_be (slice outer 8 10) = 320 /\
  u16_be (slice outer 10 12) = 20 /\
  u16_be (slice outer 5 7) = 0x006A /\
  byte_sum (slice outer 7 14) = 0x006A /\
  (forall w w', bolus amount w = (Ok tt, w') ->
                sends_during w w' [(0x1a, outer); (0x17, inner)]).
Proof.
  cbv zeta. repeat split; try reflexivity.
  intros w w' H. apply emits_bolus in H. destruct H as (cmds & (_ & _ & o & i & E & ->) & S).
  change (dec_int (dec_mul (mkDecimal 100 2) (Decimal_of_Z 20))) with 20 in E.
  vm_compute in E. inversion E; subst. exact S.
Qed.

(** C8, as the code has it.  The pulse count a bolus encodes is
    int(a * Decimal(20)), the product rounded by the decimal context and cut
    toward zero; it lies between 1 and 900.  It is the floor of twenty times
    the amount or one more; it is the floor whenever the product has at most
    28 digits, and, there being no test for it in [bolus], it is the rounded
    value only when the amount is a whole number of 0.05-unit steps. *)
Theorem bolus_pulse_count a w w' :
  bolus a w = (Ok tt, w') ->
  let pulse_count := dec_int (dec_mul a (Decimal_of_Z 20)) in
  1 <= pulse_count <= 900 /\
  (exists outer inner,
     sends_during w w' [(0x1a, outer); (0x17, inner)] /\
     u16_be (slice outer 10 12) = pulse_count /\
     u16_be (slice outer 12 14) = pulse_count /\
     u16_be (slice inner 1 3) = pulse_count * 10) /\
  Qfloor (dec_Q a * 20) <= pulse_count <= Qfloor (dec_Q a * 20) + 1 /\
  (Z.abs (d_coef a) * 20 < 10 ^ 28 -> Z.of_nat (d_places a) <= 1000026 ->
   pulse_count = Qfloor (dec_Q a * 20)) /\
  (whole_steps a = true -> pulse_count = round_half_even (dec_Q a * 20)).
Proof.
  intros H. apply emits_bolus in H.
  destruct H as (cmds & (Hz & Hs & outer & inner & E & ->) & S).
  apply immediate_bolus_bodies_Ok in E as (R & -> & ->).
  assert (P : 1 <= dec_int (dec_mul a (Decimal_of_Z 20)) <= 900) by lia.
  cbv zeta. split; [exact P|]. split; [|split; [|split]].
  - eexists _, _. split; [exact S|].
    cbv [slice u32 u16 u8 app skipn firstn Nat.sub]. rewrite !u16_be_pair. auto.
  - apply dec_int_times_20_near, P.
  - intros Small Places. apply dec_int_times_20; [assumption | assumption | lia].
  - intros W. rewrite (dec_int_times_20_whole a W P). symmetry.
    apply round_half_even_whole, W.
Qed.

(** *** Temp basal *)

(** The bodies of a temp basal, field by field. *)
Lemma temp_basal_bodies_Ok rate hh c outer inner :
  temp_basal_bodies rate hh c = Ok (outer, inner) ->
  let half_hour_units := repeat (dec_half rate) (Z.to_nat hh) in
  exists pulse0 pulses ise_list ise_body pulse_body first_count first_interval entries
         entries_body,
    getPulsesForHalfHours half_hour_units = Ok (pulse0 :: pulses) /\
    getInsulinScheduleTableFromPulses (pulse0 :: pulses) = Ok ise_list /\
    getStringBodyFromTable ise_list = Ok ise_body /\
    getStringBodyFromTable (pulse0 :: pulses) = Ok pulse_body /\
    getPulseIntervalEntries half_hour_units = Ok ((first_count, first_interval) :: entries) /\
    pack_entries entries = Ok entries_body /\
    let header := u8 hh ++ u16 0x3840 ++ u16 pulse0 in
    let first := u16 first_count ++ u32 first_interval in
    outer = u32 0 ++ [0x01] ++ u16 (getChecksum (header ++ pulse_body)) ++ header ++ ise_body /\
    inner = u8 (if c then 0x40 else 0) ++ [0x00] ++ first ++ (first ++ entries_body).
Proof.
  unfold temp_basal_bodies. intros H. rinv H.
  repeat match goal with
         | I : py_index _ 0 = Ok _ |- _ => apply py_index_0_Ok in I as (? & ->)
         end.
  match goal with
  | I : pack_entries (?e :: _) = Ok _ |- _ =>
      destruct e as [first_count first_interval]; cbn [pack_entries fst snd] in *; rinv I;
      injection I as <-
  end.
  packs. injection H as <- <-.
  eexists _, _, _, _, _, first_count, first_interval, _, _.
  repeat (split; [eassumption|]).
  cbv zeta. split.
  - unfold u8. rewrite <- !app_assoc. reflexivity.
  - unfold u8. destruct c; cbn [Z.lor]; rewrite <- !app_assoc; reflexivity.
Qed.

(** A temp basal that returns has sent the two bodies of the encoder as
    commands 0x1a and 0x16 of one message. *)
Lemma emits_setTempBasal rate hours c :
  emits (setTempBasal rate hours c)
    (fun cmds => exists outer inner,
         temp_basal_bodies rate (dec_int (dec_mul hours (Decimal_of_Z 2))) c
           = Ok (outer, inner) /\
         cmds = [(0x1a, outer); (0x16, inner)]).
Proof.
  unfold setTempBasal. apply emits_pdm_command, emits_pdmlock.
  apply emits_bind_r; [preserve|]; intros _. cbv zeta.
  apply emits_unless; intros _.
  apply emits_bind_r; [preserve|]; intros p.
  apply emits_unless; intros _.
  apply emits_unless; intros _.
  apply emits_bind_r; [preserve|]; intros active.
  apply emits_bind_r; [preserve|]; intros _.
  unfold setTempBasal_program. apply emits_liftR. intros [outer inner] E.
  apply emits_createMessage. intros msg C.
  apply emits_bind_l; [|preserve].
  eapply emits_weaken; [apply emits_sendMessage|].
  cbn. rewrite C. intros cmds ->. eauto.
Qed.

(** C6.  Every temp basal that [setTempBasal] accepts was sent as an outer
    0x1a body u32(0), 0x01, u16(checksum), u8(half_hours), u16(0x3840),
    u16(pulse_list[0]), ise_body, with the checksum taken over u8(half_hours),
    u16(0x3840), u16(pulse_list[0]) and the packed pulse list (not the ISE
    table), and an inner 0x16 body that has the first pulse-interval entry
    twice: right after the two header bytes, and again as the first of the
    whole list of entries. *)
Theorem temp_basal_encoding rate hours confidence w w' :
  setTempBasal rate hours confidence w = (Ok tt, w') ->
  let half_hours := dec_int (dec_mul hours (Decimal_of_Z 2)) in
  let half_hour_units := repeat (dec_half rate) (Z.to_nat half_hours) in
  exists pulse0 pulses ise_list ise_body pulse_body first_count first_interval entries
         entries_body,
    getPulsesForHalfHours half_hour_units = Ok (pulse0 :: pulses) /\
    getInsulinScheduleTableFromPulses (pulse0 :: pulses) = Ok ise_list /\
    getStringBodyFromTable ise_list = Ok ise_body /\
    getStringBodyFromTable (pulse0 :: pulses) = Ok pulse_body /\
    getPulseIntervalEntries half_hour_units = Ok ((first_count, first_interval) :: entries) /\
    pack_entries entries = Ok entries_body /\
    let header := u8 half_hours ++ u16 0x3840 ++ u16 pulse0 in
    let checksum := getChecksum (header ++ pulse_body) in
    let first := u16 first_count ++ u32 first_interval in
    sends_during w w'
      [(0x1a, u32 0 ++ [0x01] ++ u16 checksum ++ header ++ ise_body);
       (0x16, u8 (if confidence then 0x40 else 0) ++ [0x00] ++ first ++ (first ++ entries_body))].
Proof.
  intros H. apply emits_setTempBasal in H.
  destruct H as (cmds & (outer & inner & E & ->) & S).
  apply temp_basal_bodies_Ok in E.
  destruct E as (pulse0 & pulses & ise_list & ise_body & pulse_body & first_count
                 & first_interval & entries & entries_body
                 & E1 & E2 & E3 & E4 & E5 & E6 & -> & ->).
  exists pulse0, pulses, ise_list, ise_body, pulse_body, first_count, first_interval, entries,
    entries_body.
  repeat (split; [assumption|]). exact S.
Qed.

(** C7, as the code has it.  In every outer 0x1a body the 16-bit big-endian
    value at bytes 5 and 6 is, modulo 2^16, the sum of the header bytes that
    follow it (seven for an immediate bolus, five for a temp basal and for a
    basal schedule) plus the sum of the bytes of the packed pulse list, which
    is empty for an immediate bolus and is not part of the body otherwise:
    the body carries the ISE table in its place. *)
Theorem outer_body_checksum :
  (forall pc ps r d outer inner,
     immediate_bolus_bodies pc ps r d = Ok (outer, inner) ->
     u16_be (slice outer 5 7) = byte_sum (slice outer 7 14) mod 65536) /\
  (forall rate hh c outer inner,
     temp_basal_bodies rate hh c = Ok (outer, inner) ->
     exists pulse_list pulse_body,
       getPulsesForHalfHours (repeat (dec_half rate) (Z.to_nat hh)) = Ok pulse_list /\
       getStringBodyFromTable pulse_list = Ok pulse_body /\
       u16_be (slice outer 5 7)
       = (byte_sum (slice outer 7 12) + byte_sum pulse_body) mod 65536) /\
  (forall schedule podDate outer inner,
     basal_schedule_bodies schedule podDate = Ok (outer, inner) ->
     exists pulse_list pulse_body,
       getPulsesForHalfHours (map dec_half schedule) = Ok pulse_list /\
       getStringBodyFromTable pulse_list = Ok pulse_body /\
       u16_be (slice outer 5 7)
       = (byte_sum (slice outer 7 12) + byte_sum pulse_body) mod 65536).
Proof.
  split; [exact immediate_bolus_checksum|].
  split; [exact temp_basal_checksum | exact basal_schedule_checksum].
Qed.

(** *** The [finally] of the public methods *)

Lemma finally_run w :
  (radio_disconnect ;; _savePod) w
  = (if disk_ok w then Ok tt else Raise (PdmError "Pod status was not saved"), closed w).
Proof.
  unfold closed, _savePod, try_except, bind, radio_disconnect, pod_Save. cbn.
  destruct (disk_ok w); reflexivity.
Qed.

Lemma pdm_command_run {A} (body : M A) w : pdm_command body w = finish (body w).
Proof.
  unfold pdm_command, try_finally, try_except, finish.
  destruct (body w) as [[a|e] w1]; cbn [fst snd].
  - rewrite finally_run. destruct (disk_ok w1); reflexivity.
  - unfold reraise, raise. destruct (is_OmnipyError e);
      rewrite finally_run; destruct (disk_ok w1); reflexivity.
Qed.

Lemma closed_trace w :
  trace (closed w) = trace w ++ [EDisconnect; ESave (saved_pod w) (disk_ok w)].
Proof. unfold closed. destruct (disk_ok w); cbn; rewrite <- app_assoc; reflexivity. Qed.

Lemma closed_pod w :
  radio_message_sequence (pod (closed w)) = radio_messageSequence w /\
  radio_packet_sequence (pod (closed w)) = radio_packetSequence w /\
  nonce_last (pod (closed w)) = lastNonce (nonce w) /\
  nonce_seed (pod (closed w)) = seed (nonce w).
Proof.
  unfold closed, saved_pod. destruct (disk_ok w); destruct (pod w); cbn; auto.
Qed.

Lemma closed_saved w :
  disk_ok w = true -> saved (closed w) = Some (pod (closed w)).
Proof. unfold closed. intros ->. reflexivity. Qed.

(** *** The checks of [setTempBasal] *)

Lemma Qgtb_true a b : (b < a)%Q -> Qgtb a b = true.
Proof.
  intros H. unfold Qgtb. destruct (Qle_bool a b) eqn:E; [|reflexivity].
  apply Qle_bool_iff in E. exfalso. exact (Qlt_not_le _ _ H E).
Qed.

Lemma Qgtb_false a b : (a <= b)%Q -> Qgtb a b = false.
Proof. intros H. unfold Qgtb. apply Qle_bool_iff in H. now rewrite H. Qed.

Lemma finish_PdmError {A} msg w :
  exists msg', finish (A:=A) (Raise (PdmError msg), w) = (Raise (PdmError msg'), closed w).
Proof. unfold finish. cbn. destruct (disk_ok w); eauto. Qed.

Lemma setTempBasal_after_guards rate hours c w w1 :
  lock_busy w = false ->
  setTempBasal_guards w = (Ok tt, w1) ->
  setTempBasal rate hours c w
  = finish
      ((let halfHours := dec_int (dec_mul hours (Decimal_of_Z 2)) in
        when ((halfHours >? 24) || (halfHours <? 1))
          (raise (PdmError "Requested duration is not valid")) ;;
        p <- get_pod ;;
        when (match var_maximum_temp_basal_rate p with
              | Some m => Qgtb (dec_Q rate) m
              | None => false
              end)
          (raise (PdmError "Requested rate exceeds maximum temp basal setting")) ;;
        when (Qgtb (dec_Q rate) (dec_Q (Decimal_of_Z 30)))
          (raise (PdmError "Requested rate exceeds maximum temp basal capability")) ;;
        active <- _is_temp_basal_active ;;
        when active (cancelTempBasal false) ;;
        setTempBasal_program rate hours halfHours c) w1).
Proof.
  intros L G. unfold setTempBasal. rewrite pdm_command_run. f_equal.
  unfold pdmlock. rewrite L. rewrite (bind_eq _ _ _ _ _ G). reflexivity.
Qed.

(** What [setTempBasal] does once its guards have passed. *)
Lemma setTempBasal_cases rate hours confidence w w1 :
  lock_busy w = false ->
  setTempBasal_guards w = (Ok tt, w1) ->
  let half_hours := dec_int (dec_mul hours (Decimal_of_Z 2)) in
  let rejects :=
    exists msg,
      setTempBasal rate hours confidence w = (Raise (PdmError msg), closed w1) /\
      trace (closed w1) = trace w1 ++ [EDisconnect; ESave (saved_pod w1) (disk_ok w1)] in
  (half_hours < 1 \/ 24 < half_hours -> rejects) /\
  (forall m, var_maximum_temp_basal_rate (pod w1) = Some m -> (m < dec_Q rate)%Q -> rejects) /\
  ((30 < dec_Q rate)%Q -> rejects) /\
  (1 <= half_hours <= 24 ->
   (forall m, var_maximum_temp_basal_rate (pod w1) = Some m -> (dec_Q rate <= m)%Q) ->
   (dec_Q rate <= 30)%Q ->
   forall active w2,
     _is_temp_basal_active w1 = (Ok active, w2) ->
     setTempBasal rate hours confidence w
     = finish ((when active (cancelTempBasal false) ;;
                setTempBasal_program rate hours half_hours confidence) w2)).
Proof.
  intros L G half_hours rejects.
  pose proof (setTempBasal_after_guards rate hours confidence w w1 L G) as E.
  cbv zeta in E. fold half_hours in E.
  assert (R : forall msg rest,
             setTempBasal rate hours confidence w
             = finish (bind (A:=unit) (raise (PdmError msg)) (fun _ => rest) w1) -> rejects).
  { intros msg rest H. destruct (@finish_PdmError unit msg w1) as [msg' F].
    exists msg'. split; [|apply closed_trace].
    rewrite H. exact F. }
  destruct ((half_hours >? 24) || (half_hours <? 1)) eqn:D.
  { assert (rejects) by (eapply R; exact E).
    repeat split; auto. intros; lia. }
  cbn [when] in E. unfold bind at 1, ret in E. unfold bind at 1, get_pod in E.
  destruct (var_maximum_temp_basal_rate (pod w1)) as [m|] eqn:V.
  - destruct (Qgtb (dec_Q rate) m) eqn:Q1.
    { assert (rejects) by (eapply R; exact E).
      repeat split; auto. intros _ Hm. specialize (Hm m eq_refl).
      rewrite (Qgtb_false _ _ Hm) in Q1. discriminate. }
    cbn [when] in E. unfold bind at 1, ret in E.
    change (dec_Q (Decimal_of_Z 30)) with 30%Q in E.
    destruct (Qgtb (dec_Q rate) 30) eqn:Q2.
    { assert (rejects) by (eapply R; exact E).
      repeat split; auto. intros _ _ H30. rewrite (Qgtb_false _ _ H30) in Q2. discriminate. }
    cbn [when] in E. unfold bind at 1, ret in E.
    split; [intros; lia|]. split.
    { intros m' Hm' Lt. inversion Hm'; subst. rewrite (Qgtb_true _ _ Lt) in Q1. discriminate. }
    split; [intros Lt; rewrite (Qgtb_true _ _ Lt) in Q2; discriminate|].
    intros _ _ _ active w2 A. rewrite E. f_equal.
    rewrite (bind_eq _ _ _ _ _ A). reflexivity.
  - cbn [when] in E. unfold bind at 1, ret in E.
    change (dec_Q (Decimal_of_Z 30)) with 30%Q in E.
    destruct (Qgtb (dec_Q rate) 30) eqn:Q2.
    { assert (rejects) by (eapply R; exact E).
      repeat split; auto; try discriminate.
      intros _ _ H30. rewrite (Qgtb_false _ _ H30) in Q2. discriminate. }
    cbn [when] in E. unfold bind at 1, ret in E.
    split; [intros; lia|]. split; [discriminate|].
    split; [intros Lt; rewrite (Qgtb_true _ _ Lt) in Q2; discriminate|].
    intros _ _ _ active w2 A. rewrite E. f_equal.
    rewrite (bind_eq _ _ _ _ _ A). reflexivity.
Qed.

Lemma Qgtb_false_le a b : Qgtb a b = false -> (a <= b)%Q.
Proof.
  unfold Qgtb. intros H. apply Qle_bool_iff. destruct (Qle_bool a b); [reflexivity | discriminate].
Qed.

(** What a [setTempBasal] that returns has checked. *)
Lemma setTempBasal_accepted rate hours c w w' :
  setTempBasal rate hours c w = (Ok tt, w') ->
  let half_hours := dec_int (dec_mul hours (Decimal_of_Z 2)) in
  1 <= half_hours <= 24 /\ (dec_Q rate <= 30)%Q /\
  exists w1,
    setTempBasal_guards w = (Ok tt, w1) /\
    forall m, var_maximum_temp_basal_rate (pod w1) = Some m -> (dec_Q rate <= m)%Q.
Proof.
  intros H. apply pdm_command_Ok in H as (wb & H & _).
  apply pdmlock_Ok in H as [_ H].
  apply bind_Ok in H as ([] & w1 & G & H). cbv zeta in H.
  apply bind_Ok in H as (u & x & D & H). apply when_raise_Ok in D as [D ->].
  apply bind_Ok in H as (p & y & P & H). apply get_pod_Ok in P as [-> ->].
  apply bind_Ok in H as (u1 & z & V & H). apply when_raise_Ok in V as [V ->].
  apply bind_Ok in H as (u2 & z & C & H). apply when_raise_Ok in C as [C ->].
  cbv zeta. split; [lia|]. split.
  - apply Qgtb_false_le in C. exact C.
  - exists w1. split; [exact G|]. intros m Hm. rewrite Hm in V. apply Qgtb_false_le, V.
Qed.

(** [cancelTempBasal] inside [setTempBasal]: the nested command runs to its
    end, and the programming starts from the world it leaves, if it
    returned. *)
Lemma nested_cancel_run rate hours hh c w2 :
  exists wc,
    extends w2 wc /\
    snd (cancelTempBasal false w2) = closed wc /\
    (forall e, fst (cancelTempBasal false w2) = Raise e ->
               (when true (cancelTempBasal false) ;; setTempBasal_program rate hours hh c) w2
               = (Raise e, closed wc)) /\
    (fst (cancelTempBasal false w2) = Ok tt ->
     (when true (cancelTempBasal false) ;; setTempBasal_program rate hours hh c) w2
     = setTempBasal_program rate hours hh c (closed wc)).
Proof.
  unfold bind. cbn [when]. unfold cancelTempBasal. rewrite pdm_command_run.
  match goal with
  | |- context [finish (?body w2)] =>
      exists (snd (body w2)); assert (E : preserves extends body) by preserve;
      split; [apply E|]; destruct (body w2) as [r wc]
  end.
  unfold finish. cbn [fst snd]. split; [reflexivity|].
  destruct (disk_ok wc); destruct r as [[]|e]; cbn [is_OmnipyError]; split;
    try (destruct (is_OmnipyError e)); intros; try discriminate;
    try reflexivity;
    match goal with
    | X : Raise _ = Raise _ |- _ => injection X as <-; reflexivity
    end.
Qed.

(** C9.  [setTempBasal] takes half_hours = int(hours * Decimal(2)), the
    product rounded by the decimal context and cut toward zero.  A call
    that returns had half_hours within 1 and 24, which is less than the
    hours times two being within 1 and 24: these are positive and below 25,
    and half_hours is their floor or one more.  It had a rate not above
    [var_maximum_temp_basal_rate] (if set) and not above 30 U/h.  Once the
    guards of the method have passed, it raises PdmError when half_hours is
    below 1 or above 24, when the rate is above [var_maximum_temp_basal_rate]
    (if set), and when the rate is above 30 U/h, so that no rate above
    30 U/h is enacted; nothing is sent in these cases.  Otherwise, when no
    temp basal is found active, the programming follows at once; when one
    is found active, [cancelTempBasal] is run to its end first, its own
    disconnect and save included: if it raises, that is the outcome and
    nothing is programmed; if it returns, the programming starts from the
    world it left, so that all that [cancelTempBasal] did comes before
    anything the programming does. *)
Theorem setTempBasal_checks rate hours confidence w :
  let half_hours := dec_int (dec_mul hours (Decimal_of_Z 2)) in
  (forall w',
     setTempBasal rate hours confidence w = (Ok tt, w') ->
     1 <= half_hours <= 24 /\
     Qfloor (dec_Q hours * 2) <= half_hours <= Qfloor (dec_Q hours * 2) + 1 /\
     (0 < dec_Q hours)%Q /\ (dec_Q hours * 2 < 25)%Q /\
     (dec_Q rate <= 30)%Q /\
     exists w1,
       setTempBasal_guards w = (Ok tt, w1) /\
       forall m, var_maximum_temp_basal_rate (pod w1) = Some m -> (dec_Q rate <= m)%Q) /\
  (forall w1,
     lock_busy w = false ->
     setTempBasal_guards w = (Ok tt, w1) ->
     let rejects :=
       exists msg,
         setTempBasal rate hours confidence w = (Raise (PdmError msg), closed w1) /\
         trace (closed w1) = trace w1 ++ [EDisconnect; ESave (saved_pod w1) (disk_ok w1)] in
     (half_hours < 1 \/ 24 < half_hours -> rejects) /\
     (forall m, var_maximum_temp_basal_rate (pod w1) = Some m -> (m < dec_Q rate)%Q ->
                rejects) /\
     ((30 < dec_Q rate)%Q -> rejects) /\
     (1 <= half_hours <= 24 ->
      (forall m, var_maximum_temp_basal_rate (pod w1) = Some m -> (dec_Q rate <= m)%Q) ->
      (dec_Q rate <= 30)%Q ->
      forall active w2,
        _is_temp_basal_active w1 = (Ok active, w2) ->
        (active = false ->
         setTempBasal rate hours confidence w
         = finish (setTempBasal_program rate hours half_hours confidence w2)) /\
        (active = true ->
         exists wc,
           extends w2 wc /\
           snd (cancelTempBasal false w2) = closed wc /\
           trace (closed wc) = trace wc ++ [EDisconnect; ESave (saved_pod wc) (disk_ok wc)] /\
           (forall e,
              fst (cancelTempBasal false w2) = Raise e ->
              setTempBasal rate hours confidence w = finish (Raise e, closed wc)) /\
           (fst (cancelTempBasal false w2) = Ok tt ->
            setTempBasal rate hours confidence w
            = finish (setTempBasal_program rate hours half_hours confidence (closed wc)) /\
            extends (closed wc) (snd (setTempBasal rate hours confidence w)))))).
Proof.
  split.
  - intros w' H.
    destruct (setTempBasal_accepted rate hours confidence w w' H) as (Range & Rate & Guards).
    cbv zeta in Range.
    pose proof (dec_int_mul_near hours 2 24 ltac:(lia) Range) as Near.
    change (inject_Z 2) with 2%Q in Near.
    split; [exact Range|]. split; [exact Near|].
    split; [apply (dec_int_mul_pos hours 2); lia|].
    split; [|split; [exact Rate | exact Guards]].
    pose proof (Qlt_floor (dec_Q hours * 2)) as Up.
    assert (B : (inject_Z (Qfloor (dec_Q hours * 2) + 1) <= 25)%Q).
    { change 25%Q with (inject_Z 25). rewrite <- Zle_Qle. lia. }
    exact (Qlt_le_trans _ _ _ Up B).
  - intros w1 L G.
    destruct (setTempBasal_cases rate hours confidence w w1 L G) as (R1 & R2 & R3 & Run).
    cbv zeta. split; [exact R1|]. split; [exact R2|]. split; [exact R3|].
    intros Range Ceiling Cap active w2 A.
    specialize (Run Range Ceiling Cap active w2 A). split.
    + intros ->. rewrite Run. reflexivity.
    + intros ->.
      destruct (nested_cancel_run rate hours (dec_int (dec_mul hours (Decimal_of_Z 2)))
                  confidence w2) as (wc & X & S & Raises & Returns).
      exists wc. split; [exact X|]. split; [exact S|]. split; [apply closed_trace|]. split.
      * intros e E. rewrite Run, (Raises e E). reflexivity.
      * intros E. rewrite Run, (Returns E). split; [reflexivity|].
        unfold finish. cbn [snd].
        match goal with
        | |- extends _ (closed (snd (?program (closed wc)))) =>
            assert (P : preserves extends program) by (unfold setTempBasal_program; preserve);
            destruct (program (closed wc)) as [r wk] eqn:Program
        end.
        apply (preserves_run _ _ _ _ _ P) in Program. destruct Program as [t T].
        exists (t ++ [EDisconnect; ESave (saved_pod wk) (disk_ok wk)]).
        cbn [snd]. rewrite closed_trace, T, <- app_assoc. reflexivity.
Qed.

(** *** Which public methods save the pod *)

Lemma pdm_command_ends_by_saving {A} (body : M A) : ends_by_saving (pdm_command body).
Proof.
  intros w. exists (snd (body w)). rewrite pdm_command_run. unfold finish. cbn [fst snd].
  split; [reflexivity|]. intros ->. reflexivity.
Qed.

(** Nine of the ten public methods end by saving. *)
Lemma public_methods_end_by_saving :
  (forall t, ends_by_saving (updatePodStatus t)) /\
  (forall mask, ends_by_saving (acknowledge_alerts mask)) /\
  (forall a, ends_by_saving (bolus a)) /\
  (forall beep, ends_by_saving (cancelBolus beep)) /\
  (forall beep, ends_by_saving (cancelTempBasal beep)) /\
  (forall rate hours c, ends_by_saving (setTempBasal rate hours c)) /\
  (forall schedule, ends_by_saving (set_basal_schedule schedule)) /\
  ends_by_saving deactivate_pod /\
  ends_by_saving activate_pod.
Proof. repeat split; intros; apply pdm_command_ends_by_saving. Qed.

(** [is_busy] does not: whatever it did on the radio, the pod is not handed
    to [Save], and the last thing it does is to disconnect. *)
Lemma is_busy_never_saves w :
  saved (snd (is_busy w)) = saved w /\
  exists t,
    trace (snd (is_busy w)) = trace w ++ t ++ [EDisconnect] /\ existsb is_save t = false.
Proof.
  unfold is_busy, try_finally.
  destruct (try_except (pdmlock _is_bolus_running) _ w) as [r w1] eqn:E.
  assert (T : transports w w1).
  { eapply (preserves_run transports); [|exact E]. preserve. }
  destruct T as ((t & Ht & Nt) & _ & S & _).
  cbn. split; [exact S|]. exists t. rewrite Ht, <- app_assoc. auto.
Qed.

(** *** [deactivate_pod] *)

(** Whatever the state of the pod, with the lock free the first thing
    [deactivate_pod] does is to send the 0x1c command. *)
Lemma deactivate_pod_sends w :
  lock_busy w = false ->
  exists m sc t,
    trace (snd (deactivate_pod w)) = trace w ++ ESend m sc false false None :: t /\
    commands m = [(0x1c, [0; 0; 0; 0])].
Proof.
  intros L. unfold deactivate_pod. rewrite pdm_command_run. unfold finish. cbn [snd].
  rewrite closed_trace. unfold pdmlock. rewrite L.
  unfold bind at 1. cbn [liftR bytes_of forallb is_byte Z.leb Z.ltb Z.compare andb].
  unfold bind at 1. cbn [_createMessage].
  destruct (_sendMessage _ true 0 false (Some REQ_DEACTIVATE_POD) true false false None w)
    as [r w1] eqn:E.
  apply sendMessage_first_event in E. destruct E as (m' & sc' & w0 & t & E0 & T).
  rewrite apply_nonce_true in E0. inversion E0; subst; clear E0.
  cbn [snd]. rewrite T. eexists _, _, _. rewrite <- app_assoc. cbn [app].
  split; reflexivity.
Qed.

(** *** The division in [_set_basal_schedule] *)

(** In the last second of a half hour one second is left. *)
Lemma last_second podDate :
  (minute podDate = 29 \/ minute podDate = 59) -> second podDate = 59 ->
  snd (half_hour_timing podDate) = 1.
Proof.
  unfold half_hour_timing. intros [M|M] S; rewrite M, S; reflexivity.
Qed.

Lemma pulsesRemaining_zero seconds pulses :
  0 <= seconds * pulses < 1800 -> pulsesRemainingCurrentHour seconds pulses = 0.
Proof. intros H. unfold pulsesRemainingCurrentHour. apply Z.quot_small, H. Qed.

(** When the pulses that remain in the half hour come out as zero, the
    encoder does not return: it divides by them. *)
Lemma basal_schedule_zero_division schedule podDate pulse_list pulses :
  getPulsesForHalfHours (map dec_half schedule) = Ok pulse_list ->
  py_index pulse_list (fst (half_hour_timing podDate)) = Ok pulses ->
  pulsesRemainingCurrentHour (snd (half_hour_timing podDate)) pulses = 0 ->
  forall bodies, basal_schedule_bodies schedule podDate <> Ok bodies.
Proof.
  intros P I Z bodies H. unfold basal_schedule_bodies in H.
  destruct (half_hour_timing podDate) as [currentHalfHour secondsUntilHalfHour].
  cbn [fst snd] in *. rinv H.
  match goal with
  | D : int_truediv _ _ = Ok _ |- _ =>
      rewrite P in *;
      repeat match goal with
             | X : Ok _ = Ok _ |- _ => injection X as X; subst
             end;
      rewrite I in *;
      repeat match goal with
             | X : Ok _ = Ok _ |- _ => injection X as X; subst
             end;
      rewrite Z in D; discriminate D
  end.
Qed.

(** * The guards *)

Lemma when_run b e w : when b (raise e) w = (if b then Raise e else Ok tt, w).
Proof. destruct b; reflexivity. Qed.

Lemma inspects_only_when b msg : inspects_only (when b (raise (PdmError msg))).
Proof. intros w. rewrite when_run. destruct b; cbn; eauto. Qed.

Lemma inspects_only_raise msg : inspects_only (raise (PdmError msg)).
Proof. intros w. cbn. eauto. Qed.

Lemma inspects_only_ret : inspects_only (ret tt).
Proof. intros w. cbn. auto. Qed.

Lemma inspects_only_bind (g k : M unit) :
  inspects_only g -> inspects_only k -> inspects_only (g ;; k).
Proof.
  intros G K w. unfold bind. destruct (G w) as [S R].
  destruct (g w) as [r w1]. cbn [fst snd] in S, R. subst w1.
  destruct R as [->|[msg ->]]; [apply K | cbn; eauto].
Qed.

Lemma inspects_only_get_pod (k : Pod -> M unit) :
  (forall p, inspects_only (k p)) -> inspects_only (p <- get_pod ;; k p).
Proof. intros K w. exact (K (pod w) w). Qed.

Lemma inspects_only_check_schedule_entries schedule :
  inspects_only (check_schedule_entries schedule).
Proof.
  induction schedule as [|entry rest IH]; [apply inspects_only_ret|].
  cbn [check_schedule_entries].
  repeat apply inspects_only_bind; auto using inspects_only_when.
Qed.

Ltac inspect :=
  repeat first
    [ apply inspects_only_get_pod; intros ?
    | apply inspects_only_bind
    | apply inspects_only_when
    | apply inspects_only_raise
    | apply inspects_only_ret
    | apply inspects_only_check_schedule_entries ].

Lemma inspects_only_address_not_assigned : inspects_only _assert_pod_address_not_assigned.
Proof. unfold _assert_pod_address_not_assigned; inspect. Qed.

Lemma inspects_only_address_assigned : inspects_only _assert_pod_address_assigned.
Proof. unfold _assert_pod_address_assigned; inspect. Qed.

Lemma inspects_only_schedule_is_valid schedule :
  inspects_only (_assert_basal_schedule_is_valid schedule).
Proof. destruct schedule; unfold _assert_basal_schedule_is_valid; inspect. Qed.

Lemma inspects_only_can_generate_nonce : inspects_only _assert_can_generate_nonce.
Proof. unfold _assert_can_generate_nonce; inspect. Qed.

Lemma inspects_only_can_acknowledge_alerts : inspects_only _assert_can_acknowledge_alerts.
Proof. unfold _assert_can_acknowledge_alerts; inspect. Qed.

Lemma inspects_only_status_running : inspects_only _assert_status_running.
Proof. unfold _assert_status_running; inspect. Qed.

Lemma inspects_only_not_faulted : inspects_only _assert_not_faulted.
Proof. unfold _assert_not_faulted; inspect. Qed.

Lemma inspects_only_pod_can_activate : inspects_only _assert_pod_can_activate.
Proof. unfold _assert_pod_can_activate; inspect. Qed.

Lemma inspects_only_pod_paired : inspects_only _assert_pod_paired.
Proof. unfold _assert_pod_paired; inspect. Qed.

Lemma inspects_only_activate_can_start : inspects_only _assert_pod_activate_can_start.
Proof.
  unfold _assert_pod_activate_can_start; inspect;
    auto using inspects_only_address_not_assigned, inspects_only_schedule_is_valid.
Qed.

(** What a guard does to a run: it passes and leaves the world, or it ends
    the run with PdmError in the same world. *)
Lemma inspects_only_cases g w :
  inspects_only g -> g w = (Ok tt, w) \/ exists msg, g w = (Raise (PdmError msg), w).
Proof.
  intros G. destruct (G w) as [S R]. destruct (g w) as [r w1]. cbn [fst snd] in S, R. subst w1.
  destruct R as [->|[msg ->]]; eauto.
Qed.

Lemma inspects_only_Ok g w u w' : inspects_only g -> g w = (Ok u, w') -> w' = w.
Proof. intros G E. destruct (G w) as [S _]. rewrite E in S. exact S. Qed.

(** X1.  The guards that test attributes of the pod shadow never touch the
    radio, the clock or the shadow: they leave the world as it is, and a
    guard that fails raises PdmError.  ([_assert_immediate_bolus_not_active]
    is not among them: it may ask the pod for its status.) *)
Theorem guards_inspect_only :
  inspects_only _assert_pod_address_not_assigned /\
  inspects_only _assert_pod_address_assigned /\
  (forall schedule, inspects_only (_assert_basal_schedule_is_valid schedule)) /\
  inspects_only _assert_pod_activate_can_start /\
  inspects_only _assert_pod_can_activate /\
  inspects_only _assert_pod_paired /\
  inspects_only _assert_can_generate_nonce /\
  inspects_only _assert_can_deactivate /\
  inspects_only _assert_can_acknowledge_alerts /\
  inspects_only _assert_status_running /\
  inspects_only _assert_not_faulted /\
  inspects_only _assert_no_active_alerts.
Proof.
  pose proof inspects_only_address_assigned as A.
  pose proof inspects_only_can_generate_nonce as N.
  repeat match goal with
         | |- _ /\ _ => refine (conj _ _)
         end;
    auto using inspects_only_address_not_assigned, inspects_only_schedule_is_valid,
      inspects_only_activate_can_start, inspects_only_pod_can_activate,
      inspects_only_pod_paired, inspects_only_can_acknowledge_alerts,
      inspects_only_status_running, inspects_only_not_faulted.
  - unfold _assert_can_deactivate; inspect; auto.
  - unfold _assert_no_active_alerts; inspect.
Qed.

(** X2.  [_assert_status_running] lets the pod through exactly in the states
    Running and RunningLow; below Running it raises "Pod is not yet running",
    above RunningLow "Pod has stopped". *)
Theorem assert_status_running_passes w :
  let progress := state_progress (pod w) in
  (fst (_assert_status_running w) = Ok tt <-> progress = Running \/ progress = RunningLow) /\
  (progress_rank progress < progress_rank Running <->
   fst (_assert_status_running w) = Raise (PdmError "Pod is not yet running")) /\
  (progress_rank RunningLow < progress_rank progress <->
   fst (_assert_status_running w) = Raise (PdmError "Pod has stopped")).
Proof.
  unfold _assert_status_running, bind, get_pod. cbv zeta.
  destruct (state_progress (pod w)); cbn;
    repeat split; intros; try discriminate; try lia; auto;
    repeat match goal with
           | H : _ \/ _ |- _ => destruct H
           end; discriminate.
Qed.

(** X3.  [_assert_can_acknowledge_alerts] passes exactly when the radio
    address is set and the pod is between PairingSuccess and RunningLow; a
    pod that shuts down after an error or after its alert expired, and one
    that is inactive or faulted, get a PdmError of their own. *)
Theorem assert_can_acknowledge_alerts_passes w :
  let p := pod w in
  let outcome := fst (_assert_can_acknowledge_alerts w) in
  (outcome = Ok tt <->
   is_Some (radio_address p) = true /\
   progress_rank PairingSuccess <= progress_rank (state_progress p)
     <= progress_rank RunningLow) /\
  (is_Some (radio_address p) = false ->
   outcome = Raise (PdmError "Radio radio_address not set")) /\
  (is_Some (radio_address p) = true ->
   (progress_rank (state_progress p) < progress_rank PairingSuccess ->
    outcome = Raise (PdmError "Pod not paired completely yet.")) /\
   (state_progress p = ErrorShuttingDown ->
    outcome = Raise (PdmError "Pod is shutting down, cannot acknowledge alerts.")) /\
   (state_progress p = AlertExpiredShuttingDown ->
    outcome = Raise (PdmError "Acknowledgement period expired, pod is shutting down")) /\
   (progress_rank AlertExpiredShuttingDown < progress_rank (state_progress p) ->
    outcome = Raise (PdmError "Pod is not active"))).
Proof.
  unfold _assert_can_acknowledge_alerts, _assert_pod_address_assigned, bind, get_pod.
  cbv zeta.
  destruct (radio_address (pod w)); cbn; destruct (state_progress (pod w)); cbn;
    intuition (try discriminate; try lia).
Qed.

(** X4.  [_assert_can_deactivate], the guard written for [deactivate_pod],
    passes exactly when address, lot and serial number are known and the pod
    is between PairingSuccess and AlertExpiredShuttingDown. *)
Theorem assert_can_deactivate_passes w :
  let p := pod w in
  fst (_assert_can_deactivate w) = Ok tt <->
  is_Some (radio_address p) = true /\ is_Some (id_lot p) = true /\
  is_Some (id_t p) = true /\
  progress_rank PairingSuccess <= progress_rank (state_progress p)
    <= progress_rank AlertExpiredShuttingDown.
Proof.
  unfold _assert_can_deactivate, _assert_pod_address_assigned, _assert_can_generate_nonce,
    bind, get_pod.
  cbv zeta.
  destruct (radio_address (pod w)); cbn; destruct (id_lot (pod w)); cbn;
    destruct (id_t (pod w)); cbn; destruct (state_progress (pod w)); cbn;
    intuition (try discriminate; try lia).
Qed.

Lemma Qltb_false a b : (b <= a)%Q -> Qltb a b = false.
Proof. exact (Qgtb_false b a). Qed.

Lemma Qltb_true a b : (a < b)%Q -> Qltb a b = true.
Proof. exact (Qgtb_true b a). Qed.

Lemma Qltb_false_le a b : Qltb a b = false -> (b <= a)%Q.
Proof. exact (Qgtb_false_le b a). Qed.

Lemma check_schedule_entries_Ok schedule w :
  fst (check_schedule_entries schedule w) = Ok tt <-> Forall rate_in_range schedule.
Proof.
  induction schedule as [|entry rest IH]; cbn [check_schedule_entries].
  - cbn. split; auto.
  - unfold bind at 1. rewrite when_run.
    destruct (Qltb (dec_Q entry) min_rate) eqn:Lo.
    { cbn. split; [discriminate|]. intros F. inversion F as [|? ? [L _] _]; subst.
      rewrite (Qltb_false _ _ L) in Lo. discriminate. }
    unfold bind at 1. rewrite when_run.
    destruct (Qgtb (dec_Q entry) max_rate) eqn:Hi.
    { cbn. split; [discriminate|]. intros F. inversion F as [|? ? [_ H] _]; subst.
      rewrite (Qgtb_false _ _ H) in Hi. discriminate. }
    rewrite IH. split.
    + intros F. constructor; [|exact F].
      split; [apply Qltb_false_le, Lo | apply Qgtb_false_le, Hi].
    + intros F. inversion F; assumption.
Qed.

Lemma basal_schedule_valid_iff schedule w :
  fst (_assert_basal_schedule_is_valid (Some schedule) w) = Ok tt <->
  List.length schedule = 48%nat /\ Forall rate_in_range schedule /\
  is_Some (var_utc_offset (pod w)) = true.
Proof.
  unfold _assert_basal_schedule_is_valid.
  unfold bind at 1. rewrite when_run.
  destruct (Nat.eqb (List.length schedule) 48) eqn:L; cbn [negb fst].
  2:{ apply Nat.eqb_neq in L. split; [discriminate | intros [? _]; contradiction]. }
  apply Nat.eqb_eq in L.
  pose proof (check_schedule_entries_Ok schedule w) as C.
  destruct (inspects_only_check_schedule_entries schedule w) as [S _].
  unfold bind at 1. destruct (check_schedule_entries schedule w) as [[[]|e] w1].
  - cbn [fst snd] in C, S. subst w1. unfold bind, get_pod. rewrite when_run.
    destruct (is_Some (var_utc_offset (pod w))); cbn.
    + split; [intros _|reflexivity]. split; [exact L|]. split; [apply C; reflexivity | reflexivity].
    + split; [discriminate | intros (_ & _ & ?); discriminate].
  - cbn [fst snd] in C. cbn. split; [discriminate|].
    intros (_ & F & _). apply C in F. discriminate.
Qed.

(** X5.  [_assert_basal_schedule_is_valid] passes exactly the schedules of 48
    entries that all lie within 0.05 and 30 U/h, on a pod whose utc offset
    is set; it raises PdmError when there is no schedule. *)
Theorem assert_basal_schedule_is_valid_passes w :
  (forall schedule,
     fst (_assert_basal_schedule_is_valid (Some schedule) w) = Ok tt <->
     List.length schedule = 48%nat /\ Forall rate_in_range schedule /\
     is_Some (var_utc_offset (pod w)) = true) /\
  _assert_basal_schedule_is_valid None w = (Raise (PdmError "No basal schedule defined"), w).
Proof.
  split; [|reflexivity]. intros schedule. apply basal_schedule_valid_iff.
Qed.

(** * Liveness inference *)

Lemma is_bolus_running_eq w :
  _is_bolus_running w
  = let p := pod w in
    let asks := (_update_status 0 true ;;
                 p' <- get_pod ;;
                 ret (BolusState_eqb (state_bolus p') Immediate)) w in
    if is_Some (state_last_updated p) && negb (BolusState_eqb (state_bolus p) Immediate)
    then (Ok false, w)
    else match last_enacted_bolus_amount p, last_enacted_bolus_start p with
         | Some amount, Some start =>
             if Qltb amount 0 then (Ok false, w)
             else if Qgtb (clock w) (amount * 45 + 10 + start) then (Ok false, w)
             else if Qltb (clock w) (amount * 35 + start) then (Ok true, w)
             else asks
         | _, _ => asks
         end.
Proof.
  unfold _is_bolus_running. unfold bind at 1. cbn [get_pod]. cbv zeta.
  destruct (is_Some (state_last_updated (pod w))
            && negb (BolusState_eqb (state_bolus (pod w)) Immediate)); [reflexivity|].
  destruct (last_enacted_bolus_amount (pod w)) as [amount|];
    [destruct (last_enacted_bolus_start (pod w)) as [start|]|]; try reflexivity.
  unfold bind at 1.
  destruct (Qltb amount 0); [reflexivity|].
  unfold bind at 1. cbn [time_time].
  destruct (Qgtb (clock w) (amount * 45 + 10 + start)); [reflexivity|].
  destruct (Qltb (clock w) (amount * 35 + start)); reflexivity.
Qed.

Lemma BolusState_eqb_eq a b : BolusState_eqb a b = true <-> a = b.
Proof. destruct a, b; cbn; split; intros H; try reflexivity; discriminate. Qed.

Lemma BasalState_eqb_eq a b : BasalState_eqb a b = true <-> a = b.
Proof. destruct a, b; cbn; split; intros H; try reflexivity; discriminate. Qed.

Lemma known_idle_bolus p :
  is_Some (state_last_updated p) = true -> state_bolus p <> Immediate ->
  is_Some (state_last_updated p) && negb (BolusState_eqb (state_bolus p) Immediate) = true.
Proof.
  intros -> N. destruct (BolusState_eqb (state_bolus p) Immediate) eqn:E; [|reflexivity].
  apply BolusState_eqb_eq in E. contradiction.
Qed.

Lemma unknown_or_bolus p :
  state_last_updated p = None \/ state_bolus p = Immediate ->
  is_Some (state_last_updated p) && negb (BolusState_eqb (state_bolus p) Immediate) = false.
Proof.
  intros [->| ->]; [reflexivity|]. cbn. apply andb_false_r.
Qed.

(** A bolus whose earliest end lies ahead is taken to run: no question to the
    pod. *)
Lemma is_bolus_running_ahead w amount start :
  state_last_updated (pod w) = None \/ state_bolus (pod w) = Immediate ->
  last_enacted_bolus_amount (pod w) = Some amount ->
  last_enacted_bolus_start (pod w) = Some start ->
  (0 <= amount)%Q -> (clock w < amount * 35 + start)%Q ->
  _is_bolus_running w = (Ok true, w).
Proof.
  intros U A S Pos Early. rewrite is_bolus_running_eq. cbv zeta.
  rewrite (unknown_or_bolus _ U), A, S.
  rewrite Qltb_false by exact Pos.
  rewrite Qgtb_false by lra.
  rewrite Qltb_true by exact Early. reflexivity.
Qed.

(** X6.  [_is_bolus_running] answers from the shadow, with no radio traffic
    and no change of state, in four cases: the status is known and the bolus
    state is not Immediate (False); the last enacted amount is negative
    (False); the latest end of the last bolus, amount * 45 + 10 seconds after
    its start, is past (False); its earliest end, amount * 35 seconds after
    its start, lies ahead (True).  With no record of a last bolus it is the
    status request and what the pod then reports. *)
Theorem is_bolus_running_from_shadow w :
  let p := pod w in
  (is_Some (state_last_updated p) = true -> state_bolus p <> Immediate ->
   _is_bolus_running w = (Ok false, w)) /\
  (forall amount start,
     state_last_updated p = None \/ state_bolus p = Immediate ->
     last_enacted_bolus_amount p = Some amount ->
     last_enacted_bolus_start p = Some start ->
     ((amount < 0)%Q -> _is_bolus_running w = (Ok false, w)) /\
     ((0 <= amount)%Q -> (amount * 45 + 10 + start < clock w)%Q ->
      _is_bolus_running w = (Ok false, w)) /\
     ((0 <= amount)%Q -> (clock w < amount * 35 + start)%Q ->
      _is_bolus_running w = (Ok true, w))) /\
  (state_last_updated p = None \/ state_bolus p = Immediate ->
   last_enacted_bolus_amount p = None \/ last_enacted_bolus_start p = None ->
   _is_bolus_running w
   = (_update_status 0 true ;;
      p' <- get_pod ;;
      ret (BolusState_eqb (state_bolus p') Immediate)) w).
Proof.
  cbv zeta. split; [|split].
  - intros K N. rewrite is_bolus_running_eq. cbv zeta.
    rewrite (known_idle_bolus _ K N). reflexivity.
  - intros amount start U A S. split; [|split].
    + intros Neg. rewrite is_bolus_running_eq. cbv zeta.
      rewrite (unknown_or_bolus _ U), A, S, Qltb_true by exact Neg. reflexivity.
    + intros Pos Late. rewrite is_bolus_running_eq. cbv zeta.
      rewrite (unknown_or_bolus _ U), A, S.
      rewrite Qltb_false by exact Pos. rewrite Qgtb_true by exact Late. reflexivity.
    + intros Pos Early. exact (is_bolus_running_ahead w amount start U A S Pos Early).
  - intros U [A|S]; rewrite is_bolus_running_eq; cbv zeta; rewrite (unknown_or_bolus _ U).
    + rewrite A. reflexivity.
    + rewrite S. destruct (last_enacted_bolus_amount (pod w)); reflexivity.
Qed.

Lemma is_temp_basal_active_eq w :
  _is_temp_basal_active w
  = let p := pod w in
    let asks := (_update_status 0 true ;;
                 p' <- get_pod ;;
                 ret (BasalState_eqb (state_basal p') TempBasal)) w in
    if is_Some (state_last_updated p) && negb (BasalState_eqb (state_basal p) TempBasal)
    then (Ok false, w)
    else match last_enacted_temp_basal_start p, last_enacted_temp_basal_duration p with
         | Some start, Some duration =>
             match last_enacted_temp_basal_amount p with
             | None => (Raise TypeError, w)
             | Some amount =>
                 if Qltb amount 0 then (Ok false, w)
                 else if Qgtb (clock w) (start + duration * 3660 + 60) then (Ok false, w)
                 else if Qltb (clock w) (start + duration * 3600 - 60) then (Ok true, w)
                 else asks
             end
         | _, _ => asks
         end.
Proof.
  unfold _is_temp_basal_active. unfold bind at 1. cbn [get_pod]. cbv zeta.
  destruct (is_Some (state_last_updated (pod w))
            && negb (BasalState_eqb (state_basal (pod w)) TempBasal)); [reflexivity|].
  destruct (last_enacted_temp_basal_start (pod w)) as [start|];
    [destruct (last_enacted_temp_basal_duration (pod w)) as [duration|]|]; try reflexivity.
  unfold bind at 1.
  destruct (last_enacted_temp_basal_amount (pod w)) as [amount|]; [|reflexivity].
  unfold bind at 1.
  destruct (Qltb amount 0); [reflexivity|].
  unfold bind at 1. cbn [time_time].
  destruct (Qgtb (clock w) (start + duration * 3660 + 60)); [reflexivity|].
  destruct (Qltb (clock w) (start + duration * 3600 - 60)); reflexivity.
Qed.

Lemma known_idle_basal p :
  is_Some (state_last_updated p) = true -> state_basal p <> TempBasal ->
  is_Some (state_last_updated p) && negb (BasalState_eqb (state_basal p) TempBasal) = true.
Proof.
  intros -> N. destruct (BasalState_eqb (state_basal p) TempBasal) eqn:E; [|reflexivity].
  apply BasalState_eqb_eq in E. contradiction.
Qed.

Lemma unknown_or_temp_basal p :
  state_last_updated p = None \/ state_basal p = TempBasal ->
  is_Some (state_last_updated p) && negb (BasalState_eqb (state_basal p) TempBasal) = false.
Proof.
  intros [->| ->]; [reflexivity|]. cbn. apply andb_false_r.
Qed.

Lemma is_temp_basal_active_ahead w start duration amount :
  state_last_updated (pod w) = None \/ state_basal (pod w) = TempBasal ->
  last_enacted_temp_basal_start (pod w) = Some start ->
  last_enacted_temp_basal_duration (pod w) = Some duration ->
  last_enacted_temp_basal_amount (pod w) = Some amount ->
  (0 <= amount)%Q ->
  (clock w <= start + duration * 3660 + 60)%Q ->
  (clock w < start + duration * 3600 - 60)%Q ->
  _is_temp_basal_active w = (Ok true, w).
Proof.
  intros U S D A Pos NotLate Early. rewrite is_temp_basal_active_eq. cbv zeta.
  rewrite (unknown_or_temp_basal _ U), S, D, A.
  rewrite Qltb_false by exact Pos.
  rewrite Qgtb_false by exact NotLate.
  rewrite Qltb_true by exact Early. reflexivity.
Qed.

(** X7.  [_is_temp_basal_active] answers from the shadow, with no radio
    traffic: False when the status is known and the basal state is not
    TempBasal; with a recorded start and duration, False for a negative last
    amount and once start + duration * 3660 + 60 is past, True before
    start + duration * 3600 - 60.  With start and duration recorded and no
    amount, the comparison of the amount with 0 raises TypeError. *)
Theorem is_temp_basal_active_from_shadow w :
  let p := pod w in
  (is_Some (state_last_updated p) = true -> state_basal p <> TempBasal ->
   _is_temp_basal_active w = (Ok false, w)) /\
  (forall start duration,
     state_last_updated p = None \/ state_basal p = TempBasal ->
     last_enacted_temp_basal_start p = Some start ->
     last_enacted_temp_basal_duration p = Some duration ->
     (last_enacted_temp_basal_amount p = None ->
      _is_temp_basal_active w = (Raise TypeError, w)) /\
     (forall amount,
        last_enacted_temp_basal_amount p = Some amount ->
        ((amount < 0)%Q -> _is_temp_basal_active w = (Ok false, w)) /\
        ((0 <= amount)%Q -> (start + duration * 3660 + 60 < clock w)%Q ->
         _is_temp_basal_active w = (Ok false, w)) /\
        ((0 <= amount)%Q -> (clock w <= start + duration * 3660 + 60)%Q ->
         (clock w < start + duration * 3600 - 60)%Q ->
         _is_temp_basal_active w = (Ok true, w)))).
Proof.
  cbv zeta. split.
  - intros K N. rewrite is_temp_basal_active_eq. cbv zeta.
    rewrite (known_idle_basal _ K N). reflexivity.
  - intros start duration U S D. split.
    + intros A. rewrite is_temp_basal_active_eq. cbv zeta.
      rewrite (unknown_or_temp_basal _ U), S, D, A. reflexivity.
    + intros amount A. split; [|split].
      * intros Neg. rewrite is_temp_basal_active_eq. cbv zeta.
        rewrite (unknown_or_temp_basal _ U), S, D, A, Qltb_true by exact Neg. reflexivity.
      * intros Pos Late. rewrite is_temp_basal_active_eq. cbv zeta.
        rewrite (unknown_or_temp_basal _ U), S, D, A.
        rewrite Qltb_false by exact Pos. rewrite Qgtb_true by exact Late. reflexivity.
      * intros Pos NotLate Early.
        exact (is_temp_basal_active_ahead w start duration amount U S D A Pos NotLate Early).
Qed.

(** * Saving and resuming *)

(** X8.  [_savePod] writes the two counters of the radio and the last nonce
    and seed of the nonce generator into the pod and hands it to [Save]; it
    touches neither the radio nor the generator.  When [Save] fails the pod
    in memory has the four values all the same, nothing reaches the disk,
    and the error is PdmError("Pod status was not saved"). *)
Theorem savePod_writes_back w :
  let w' := snd (_savePod w) in
  pod w' = saved_pod w /\
  radio_message_sequence (pod w') = radio_messageSequence w /\
  radio_packet_sequence (pod w') = radio_packetSequence w /\
  nonce_last (pod w') = lastNonce (nonce w) /\
  nonce_seed (pod w') = seed (nonce w) /\
  trace w' = trace w ++ [ESave (saved_pod w) (disk_ok w)] /\
  radio_messageSequence w' = radio_messageSequence w /\
  radio_packetSequence w' = radio_packetSequence w /\
  nonce w' = nonce w /\
  (disk_ok w = true -> fst (_savePod w) = Ok tt /\ saved w' = Some (saved_pod w)) /\
  (disk_ok w = false ->
   fst (_savePod w) = Raise (PdmError "Pod status was not saved") /\ saved w' = saved w).
Proof.
  unfold _savePod, try_except, bind, pod_Save, saved_pod. cbn.
  destruct (disk_ok w) eqn:D; cbn; destruct (pod w); cbn;
    repeat split; try reflexivity; intros; try discriminate.
Qed.

Lemma closed_radio w :
  radio_messageSequence (closed w) = radio_messageSequence w /\
  radio_packetSequence (closed w) = radio_packetSequence w /\
  nonce (closed w) = nonce w /\ clock (closed w) = clock w /\
  pod (closed w) = saved_pod w /\ lock_busy (closed w) = lock_busy w /\
  radio_script (closed w) = radio_script w.
Proof. unfold closed. destruct (disk_ok w); cbn; auto 10. Qed.

(** X9.  A public command whose save succeeds leaves on disk the pod it
    holds, and a [Pdm] built from that pod starts where the command ended:
    with the same radio counters, and with a nonce generator made from the
    last nonce and the seed of the one before. *)
Theorem saved_pod_resumes {A} (body : M A) w script now dates busy disk :
  disk_ok (snd (body w)) = true ->
  let w' := snd (pdm_command body w) in
  let again := Pdm_init (pod w') script now dates busy disk in
  saved w' = Some (pod w') /\
  radio_messageSequence again = radio_messageSequence w' /\
  radio_packetSequence again = radio_packetSequence w' /\
  nonce again
  = Nonce_new (id_lot (pod w')) (id_t (pod w')) (lastNonce (nonce w')) (seed (nonce w')).
Proof.
  intros D. cbv zeta. rewrite pdm_command_run. unfold finish. cbn [snd].
  destruct (closed_radio (snd (body w))) as (M1 & P1 & N1 & _ & _).
  destruct (closed_pod (snd (body w))) as (M2 & P2 & L2 & S2).
  split; [apply closed_saved, D|].
  unfold Pdm_init. cbn [radio_messageSequence radio_packetSequence nonce].
  rewrite M1, P1, N1, M2, P2, L2, S2. auto.
Qed.

(** X10.  The [except] clauses and the [finally] of the public commands: the
    command ends with a disconnect and a save; a failed save overrides every
    outcome of the body, a value as well as an exception; otherwise a value
    is returned, an exception of the OmnipyError family is passed on, and
    any other exception becomes PdmError("Unexpected error"). *)
Theorem public_command_outcome {A} (body : M A) w :
  let r := fst (body w) in
  let w1 := snd (body w) in
  let outcome := fst (pdm_command body w) in
  snd (pdm_command body w) = closed w1 /\
  trace (closed w1) = trace w1 ++ [EDisconnect; ESave (saved_pod w1) (disk_ok w1)] /\
  (disk_ok w1 = false -> outcome = Raise (PdmError "Pod status was not saved")) /\
  (disk_ok w1 = true ->
   (forall a, r = Ok a -> outcome = Ok a) /\
   (forall e, r = Raise e -> is_OmnipyError e = true -> outcome = Raise e) /\
   (forall e, r = Raise e -> is_OmnipyError e = false ->
              outcome = Raise (PdmError "Unexpected error"))).
Proof.
  cbv zeta. rewrite pdm_command_run. unfold finish. cbn [fst snd].
  split; [reflexivity|]. split; [apply closed_trace|]. split.
  - intros ->. reflexivity.
  - intros ->. repeat split.
    + intros a ->. reflexivity.
    + intros e -> ->. reflexivity.
    + intros e -> ->. reflexivity.
Qed.

(** * Status and busy *)

Lemma bytes_of_bytes l : forallb is_byte l = true -> bytes_of l = Ok l.
Proof. unfold bytes_of. intros ->. reflexivity. Qed.

Lemma bytes_of_byte x : 0 <= x < 256 -> bytes_of [x] = Ok [x].
Proof. intros H. apply bytes_of_bytes. cbn. unfold is_byte. lia. Qed.

Lemma bytes_of_not_byte x : ~ 0 <= x < 256 -> bytes_of [x] = Raise ValueError.
Proof.
  intros H. unfold bytes_of. cbn. unfold is_byte.
  destruct ((0 <=? x) && (x <? 256)) eqn:E; [exfalso; lia | reflexivity].
Qed.

Lemma assert_pod_address_assigned_passes w :
  is_Some (radio_address (pod w)) = true -> _assert_pod_address_assigned w = (Ok tt, w).
Proof. unfold _assert_pod_address_assigned, bind, get_pod. intros ->. reflexivity. Qed.

(** X11.  [updatePodStatus] with update type 0 on a pod whose status was read
    less than 60 seconds ago returns at once: it does not take the lock (a
    busy lock does not stop it) and sends nothing; what is left is the
    disconnect and the save of the [finally]. *)
Theorem updatePodStatus_fresh w t :
  is_Some (radio_address (pod w)) = true ->
  state_last_updated (pod w) = Some t ->
  (clock w - t < 60)%Q ->
  updatePodStatus 0 w
  = (if disk_ok w then Ok tt else Raise (PdmError "Pod status was not saved"), closed w) /\
  trace (closed w) = trace w ++ [EDisconnect; ESave (saved_pod w) (disk_ok w)].
Proof.
  intros A U F. split; [|apply closed_trace].
  unfold updatePodStatus. rewrite pdm_command_run.
  rewrite (bind_eq _ _ _ _ _ (assert_pod_address_assigned_passes w A)).
  unfold bind at 1. cbn [get_pod]. unfold bind at 1. cbn [time_time].
  rewrite U, Qltb_true by exact F. cbn [Z.eqb andb].
  unfold finish, ret. cbn [fst snd]. reflexivity.
Qed.

(** X12.  Otherwise (another update type, a status never read, or one read
    60 seconds ago or more) [updatePodStatus] with the lock free sends the
    status request first: command 0x0e with the update type as its one
    byte, no nonce, stay_connected False.  An update type that is no byte
    ends in PdmError("Unexpected error") with nothing sent. *)
Theorem updatePodStatus_asks w update_type :
  is_Some (radio_address (pod w)) = true ->
  lock_busy w = false ->
  (update_type <> 0 \/ state_last_updated (pod w) = None \/
   exists t, state_last_updated (pod w) = Some t /\ (60 <= clock w - t)%Q) ->
  (0 <= update_type < 256 ->
   exists t,
     trace (snd (updatePodStatus update_type w))
     = trace w ++ ESend (plain_message 0x0e [update_type] w) false false false None :: t) /\
  (~ 0 <= update_type < 256 ->
   updatePodStatus update_type w
   = (Raise (PdmError (if disk_ok w then "Unexpected error" else "Pod status was not saved")),
      closed w)).
Proof.
  intros A L Stale.
  assert (E : updatePodStatus update_type w
              = finish (pdmlock (_update_status update_type false) w)).
  { unfold updatePodStatus. rewrite pdm_command_run. f_equal.
    rewrite (bind_eq _ _ _ _ _ (assert_pod_address_assigned_passes w A)).
    unfold bind at 1. cbn [get_pod]. unfold bind at 1. cbn [time_time].
    destruct Stale as [N|[N|(t & N & O)]].
    - apply Z.eqb_neq in N. rewrite N. reflexivity.
    - rewrite N, andb_false_r. reflexivity.
    - rewrite N, Qltb_false by exact O. rewrite andb_false_r. reflexivity. }
  rewrite E. unfold pdmlock. rewrite L. unfold _update_status. split.
  - intros B. unfold finish. cbn [snd]. rewrite closed_trace.
    rewrite (bytes_of_byte _ B). unfold bind at 1. cbn [liftR].
    unfold bind at 1. cbn [_createMessage].
    match goal with
    | |- context [_sendMessage ?m ?a ?b ?c ?d ?e ?f ?g ?h w] =>
        destruct (_sendMessage m a b c d e f g h w) as [r w1] eqn:S
    end.
    apply sendMessage_first_event in S. destruct S as (m' & sc' & w0 & t & E0 & T).
    cbn in E0. inversion E0; subst; clear E0.
    cbn [snd]. rewrite T. eexists. rewrite <- app_assoc. cbn [app]. reflexivity.
  - intros B. rewrite (bytes_of_not_byte _ B). unfold bind at 1. cbn [liftR].
    unfold finish. cbn. destruct (disk_ok w); reflexivity.
Qed.

(** X13.  [is_busy] with the lock held by someone else answers True, and with
    the lock free and a pod known not to deliver a bolus it answers False; in
    both cases it sends nothing, saves nothing, and only disconnects. *)
Theorem is_busy_without_traffic w :
  (lock_busy w = true -> is_busy w = (Ok true, log EDisconnect w)) /\
  (lock_busy w = false ->
   is_Some (state_last_updated (pod w)) = true -> state_bolus (pod w) <> Immediate ->
   is_busy w = (Ok false, log EDisconnect w)).
Proof.
  unfold is_busy, try_finally, try_except, pdmlock, radio_disconnect. split.
  - intros ->. reflexivity.
  - intros -> K N. rewrite is_bolus_running_eq. cbv zeta.
    rewrite (known_idle_bolus _ K N). reflexivity.
Qed.

(** * What the delivery commands leave behind *)

Lemma time_time_Ok w t w' : time_time w = (Ok t, w') -> t = clock w /\ w' = w.
Proof. unfold time_time. intros H; inversion H; auto. Qed.

Lemma modify_pod_Ok f w u w' : modify_pod f w = (Ok u, w') -> w' = with_pod (f (pod w)) w.
Proof. unfold modify_pod. intros H; inversion H; auto. Qed.

Lemma finally_Ok w w' :
  (radio_disconnect ;; _savePod) w = (Ok tt, w') -> w' = closed w /\ disk_ok w = true.
Proof.
  rewrite finally_run. destruct (disk_ok w); intros H; inversion H; auto.
Qed.

(** A run that returned, taken apart along its binds. *)
Ltac unbind H :=
  repeat (let a := fresh "a" in
          let w1 := fresh "w" in
          let E := fresh "E" in
          apply bind_Ok in H as (a & w1 & E & H);
          try first
            [ apply when_raise_Ok in E as [E ->]
            | apply get_pod_Ok in E as [-> ->]
            | apply time_time_Ok in E as [-> ->]
            | apply modify_pod_Ok in E as ->
            | apply liftR_Ok in E as [E ->] ]).

(** X14.  A bolus that returned has left the shadow with the bolus state
    Immediate and with its own start time and amount as the last enacted
    bolus; the amount was positive.  From such a shadow, for amount * 35
    seconds from the start, [_is_bolus_running] answers True without asking
    the pod, and so a further [bolus] is refused with PdmError and nothing
    is sent. *)
Theorem bolus_sets_busy a w w' :
  bolus a w = (Ok tt, w') ->
  state_bolus (pod w') = Immediate /\
  last_enacted_bolus_start (pod w') = Some (clock w') /\
  last_enacted_bolus_amount (pod w') = Some (dec_Q a) /\
  (0 < dec_Q a)%Q /\
  forall later,
    pod later = pod w' -> (clock later < dec_Q a * 35 + clock w')%Q ->
    _is_bolus_running later = (Ok true, later) /\
    (lock_busy later = false ->
     forall b, exists msg, bolus b later = finish (Raise (PdmError msg), later)).
Proof.
  intros H. apply pdm_command_Ok in H as (w1 & H & F).
  apply finally_Ok in F as [-> _]. apply pdmlock_Ok in H as [_ H].
  cbv zeta in H. unbind H. apply modify_pod_Ok in H. subst w1.
  match goal with
  | X : _immediate_bolus _ _ _ _ _ _ ?w0 = (Ok _, ?wk) |- _ =>
      rename X into Sent; rename wk into sent; rename w0 into before
  end.
  unfold _immediate_bolus in Sent.
  apply bind_Ok in Sent as ([outer inner] & wb & Bodies & _).
  apply liftR_Ok in Bodies as [Bodies _].
  apply immediate_bolus_bodies_Ok in Bodies as (R & _ & _).
  match goal with
  | X : (dec_int _ =? 0) = false |- _ => apply Z.eqb_neq in X; rename X into NZ
  end.
  match goal with
  | X : negb (BolusState_eqb (state_bolus (pod sent)) Immediate) = false |- _ =>
      apply negb_false_iff, BolusState_eqb_eq in X; rename X into Confirmed
  end.
  assert (Pos : (0 < dec_Q a)%Q).
  { apply (dec_int_mul_pos a 20); lia. }
  match goal with
  | |- context [closed ?W0] => remember W0 as W eqn:HW
  end.
  destruct (closed_radio W) as (_ & _ & _ & C & P & _). rewrite C, P.
  assert (Fields : state_bolus (saved_pod W) = Immediate /\
                   last_enacted_bolus_start (saved_pod W) = Some (clock sent) /\
                   last_enacted_bolus_amount (saved_pod W) = Some (dec_Q a) /\
                   clock W = clock sent).
  { subst W. unfold saved_pod. cbn [pod with_pod clock].
    destruct (pod sent). cbn in Confirmed |- *. auto. }
  destruct Fields as (F1 & F2 & F3 & F4). rewrite F4.
  split; [exact F1|]. split; [exact F2|]. split; [exact F3|]. split; [exact Pos|].
  clear HW.
  intros later Same Early.
  assert (Run : _is_bolus_running later = (Ok true, later)).
  { apply (is_bolus_running_ahead later (dec_Q a) (clock sent)).
    - right. rewrite Same. exact F1.
    - rewrite Same. exact F3.
    - rewrite Same. exact F2.
    - lra.
    - exact Early. }
  split; [exact Run|].
  intros L b. unfold bolus. rewrite pdm_command_run. unfold pdmlock. rewrite L.
  destruct (inspects_only_cases _ later inspects_only_address_assigned) as [G1|[msg G1]].
  2:{ exists msg. rewrite (bind_raise _ _ _ _ _ G1). reflexivity. }
  rewrite (bind_eq _ _ _ _ _ G1).
  destruct (inspects_only_cases _ later inspects_only_can_generate_nonce) as [G2|[msg G2]].
  2:{ exists msg. rewrite (bind_raise _ _ _ _ _ G2). reflexivity. }
  rewrite (bind_eq _ _ _ _ _ G2).
  eexists. erewrite bind_raise; [reflexivity|].
  unfold _assert_immediate_bolus_not_active. rewrite (bind_eq _ _ _ _ _ Run). reflexivity.
Qed.

(** X15.  A [cancelBolus] that returned has recorded the amount -1 and its
    own time as the last enacted bolus, with the pod no longer in the state
    Immediate; from such a shadow [_is_bolus_running] answers False without
    asking the pod, whatever the clock says. *)
Theorem cancelBolus_settles beep w w' :
  cancelBolus beep w = (Ok tt, w') ->
  state_bolus (pod w') <> Immediate /\
  last_enacted_bolus_amount (pod w') = Some (-1)%Q /\
  last_enacted_bolus_start (pod w') = Some (clock w') /\
  forall later, pod later = pod w' -> _is_bolus_running later = (Ok false, later).
Proof.
  intros H. apply pdm_command_Ok in H as (w1 & H & F).
  apply finally_Ok in F as [-> _]. apply pdmlock_Ok in H as [_ H].
  unbind H.
  match goal with
  | X : _is_bolus_running _ = (Ok ?b, _) |- _ => destruct b; [|discriminate H]
  end.
  unbind H.
  match goal with
  | X : _cancelActivity _ _ _ _ _ = (Ok _, ?wk) |- _ => rename wk into sent
  end.
  destruct (BolusState_eqb (state_bolus (pod sent)) Immediate) eqn:Still; [discriminate H|].
  unbind H. apply modify_pod_Ok in H. subst w1.
  match goal with
  | |- context [closed ?W0] => remember W0 as W eqn:HW
  end.
  destruct (closed_radio W) as (_ & _ & _ & C & P & _). rewrite C, P.
  assert (Fields : state_bolus (saved_pod W) <> Immediate /\
                   last_enacted_bolus_amount (saved_pod W) = Some (-1)%Q /\
                   last_enacted_bolus_start (saved_pod W) = Some (clock sent) /\
                   clock W = clock sent).
  { subst W. unfold saved_pod. cbn [pod with_pod clock].
    destruct (pod sent). cbn in Still |- *.
    repeat split; try reflexivity. intros ->. discriminate Still. }
  destruct Fields as (F1 & F2 & F3 & F4). rewrite F4.
  split; [exact F1|]. split; [exact F2|]. split; [exact F3|].
  clear HW. intros later Same. rewrite is_bolus_running_eq. cbv zeta. rewrite Same.
  destruct (is_Some (state_last_updated (saved_pod W))
            && negb (BolusState_eqb (state_bolus (saved_pod W)) Immediate)); [reflexivity|].
  rewrite F2, F3. reflexivity.
Qed.

(** X16.  A [setTempBasal] that returned has left the shadow with the basal
    state TempBasal and with its own duration, time and rate as the last
    enacted temp basal; the duration is positive, and int(hours * 2) as the
    decimal context computes it lies between 1 and 24 (which a duration a
    rounding error below half an hour meets).  From such a shadow, for a
    rate that is not negative and until a minute before the duration is
    over, [_is_temp_basal_active] answers True without asking the pod. *)
Theorem setTempBasal_sets_active rate hours confidence w w' :
  setTempBasal rate hours confidence w = (Ok tt, w') ->
  state_basal (pod w') = TempBasal /\
  last_enacted_temp_basal_duration (pod w') = Some (dec_Q hours) /\
  last_enacted_temp_basal_start (pod w') = Some (clock w') /\
  last_enacted_temp_basal_amount (pod w') = Some (dec_Q rate) /\
  (0 < dec_Q hours)%Q /\
  1 <= dec_int (dec_mul hours (Decimal_of_Z 2)) <= 24 /\
  forall later,
    pod later = pod w' -> (0 <= dec_Q rate)%Q ->
    (clock later < clock w' + dec_Q hours * 3600 - 60)%Q ->
    _is_temp_basal_active later = (Ok true, later).
Proof.
  intros H. apply pdm_command_Ok in H as (w1 & H & F).
  apply finally_Ok in F as [-> _]. apply pdmlock_Ok in H as [_ H].
  cbv zeta in H. unbind H. unfold setTempBasal_program in H. unbind H.
  match goal with
  | X : _sendMessage _ _ _ _ _ _ _ _ _ _ = (Ok _, ?wk) |- _ => rename wk into sent
  end.
  destruct (BasalState_eqb (state_basal (pod sent)) TempBasal) eqn:Confirmed;
    [|discriminate H].
  apply BasalState_eqb_eq in Confirmed. cbn [negb] in H.
  unbind H. apply modify_pod_Ok in H. subst w1.
  match goal with
  | X : ((dec_int (dec_mul hours _) >? 24) || _) = false |- _ =>
      apply orb_false_iff in X as [Short Long]
  end.
  assert (Half : (0 < dec_Q hours)%Q).
  { apply (dec_int_mul_pos hours 2); lia. }
  match goal with
  | |- context [closed ?W0] => remember W0 as W eqn:HW
  end.
  destruct (closed_radio W) as (_ & _ & _ & C & P & _). rewrite C, P.
  assert (Fields : state_basal (saved_pod W) = TempBasal /\
                   last_enacted_temp_basal_duration (saved_pod W) = Some (dec_Q hours) /\
                   last_enacted_temp_basal_start (saved_pod W) = Some (clock sent) /\
                   last_enacted_temp_basal_amount (saved_pod W) = Some (dec_Q rate) /\
                   clock W = clock sent).
  { subst W. unfold saved_pod. cbn [pod with_pod clock].
    destruct (pod sent). cbn in Confirmed |- *. auto. }
  destruct Fields as (F1 & F2 & F3 & F4 & F5). rewrite F5.
  split; [exact F1|]. split; [exact F2|]. split; [exact F3|]. split; [exact F4|].
  split; [exact Half|]. split; [lia|].
  clear HW. intros later Same Pos Early.
  apply (is_temp_basal_active_ahead later (clock sent) (dec_Q hours) (dec_Q rate)).
  - right. rewrite Same. exact F1.
  - rewrite Same. exact F3.
  - rewrite Same. exact F2.
  - rewrite Same. exact F4.
  - exact Pos.
  - lra.
  - exact Early.
Qed.

(** X17.  A [set_basal_schedule] that returned was given a schedule of 48
    entries, each within 0.05 and 30 U/h; the pod reported the basal state
    Program, and the schedule is now the [var_basal_schedule] of the
    shadow. *)
Theorem set_basal_schedule_accepted schedule w w' :
  set_basal_schedule schedule w = (Ok tt, w') ->
  exists entries,
    schedule = Some entries /\ List.length entries = 48%nat /\
    Forall rate_in_range entries /\
    state_basal (pod w') = Program /\ var_basal_schedule (pod w') = Some entries.
Proof.
  intros H. apply pdm_command_Ok in H as (w1 & H & F).
  apply finally_Ok in F as [-> _]. apply pdmlock_Ok in H as [_ H].
  unbind H.
  match goal with
  | X : _assert_basal_schedule_is_valid _ ?w0 = (Ok _, _) |- _ =>
      rename X into Valid; rename w0 into checked
  end.
  destruct schedule as [entries|]; [|discriminate Valid].
  assert (V : fst (_assert_basal_schedule_is_valid (Some entries) checked) = Ok tt).
  { rewrite Valid. cbn [fst]. f_equal. match goal with |- ?u = tt => destruct u end.
    reflexivity. }
  apply basal_schedule_valid_iff in V as (Len & Range & _).
  match goal with
  | X : _set_basal_schedule _ _ = (Ok _, ?wk) |- _ => rename wk into sent
  end.
  destruct (BasalState_eqb (state_basal (pod sent)) Program) eqn:Confirmed; [|discriminate H].
  apply BasalState_eqb_eq in Confirmed. cbn [negb] in H.
  apply modify_pod_Ok in H. subst w1.
  exists entries. split; [reflexivity|]. split; [exact Len|]. split; [exact Range|].
  match goal with
  | |- context [closed ?W0] => remember W0 as W eqn:HW
  end.
  destruct (closed_radio W) as (_ & _ & _ & _ & P & _). rewrite P.
  subst W. unfold saved_pod. cbn [pod with_pod].
  destruct (pod sent). cbn in Confirmed |- *. auto.
Qed.

(** * Cancelling and acknowledging *)

Lemma cancel_flags_byte (cancelBasal cancelBolus cancelTempBasal beep : bool) :
  (let c := if beep then 0x60 else 0 in
   let c := if cancelBolus then Z.lor c 0x04 else c in
   let c := if cancelTempBasal then Z.lor c 0x02 else c in
   if cancelBasal then Z.lor c 0x01 else c)
  = cancel_flags cancelBasal cancelBolus cancelTempBasal beep /\
  0 <= cancel_flags cancelBasal cancelBolus cancelTempBasal beep < 256.
Proof.
  destruct cancelBasal, cancelBolus, cancelTempBasal, beep; cbn; split; (reflexivity || lia).
Qed.

(** X18.  The first thing [_cancelActivity] does is to send command 0x1f with
    a nonce and stay_connected True; its body is four zero bytes and one
    flag byte, 0x60 for the beep plus 4 for the bolus, 2 for the temp basal
    and 1 for the basal.  The flag byte is always a byte, so the method does
    not fail before the send. *)
Theorem cancelActivity_message cancelBasal cancelBolus cancelTempBasal beep w :
  exists t,
    trace (snd (_cancelActivity cancelBasal cancelBolus cancelTempBasal beep w))
    = trace w
      ++ ESend (nonced_message 0x1f
                  [0; 0; 0; 0; cancel_flags cancelBasal cancelBolus cancelTempBasal beep] w)
           true false false None :: t.
Proof.
  unfold _cancelActivity. unfold bind at 1. cbn [liftR pack_I Z.leb Z.ltb Z.compare andb].
  cbv zeta.
  destruct (cancel_flags_byte cancelBasal cancelBolus cancelTempBasal beep) as [F B].
  cbv zeta in F. rewrite F.
  rewrite (bytes_of_byte _ B). unfold bind at 1. cbn [liftR].
  unfold bind at 1. cbn [_createMessage].
  match goal with
  | |- context [_sendMessage ?m ?a ?b ?c ?d ?e ?f ?g ?h w] =>
      destruct (_sendMessage m a b c d e f g h w) as [r w1] eqn:S
  end.
  apply sendMessage_first_event in S. destruct S as (m' & sc' & w0 & t & E0 & T).
  rewrite apply_nonce_true in E0. inversion E0; subst; clear E0.
  cbn [snd]. rewrite T. exists t. unfold nonced_message. cbn.
  destruct (fst (getNext (nonce w)) =? FAKE_NONCE); reflexivity.
Qed.

Lemma ready_passes w :
  ready (pod w) ->
  _assert_pod_address_assigned w = (Ok tt, w) /\
  _assert_can_generate_nonce w = (Ok tt, w) /\
  _assert_not_faulted w = (Ok tt, w) /\
  _assert_status_running w = (Ok tt, w).
Proof.
  intros (A & L & T & F & R).
  unfold _assert_pod_address_assigned, _assert_can_generate_nonce, _assert_not_faulted,
    _assert_status_running, bind, get_pod.
  rewrite A, L, T, F. destruct R as [-> | ->]; cbn; auto.
Qed.

(** X19.  With nothing to cancel the two cancel commands differ.  On a pod
    that passes the guards and is found to deliver no bolus, [cancelBolus]
    ends in PdmError("Bolus is not running"); [cancelTempBasal], on a pod
    found to run no temp basal, returns normally.  Neither sends a cancel
    command: what follows the test is the disconnect and the save. *)
Theorem cancel_when_nothing_runs beep w :
  lock_busy w = false -> ready (pod w) ->
  (forall w1,
     _is_bolus_running w = (Ok false, w1) ->
     cancelBolus beep w = finish (Raise (PdmError "Bolus is not running"), w1)) /\
  (forall w1 w2,
     _is_bolus_running w = (Ok false, w1) -> ready (pod w1) ->
     _is_temp_basal_active w1 = (Ok false, w2) ->
     cancelTempBasal beep w = finish (Ok tt, w2)).
Proof.
  intros L R. destruct (ready_passes w R) as (G1 & G2 & G3 & G4). split.
  - intros w1 B. unfold cancelBolus. rewrite pdm_command_run. f_equal.
    unfold pdmlock. rewrite L.
    rewrite (bind_eq _ _ _ _ _ G1), (bind_eq _ _ _ _ _ G2), (bind_eq _ _ _ _ _ G3),
      (bind_eq _ _ _ _ _ G4), (bind_eq _ _ _ _ _ B).
    reflexivity.
  - intros w1 w2 B R1 T. destruct (ready_passes w1 R1) as (_ & _ & H3 & H4).
    unfold cancelTempBasal. rewrite pdm_command_run. f_equal.
    unfold pdmlock. rewrite L.
    rewrite (bind_eq _ _ _ _ _ G1), (bind_eq _ _ _ _ _ G2).
    unfold _assert_immediate_bolus_not_active at 1.
    unfold bind at 1. rewrite (bind_eq _ _ _ _ _ B). cbn [when ret].
    rewrite (bind_eq _ _ _ _ _ H3), (bind_eq _ _ _ _ _ H4), (bind_eq _ _ _ _ _ T).
    reflexivity.
Qed.

(** X20.  [acknowledge_alerts], once its guard has passed and with the lock
    free, sends command 0x11 first: four zero bytes and the alert mask, with
    a nonce and stay_connected True.  A mask that is no byte ends in
    PdmError("Unexpected error") with nothing sent. *)
Theorem acknowledge_alerts_sends w alert_mask :
  fst (_assert_can_acknowledge_alerts w) = Ok tt ->
  lock_busy w = false ->
  (0 <= alert_mask < 256 ->
   exists t,
     trace (snd (acknowledge_alerts alert_mask w))
     = trace w ++ ESend (nonced_message 0x11 [0; 0; 0; 0; alert_mask] w)
                    true false false None :: t) /\
  (~ 0 <= alert_mask < 256 ->
   acknowledge_alerts alert_mask w
   = (Raise (PdmError (if disk_ok w then "Unexpected error" else "Pod status was not saved")),
      closed w)).
Proof.
  intros G L.
  assert (G' : _assert_can_acknowledge_alerts w = (Ok tt, w)).
  { destruct (inspects_only_cases _ w inspects_only_can_acknowledge_alerts) as [E|[msg E]];
      [exact E | rewrite E in G; discriminate G]. }
  assert (E : acknowledge_alerts alert_mask w = finish (_acknowledge_alerts alert_mask w)).
  { unfold acknowledge_alerts. rewrite pdm_command_run. f_equal.
    rewrite (bind_eq _ _ _ _ _ G'). unfold pdmlock. rewrite L. reflexivity. }
  rewrite E. unfold _acknowledge_alerts. split.
  - intros B. unfold finish. cbn [snd]. rewrite closed_trace.
    rewrite bytes_of_bytes by (cbn; unfold is_byte; lia).
    unfold bind at 1. cbn [liftR]. unfold bind at 1. cbn [_createMessage].
    match goal with
    | |- context [_sendMessage ?m ?a ?b ?c ?d ?e ?f ?g ?h w] =>
        destruct (_sendMessage m a b c d e f g h w) as [r w1] eqn:S
    end.
    apply sendMessage_first_event in S. destruct S as (m' & sc' & w0 & t & E0 & T).
    rewrite apply_nonce_true in E0. inversion E0; subst; clear E0.
    cbn [snd]. rewrite T. rewrite <- app_assoc. cbn [app]. unfold nonced_message.
    destruct (fst (getNext (nonce w)) =? FAKE_NONCE); eexists; reflexivity.
  - intros B.
    assert (V : bytes_of [0; 0; 0; 0; alert_mask] = Raise ValueError).
    { unfold bytes_of. cbn. unfold is_byte.
      destruct ((0 <=? alert_mask) && (alert_mask <? 256)) eqn:X; [exfalso; lia | reflexivity]. }
    rewrite V. unfold bind at 1. cbn [liftR].
    unfold finish. cbn. destruct (disk_ok w); reflexivity.
Qed.

(** * Time of day *)

(** X21.  For a time of day, [_set_basal_schedule] computes a half hour
    between 0 and 47 and between 1 and 1800 seconds until the next one, and
    the two together are the time: the seconds since midnight are
    currentHalfHour * 1800 + (1800 - secondsUntilHalfHour).  So the half hour
    is a byte and eight times the seconds fit the 16-bit field they are
    packed into. *)
Theorem half_hour_timing_of_day podDate :
  0 <= hour podDate <= 23 -> 0 <= minute podDate <= 59 -> 0 <= second podDate <= 59 ->
  let currentHalfHour := fst (half_hour_timing podDate) in
  let secondsUntilHalfHour := snd (half_hour_timing podDate) in
  0 <= currentHalfHour <= 47 /\
  1 <= secondsUntilHalfHour <= 1800 /\
  currentHalfHour * 1800 + (1800 - secondsUntilHalfHour)
  = hour podDate * 3600 + minute podDate * 60 + second podDate /\
  bytes_of [currentHalfHour] = Ok [currentHalfHour] /\
  pack_H (secondsUntilHalfHour * 8) = Ok (u16 (secondsUntilHalfHour * 8)).
Proof.
  intros Hh Hm Hs. unfold half_hour_timing.
  destruct (minute podDate <? 30) eqn:M; cbn [fst snd];
    (split; [lia|]); (split; [lia|]); (split; [lia|]);
    (split; [apply bytes_of_byte; lia|]);
    unfold pack_H;
    match goal with
    | |- (if ?c then _ else _) = _ => destruct c eqn:C; [reflexivity | exfalso; lia]
    end.
Qed.

(** * Responses *)

Lemma dispatch_passed_over contents request_msg w :
  forallb passed_over contents = true -> dispatch contents request_msg w = (Ok None, w).
Proof.
  induction contents as [|[ctype content] rest IH]; [reflexivity|].
  cbn [forallb]. intros H. apply andb_true_iff in H as [P R]. specialize (IH R).
  unfold passed_over in P. cbn [fst snd] in P.
  apply andb_true_iff in P as [P P6]. apply andb_true_iff in P as [P P2].
  apply andb_true_iff in P as [P1 Pd].
  apply negb_true_iff in P1, Pd, P2.
  cbn [dispatch]. rewrite P1, Pd, P2. cbn [when]. unfold bind at 1. cbn [ret].
  destruct (ctype =? 6); [|exact IH].
  destruct content as [|c0 tl]; [discriminate P6|].
  cbn [negb orb] in P6. apply negb_true_iff in P6. rewrite P6. exact IH.
Qed.

(** X22.  A response made only of commands that the loop of [_sendMessage]
    passes over (types other than 0x01, 0x1d and 0x02; errors 0x06 included
    unless their first byte is the bad-nonce code 0x14) changes nothing in
    the pod shadow and raises nothing: a send without nonce then is one
    exchange, after which the radio holds the counters of that exchange. *)
Theorem sendMessage_passes_over message retry stay_connected request_msg resync_allowed
    low_tx high_tx address2 w step rest contents :
  radio_script w = step :: rest ->
  r_outcome step = Responds contents ->
  forallb passed_over contents = true ->
  _sendMessage message false retry stay_connected request_msg resync_allowed low_tx high_tx
    address2 w
  = (Ok tt, exchanged message stay_connected low_tx high_tx address2 step rest w) /\
  pod (exchanged message stay_connected low_tx high_tx address2 step rest w) = pod w.
Proof.
  intros Script Answer Passed. split; [|reflexivity].
  rewrite sendMessage_unfold. unfold sendMessage_body.
  unfold bind at 1. cbn [apply_nonce ret fst snd].
  unfold bind at 1, attempt.
  rewrite (radio_send_step _ _ _ _ _ _ _ _ Script), Answer.
  unfold bind at 1. rewrite (dispatch_passed_over _ _ _ Passed). reflexivity.
Qed.

(** * Alerts *)

Ltac refuse_or_pass :=
  match goal with
  | |- exists msg, bind (when ?b _) _ _ = _ =>
      let D := fresh "D" in
      destruct b eqn:D;
      [eexists; reflexivity | unfold bind at 1; cbn [when ret]; cbv beta iota]
  end.

(** X23.  [_configure_alert] refuses, with PdmError and before anything is
    sent or changed: both limits or none; a reservoir limit without
    trigger_reservoir, a minutes limit with it; a duration above 511 or
    below 0; minutes above 4800 or below 0; a reservoir limit above 50 or
    below 0. *)
Theorem configure_alert_rejects alert_bit activate trigger_auto_off duration_minutes
    beep_repeat_type beep_type alert_after_minutes alert_after_reservoir trigger_reservoir
    stay_connected w :
  ~ alert_arguments_valid duration_minutes alert_after_minutes alert_after_reservoir
      trigger_reservoir ->
  exists msg,
    _configure_alert alert_bit activate trigger_auto_off duration_minutes beep_repeat_type
      beep_type alert_after_minutes alert_after_reservoir trigger_reservoir stay_connected w
    = (Raise (PdmError msg), w).
Proof.
  intros Invalid. unfold alert_arguments_valid in Invalid. unfold _configure_alert.
  destruct alert_after_minutes as [m|], alert_after_reservoir as [r|];
    try (eexists; reflexivity).
  - destruct trigger_reservoir; [eexists; reflexivity|].
    cbn [when]. unfold bind at 1. cbn [ret].
    destruct (duration_minutes >? 511) eqn:D1; [eexists; reflexivity|].
    refuse_or_pass. refuse_or_pass. refuse_or_pass. unfold bind at 1. cbn [when ret]. unfold bind at 1. cbn [when ret].
    exfalso. apply Invalid. repeat split; lia.
  - destruct trigger_reservoir; [|eexists; reflexivity].
    cbn [when negb]. unfold bind at 1. cbn [ret].
    destruct (duration_minutes >? 511) eqn:D1; [eexists; reflexivity|].
    refuse_or_pass. unfold bind at 1. cbn [when ret]. unfold bind at 1. cbn [when ret].
    refuse_or_pass. refuse_or_pass.
    exfalso. apply Invalid.
    match goal with
    | X : Qgtb r 50 = false |- _ => apply Qgtb_false_le in X
    end.
    match goal with
    | X : Qltb r 0 = false |- _ => apply Qltb_false_le in X
    end.
    repeat split; try lia; assumption.
Qed.

(** The double nearest to a number between 0 and 500 is between 0 and 500,
    and so is its integer part. *)
Lemma float_round_within x :
  (0 <= x)%Q -> (x <= 500)%Q -> 0 <= Q_int (float_round x) <= 500.
Proof.
  unfold Qle. cbn [Qnum Qden]. rewrite !Z.mul_1_r. intros Lo Hi.
  unfold float_round. destruct (Qnum x =? 0) eqn:Z0; [cbn; lia|].
  apply Z.eqb_neq in Z0. cbv zeta.
  set (a := Z.abs (Qnum x)). set (b := Zpos (Qden x)).
  assert (A : 0 < a) by (subst a; lia).
  assert (B : 0 < b) by (subst b; lia).
  assert (AB : a <= 500 * b) by (subst a b; lia).
  assert (S : Z.sgn (Qnum x) = 1) by (apply Z.sgn_pos; lia).
  assert (E : float_exponent a b < 0).
  { unfold float_exponent. cbv zeta.
    assert (L : Z.log2 a < Z.log2 b + 10).
    { apply Z.log2_lt_pow2; [exact A|].
      destruct (Z.log2_spec b B) as [_ Hb].
      rewrite Z.pow_add_r by (pose proof (Z.log2_nonneg b); lia).
      rewrite Z.pow_succ_r in Hb by apply Z.log2_nonneg.
      change (2 ^ 10) with 1024. lia. }
    destruct (fst (scaled a b (Z.log2 a - Z.log2 b - 52))
              <? 2 ^ 52 * snd (scaled a b (Z.log2 a - Z.log2 b - 52))); lia. }
  set (e := float_exponent a b) in *.
  destruct (0 <=? e) eqn:E0; [apply Z.leb_le in E0; lia|].
  unfold scaled. rewrite E0. cbn [fst snd]. rewrite S, Z.mul_1_l.
  assert (P : 0 < 2 ^ (- e)) by (apply Z.pow_pos_nonneg; lia).
  unfold Q_int. cbn [Qnum Qden]. rewrite Z2Pos.id by exact P.
  assert (G0 : 0 <= div_half_even (a * 2 ^ (- e)) b)
    by (apply div_half_even_ge; [exact B | nia]).
  assert (G1 : div_half_even (a * 2 ^ (- e)) b <= 500 * 2 ^ (- e))
    by (apply div_half_even_le; [exact B | nia]).
  rewrite Z.quot_div_nonneg by lia. split.
  - apply Z.div_pos; lia.
  - apply Z.lt_succ_r. apply Z.div_lt_upper_bound; [lia|]. nia.
Qed.

Lemma float_tenths r :
  (0 <= r)%Q -> (r <= 50)%Q -> 0 <= Q_int (float_mul r 10) <= 500.
Proof.
  intros Lo Hi. unfold float_mul. apply float_round_within; lra.
Qed.

Lemma alert_flag_byte alert_bit (activate trigger_reservoir trigger_auto_off : bool)
    duration_minutes :
  0 <= alert_bit < 16 -> 0 <= duration_minutes <= 511 ->
  (let b0 := Z.shiftl alert_bit 4 in
   let b0 := if activate then Z.lor b0 0x08 else b0 in
   let b0 := if trigger_reservoir then Z.lor b0 0x04 else b0 in
   let b0 := if trigger_auto_off then Z.lor b0 0x02 else b0 in
   Z.lor b0 (Z.land (Z.shiftr duration_minutes 8) 0x0001))
  = alert_flags alert_bit activate trigger_reservoir trigger_auto_off duration_minutes /\
  0 <= alert_flags alert_bit activate trigger_reservoir trigger_auto_off duration_minutes < 256.
Proof.
  intros Bit Duration. unfold alert_flags.
  rewrite Z.shiftr_div_pow2 by lia. change (2 ^ 8) with 256.
  assert (H : duration_minutes / 256 = 0 \/ duration_minutes / 256 = 1).
  { assert (0 <= duration_minutes / 256 < 2); [|lia].
    split; [apply Z.div_pos; lia | apply Z.div_lt_upper_bound; lia]. }
  assert (B : alert_bit = 0 \/ alert_bit = 1 \/ alert_bit = 2 \/ alert_bit = 3 \/
              alert_bit = 4 \/ alert_bit = 5 \/ alert_bit = 6 \/ alert_bit = 7 \/
              alert_bit = 8 \/ alert_bit = 9 \/ alert_bit = 10 \/ alert_bit = 11 \/
              alert_bit = 12 \/ alert_bit = 13 \/ alert_bit = 14 \/ alert_bit = 15) by lia.
  destruct H as [-> | ->];
    repeat (destruct B as [-> | B]); try subst alert_bit;
    destruct activate, trigger_reservoir, trigger_auto_off; cbn; split; (reflexivity || lia).
Qed.

Lemma low_byte x : 0 <= x -> Z.land x 0x00ff = x mod 256 /\ Z.shiftr x 8 = x / 256.
Proof.
  intros H. split.
  - change 255 with (Z.ones 8). rewrite Z.land_ones by lia. reflexivity.
  - rewrite Z.shiftr_div_pow2 by lia. reflexivity.
Qed.

(** X24.  With arguments it accepts, an alert bit below 16 and beep codes
    that are bytes, the first thing [_configure_alert] does is to send
    command 0x19 with a nonce.  Its body is four zero bytes, then the alert
    bit in the high nibble of a byte whose low bits are activate (8),
    trigger_reservoir (4), trigger_auto_off (2) and bit 8 of the duration,
    then the low eight bits of the duration, then the limit as a 16-bit
    big-endian number (minutes, or tenths of a unit cut to an integer), then
    the two beep codes: duration and limit can be read back from the
    body. *)
Theorem configure_alert_layout alert_bit activate trigger_auto_off duration_minutes
    beep_repeat_type beep_type alert_after_minutes alert_after_reservoir trigger_reservoir
    stay_connected w :
  alert_arguments_valid duration_minutes alert_after_minutes alert_after_reservoir
    trigger_reservoir ->
  0 <= alert_bit < 16 -> 0 <= beep_repeat_type < 256 -> 0 <= beep_type < 256 ->
  let limit := alert_limit alert_after_minutes alert_after_reservoir in
  let b0 := alert_flags alert_bit activate trigger_reservoir trigger_auto_off
              duration_minutes in
  let b1 := duration_minutes mod 256 in
  (exists t,
     trace (snd (_configure_alert alert_bit activate trigger_auto_off duration_minutes
                   beep_repeat_type beep_type alert_after_minutes alert_after_reservoir
                   trigger_reservoir stay_connected w))
     = trace w
       ++ ESend (nonced_message 0x19
                   [0; 0; 0; 0; b0; b1; limit / 256; limit mod 256;
                    beep_repeat_type; beep_type] w)
            (connected stay_connected w) false false None :: t) /\
  (b0 mod 2) * 256 + b1 = duration_minutes /\
  u16_be [limit / 256; limit mod 256] = limit /\
  0 <= limit <= 4800.
Proof.
  intros (Duration & Valid) Bit Repeat Beep limit b0 b1.
  destruct (alert_flag_byte alert_bit activate trigger_reservoir trigger_auto_off
              duration_minutes Bit Duration) as [F0 B0].
  cbv zeta in F0. fold b0 in F0, B0.
  destruct (low_byte duration_minutes (proj1 Duration)) as [F1 _].
  assert (L : 0 <= limit <= 4800).
  { subst limit. unfold alert_limit.
    destruct alert_after_minutes as [m|], alert_after_reservoir as [r|];
      try contradiction.
    - lia.
    - destruct Valid as (_ & Lo & Hi). pose proof (float_tenths r Lo Hi). lia. }
  destruct (low_byte limit (proj1 L)) as [F3 F2].
  assert (Bytes : forallb is_byte [0; 0; 0; 0; b0; b1; limit / 256; limit mod 256;
                                   beep_repeat_type; beep_type] = true).
  { assert (0 <= b1 < 256) by (subst b1; apply Z.mod_pos_bound; lia).
    assert (0 <= limit / 256 < 256).
    { split; [apply Z.div_pos; lia | apply Z.div_lt_upper_bound; lia]. }
    assert (0 <= limit mod 256 < 256) by (apply Z.mod_pos_bound; lia).
    cbn. unfold is_byte. lia. }
  split; [|split; [|split; [apply u16_be_pair | exact L]]].
  - assert (Run :
      _configure_alert alert_bit activate trigger_auto_off duration_minutes
        beep_repeat_type beep_type alert_after_minutes alert_after_reservoir
        trigger_reservoir stay_connected w
      = (msg <- _createMessage 0x19 [0; 0; 0; 0; b0; b1; limit / 256; limit mod 256;
                                      beep_repeat_type; beep_type] ;;
         _sendMessage msg true 0 stay_connected
           (Some (REQ_ACTIVATE_ALERT alert_bit activate)) true false false None) w).
    { unfold _configure_alert. cbv zeta. rewrite F0, F1.
      assert (D1 : (duration_minutes >? 511) = false) by lia.
      assert (D2 : (duration_minutes <? 0) = false) by lia.
      rewrite D1, D2.
      destruct alert_after_minutes as [m|], alert_after_reservoir as [r|];
        try contradiction.
      - destruct Valid as (-> & Range).
        assert (M1 : (m >? 4800) = false) by lia.
        assert (M2 : (m <? 0) = false) by lia.
        rewrite M1, M2. cbn [when]. unfold bind at 1. cbn [ret].
        unfold bind at 1. cbn [ret]. unfold bind at 1. cbn [ret].
        unfold bind at 1. cbn [ret]. unfold bind at 1. cbn [ret].
        unfold bind at 1. cbn [ret]. unfold bind at 1. cbn [ret fst snd].
        subst limit. cbn [alert_limit] in F2, F3, Bytes |- *. rewrite F2, F3.
        unfold b1 in Bytes |- *. rewrite (bytes_of_bytes _ Bytes). reflexivity.
      - destruct Valid as (-> & Lo & Hi).
        rewrite (Qgtb_false _ _ Hi), (Qltb_false _ _ Lo).
        cbn [when negb]. unfold bind at 1. cbn [ret].
        unfold bind at 1. cbn [ret]. unfold bind at 1. cbn [ret].
        unfold bind at 1. cbn [ret]. unfold bind at 1. cbn [ret].
        unfold bind at 1. cbn [ret]. unfold bind at 1. cbn [ret fst snd].
        subst limit. cbn [alert_limit] in F2, F3, Bytes |- *. rewrite F2, F3.
        unfold b1 in Bytes |- *. rewrite (bytes_of_bytes _ Bytes). reflexivity. }
    rewrite Run. unfold bind at 1. cbn [_createMessage].
    match goal with
    | |- context [_sendMessage ?m ?a ?b ?c ?d ?e ?f ?g ?h w] =>
        destruct (_sendMessage m a b c d e f g h w) as [r w1] eqn:S
    end.
    apply sendMessage_first_event in S. destruct S as (m' & sc' & w0 & t & E0 & T).
    rewrite apply_nonce_true in E0. inversion E0; subst m' sc' w0; clear E0.
    cbn [snd]. rewrite T. exists t. reflexivity.
  - subst b1. unfold b0, alert_flags.
    assert (H : duration_minutes / 256 = 0 \/ duration_minutes / 256 = 1).
    { assert (0 <= duration_minutes / 256 < 2); [|lia].
      split; [apply Z.div_pos; lia | apply Z.div_lt_upper_bound; lia]. }
    pose proof (Z.div_mod duration_minutes 256 ltac:(lia)) as DM.
    assert (E : (alert_bit * 16 + (if activate then 8 else 0)
                 + (if trigger_reservoir then 4 else 0)
                 + (if trigger_auto_off then 2 else 0) + duration_minutes / 256) mod 2
                = duration_minutes / 256).
    { replace (alert_bit * 16 + (if activate then 8 else 0)
               + (if trigger_reservoir then 4 else 0)
               + (if trigger_auto_off then 2 else 0) + duration_minutes / 256)
        with (duration_minutes / 256
              + (alert_bit * 8 + (if activate then 4 else 0)
                 + (if trigger_reservoir then 2 else 0)
                 + (if trigger_auto_off then 1 else 0)) * 2)
        by (destruct activate, trigger_reservoir, trigger_auto_off; lia).
      rewrite Z.mod_add by lia. apply Z.mod_small. lia. }
    rewrite E. lia.
Qed.

(** * Activation *)

Lemma transports_inspects_only g : inspects_only g -> preserves transports g.
Proof.
  intros G w. destruct (G w) as [S _]. rewrite S. apply inv_refl.
Qed.

Lemma transports_configure_alert bit act auto_off dur rep beep mins res trig sc :
  preserves transports (_configure_alert bit act auto_off dur rep beep mins res trig sc).
Proof. unfold _configure_alert. preserve. Qed.

Lemma transports_set_basal_schedule schedule :
  preserves transports (_set_basal_schedule schedule).
Proof. unfold _set_basal_schedule. preserve. Qed.

Lemma transports_activate_can_start : preserves transports _assert_pod_activate_can_start.
Proof. apply transports_inspects_only, inspects_only_activate_can_start. Qed.

Lemma transports_pod_can_activate : preserves transports _assert_pod_can_activate.
Proof. apply transports_inspects_only, inspects_only_pod_can_activate. Qed.

Lemma transports_pod_paired : preserves transports _assert_pod_paired.
Proof. apply transports_inspects_only, inspects_only_pod_paired. Qed.

#[local] Hint Resolve transports_configure_alert transports_set_basal_schedule
  transports_activate_can_start transports_pod_can_activate transports_pod_paired : preserve.

Lemma emits_raise {A B} e (k : A -> M B) P : emits (bind (raise e) k) P.
Proof. intros w b w' H. discriminate H. Qed.

(** What a computation does first is what it does first when more
    follows. *)
Lemma first_event_bind {A B} (m : M A) (k : A -> M B) w ev :
  (forall r w1, m w = (r, w1) -> exists t, trace w1 = trace w ++ ev :: t) ->
  (forall a, preserves extends (k a)) ->
  exists t, trace (snd (bind m k w)) = trace w ++ ev :: t.
Proof.
  intros Hm Hk. unfold bind. destruct (m w) as [[a|e] w1] eqn:E;
    destruct (Hm _ _ eq_refl) as [t T].
  - destruct (Hk a w1) as [t' T']. exists (t ++ t').
    rewrite T', T, <- app_assoc. reflexivity.
  - exists t. exact T.
Qed.

Lemma activation_start_message w :
  _createMessage 0x07 [0x66; 0; 0; 0] (activation_start w)
  = (Ok assign_address_message, activation_start w).
Proof.
  unfold _createMessage, activation_start, assign_address_message. cbn [pod with_pod
    radio_messageSequence with_messageSequence].
  destruct (pod w). reflexivity.
Qed.

Lemma activate_pod_start w :
  lock_busy w = false ->
  _assert_pod_activate_can_start w = (Ok tt, w) ->
  activate_pod w
  = finish
      ((_sendMessage assign_address_message false 0 true (Some (REQ_ASSIGN_ADDRESS 0x66000000))
          false true false (Some 0x66000000) ;;
        _assert_pod_can_activate ;;
        timeout_bytes <- liftR (bytes_of [0x14; 4]) ;;
        p <- get_pod ;;
        offset <- match var_utc_offset p with
                  | Some m => ret m
                  | None => raise TypeError
                  end ;;
        pod_date <- pod_date offset ;;
        date_bytes <- liftR (bytes_of [month pod_date; day pod_date; year pod_date - 2000;
                                       hour pod_date; minute pod_date]) ;;
        lot <- match id_lot p with
               | Some v => liftR (pack_I v)
               | None => raise struct_error
               end ;;
        tid <- match id_t p with
               | Some v => liftR (pack_I v)
               | None => raise struct_error
               end ;;
        msg <- _createMessage 0x03 (((([0x66; 0; 0; 0] ++ timeout_bytes) ++ date_bytes)
                                     ++ lot) ++ tid) ;;
        _sendMessage msg false 0 true (Some REQ_PAIR_POD)
          false true false (Some 0x66000000) ;;
        _assert_pod_paired ;;
        modify_pod (set_nonce_seed 0) ;;
        p <- get_pod ;;
        set_nonce (Nonce_new (id_lot p) (id_t p) None 0) ;;
        match var_alert_low_reservoir p with
        | Some limit =>
            _configure_alert PodAlertBit_LowReservoir true false 0
              BeepPattern_OnceEveryMinuteForThreeMinutesAndRepeatHourly
              BeepType_BipBeepFourTimes None (Some (float_round limit)) true true
        | None => ret tt
        end ;;
        _configure_alert PodAlertBit_TimerLimit true false 55
          BeepPattern_OnceEveryMinuteForThreeMinutesAndRepeatEveryFifteenMinutes
          BeepType_BipBipBipTwice (Some 5) None false true ;;
        _immediate_bolus 52 8 0 1 (Some REQ_PRIMING) true ;;
        time_sleep 55 ;;
        p <- get_pod ;;
        match var_alert_replace_pod p with
        | Some replace_pod =>
            match state_active_minutes p with
            | None => raise TypeError
            | Some active_minutes =>
                _configure_alert PodAlertBit_LowReservoir true false 0
                  BeepPattern_OnceEveryMinuteForThreeMinutesAndRepeatEveryFifteenMinutes
                  BeepType_BipBeepFourTimes (Some (replace_pod - active_minutes)) None
                  false true
            end
        | None => ret tt
        end ;;
        p <- get_pod ;;
        match basalSchedule p with
        | Some schedule => _set_basal_schedule schedule
        | None => raise AttributeError
        end) (activation_start w)).
Proof.
  intros L G. unfold activate_pod. rewrite pdm_command_run. f_equal.
  unfold pdmlock. rewrite L. rewrite (bind_eq _ _ _ _ _ G).
  unfold bind at 1. cbn [set_radio_packetSequence].
  unfold bind at 1. cbn [set_radio_messageSequence].
  unfold bind at 1. cbn [modify_pod].
  change (with_pod _ _) with (activation_start w).
  cbv zeta. unfold bind at 1.
  change (liftR (pack_I 1711276032) (activation_start w))
    with (@Ok bytes [0x66; 0; 0; 0], activation_start w).
  cbv beta iota.
  rewrite (bind_eq _ _ _ _ _ (activation_start_message w)). reflexivity.
Qed.

(** X25.  [activate_pod] starts from a pod without an address and with a
    valid [var_basal_schedule]: when that guard fails, nothing is sent and
    nothing is reset.  When it passes (the lock being free), the counters of
    the radio are set to 0 and the address to 0xffffffff, and the first
    message sent is command 0x07 with the candidate address 66 00 00 00, to
    address 0xffffffff with sequence 0, without nonce, with stay_connected
    and low_tx, and with the candidate as second address.  Resync is off for
    it: a TransmissionOutOfSyncError on this exchange ends the activation
    after that one send. *)
Theorem activate_pod_assigns_address w :
  lock_busy w = false ->
  (forall e, fst (_assert_pod_activate_can_start w) = Raise e ->
             activate_pod w = finish (Raise e, w)) /\
  (fst (_assert_pod_activate_can_start w) = Ok tt ->
   (exists t,
      trace (snd (activate_pod w))
      = trace w ++ ESend assign_address_message true true false (Some 0x66000000) :: t) /\
   (forall step rest,
      radio_script w = step :: rest ->
      r_outcome step = Fails TransmissionOutOfSyncError ->
      activate_pod w
      = finish (Raise TransmissionOutOfSyncError,
                exchanged assign_address_message true true false (Some 0x66000000) step rest
                  (activation_start w)))).
Proof.
  intros L.
  destruct (inspects_only_cases _ w inspects_only_activate_can_start) as [G|[msg G]].
  - split; [intros e E; rewrite G in E; discriminate E|]. intros _.
    rewrite (activate_pod_start w L G). split.
    + unfold finish. cbn [snd]. rewrite closed_trace.
      match goal with
      | |- context [snd (bind ?m ?k (activation_start w))] =>
          destruct (first_event_bind m k (activation_start w)
                      (ESend assign_address_message true true false (Some 0x66000000)))
            as [t T]
      end.
      * intros r w1 S. apply sendMessage_first_event in S.
        destruct S as (m' & sc' & w0 & t & E0 & T).
        cbn in E0. inversion E0; subst m' sc' w0; clear E0. eauto.
      * preserve.
      * change (trace (activation_start w)) with (trace w) in T.
        rewrite T, <- app_assoc. eexists. reflexivity.
    + intros step rest Script Answer. f_equal.
      erewrite bind_raise; [reflexivity|].
      rewrite sendMessage_unfold. unfold sendMessage_body.
      unfold bind at 1. cbn [apply_nonce ret fst snd].
      unfold bind at 1, attempt.
      assert (Script' : radio_script (activation_start w) = step :: rest) by exact Script.
      rewrite (radio_send_step _ _ _ _ _ _ _ _ Script'), Answer. reflexivity.
  - split; [|intros E; rewrite G in E; discriminate E].
    intros e E. rewrite G in E. cbn in E. injection E as <-.
    unfold activate_pod. rewrite pdm_command_run. f_equal.
    unfold pdmlock. rewrite L. rewrite (bind_raise _ _ _ _ _ G). reflexivity.
Qed.

Lemma finish_Ok {A} (rw : Result A * World) a w' :
  finish rw = (Ok a, w') -> fst rw = Ok a /\ w' = closed (snd rw).
Proof.
  unfold finish. destruct rw as [[x|e] wk]; cbn [fst snd];
    destruct (disk_ok wk); try destruct (is_OmnipyError e);
    intros H; inversion H; auto.
Qed.

Lemma ret_Ok {A} (a b : A) w w' : ret a w = (Ok b, w') -> b = a /\ w' = w.
Proof. unfold ret. intros H; inversion H; auto. Qed.

Lemma bytes_of_in_range l b : bytes_of l = Ok b -> forallb is_byte l = true.
Proof. unfold bytes_of. destruct (forallb is_byte l); [reflexivity | discriminate]. Qed.

(** X26.  An [activate_pod] that returned has had its first exchange, the
    assignment of the address, return; the pairing command 0x03 is the next
    thing sent after it, without nonce, with stay_connected and low_tx and
    the candidate as second address, to the address and with the sequence
    the pod shadow and the radio had after that exchange.  Its body is the
    candidate address 66 00 00 00, the bytes 14 04, then month, day,
    year - 2000, hour and minute of the wall clock at the pod's
    [var_utc_offset], each of them a byte, and [id_lot] and [id_t] of the
    pod as they were after the first exchange, as 32-bit numbers.  It has
    also sent the priming bolus: 52 pulses at pulse speed 8 with a delivery
    delay of 1, that is the 0x1a body 00 00 00 00 02 01 0A 01 01 A0 00 34 00
    34 and the 0x17 body 00 02 08 00 01 86 A0 00 00 00 00 00 00. *)
Theorem activate_pod_pairs_and_primes w w' :
  activate_pod w = (Ok tt, w') ->
  (exists w1 offset lot tid t,
     _sendMessage assign_address_message false 0 true (Some (REQ_ASSIGN_ADDRESS 0x66000000))
       false true false (Some 0x66000000) (activation_start w) = (Ok tt, w1) /\
     var_utc_offset (pod w1) = Some offset /\
     id_lot (pod w1) = Some lot /\ id_t (pod w1) = Some tid /\
     0 <= lot < 4294967296 /\ 0 <= tid < 4294967296 /\
     let date := wall_clock w1 offset in
     forallb is_byte [month date; day date; year date - 2000; hour date; minute date] = true /\
     trace w' = trace w1
                ++ ESend (plain_message 0x03 (pairing_body date lot tid) w1)
                     true true false (Some 0x66000000) :: t) /\
  sends_during w w'
    [(0x1a, [0x00; 0x00; 0x00; 0x00; 0x02; 0x01; 0x0A; 0x01; 0x01; 0xA0; 0x00; 0x34; 0x00; 0x34]);
     (0x17, [0x00; 0x02; 0x08; 0x00; 0x01; 0x86; 0xA0; 0x00; 0x00; 0x00; 0x00; 0x00; 0x00])].
Proof.
  intros H. split.
  - assert (L : lock_busy w = false).
    { pose proof H as H0. apply pdm_command_Ok in H0 as (wk & H0 & _).
      apply pdmlock_Ok in H0 as [L _]. exact L. }
    destruct (inspects_only_cases _ w inspects_only_activate_can_start) as [G|[msg G]].
    2:{ apply pdm_command_Ok in H as (wk & H & _). apply pdmlock_Ok in H as [_ H].
        rewrite (bind_raise _ _ _ _ _ G) in H. discriminate H. }
    rewrite (activate_pod_start w L G) in H. apply finish_Ok in H as [H ->].
    match type of H with
    | fst (?body ?w0) = _ => destruct (body w0) as [r wk] eqn:Body
    end.
    cbn [fst] in H. subst r. cbn [snd].
    apply bind_Ok in Body as ([] & w1 & First & Body).
    apply bind_Ok in Body as ([] & w1' & Guard & Body).
    apply (inspects_only_Ok _ _ _ _ inspects_only_pod_can_activate) in Guard. subst w1'.
    apply bind_Ok in Body as (tbytes & w2 & Et & Body).
    apply liftR_Ok in Et as [Et ->]. vm_compute in Et. injection Et as <-.
    apply bind_Ok in Body as (p & w2 & Ep & Body). apply get_pod_Ok in Ep as [-> ->].
    apply bind_Ok in Body as (offset & w2 & Eo & Body).
    destruct (var_utc_offset (pod w1)) as [m|] eqn:Offset; [|discriminate Eo].
    apply ret_Ok in Eo as [-> ->].
    apply bind_Ok in Body as (date & w2 & Ed & Body).
    unfold pod_date in Ed. injection Ed as <- <-.
    apply bind_Ok in Body as (dbytes & w2 & Eb & Body).
    apply liftR_Ok in Eb as [Eb ->]. pose proof (bytes_of_in_range _ _ Eb) as Bytes.
    apply bytes_of_Ok in Eb. subst dbytes.
    apply bind_Ok in Body as (lbytes & w2 & El & Body).
    destruct (id_lot (pod w1)) as [lot|] eqn:Lot; [|discriminate El].
    apply liftR_Ok in El as [El ->]. apply pack_I_Ok in El as [-> Rl].
    apply bind_Ok in Body as (sbytes & w2 & Es & Body).
    destruct (id_t (pod w1)) as [tid|] eqn:Tid; [|discriminate Es].
    apply liftR_Ok in Es as [Es ->]. apply pack_I_Ok in Es as [-> Rt].
    apply bind_Ok in Body as (msg & w2 & Em & Body).
    unfold _createMessage in Em. injection Em as <- <-.
    apply bind_Ok in Body as ([] & w2 & Pair & Body).
    apply sendMessage_first_event in Pair as (m' & sc' & w0 & t & E0 & T).
    cbn in E0. inversion E0; subst m' sc' w0; clear E0.
    match type of Body with
    | ?rest w2 = _ => assert (P : preserves extends rest) by preserve
    end.
    apply (preserves_run _ _ _ _ _ P) in Body. destruct Body as [t' T'].
    exists w1, m, lot, tid. eexists.
    split; [exact First|]. split; [exact Offset|]. split; [exact Lot|].
    split; [exact Tid|]. split; [exact Rl|]. split; [exact Rt|].
    cbv zeta. split; [exact Bytes|].
    rewrite closed_trace, T', T, <- !app_assoc. cbn [app].
    reflexivity.
  - assert (E : emits activate_pod
                  (fun cmds => exists outer inner,
                       immediate_bolus_bodies 52 8 0 1 = Ok (outer, inner) /\
                       cmds = [(0x1a, outer); (0x17, inner)])).
    { unfold activate_pod. apply emits_pdm_command, emits_pdmlock. cbv zeta.
      repeat match goal with
             | |- emits (bind (_immediate_bolus _ _ _ _ _ _) _) _ => fail 1
             | |- emits (bind _ _) _ => apply emits_bind_r; [preserve|]; intros ?
             end.
      apply emits_bind_l; [|preserve]. apply emits_immediate_bolus. }
    destruct (E _ _ _ H) as (cmds & (outer & inner & B & ->) & S).
    vm_compute in B. injection B as <- <-. exact S.
Qed.

End Runs.

(** * Runs on concrete inputs *)

#[local] Existing Instances Sim.nonce_gen Sim.pod_shadow Sim.pdm_utils Sim.definitions.

(** C1.  The finally step of [is_busy] disconnects the radio and does not
    call [_savePod].  On a pod whose status was never read, [is_busy] asks
    the pod for its status; the exchange moves the counters of the radio
    (message sequence 4 to 5, packet sequence 9 to 11), [is_busy] returns,
    and the pod still holds 4 and 9 and was not saved. *)
Theorem is_busy_skips_the_save :
  let w := Sim.pdm Sim.unread_pod [Sim.answers 2 0 5 11] (Sim.at_time 10 0 0) in
  let w' := snd (is_busy w) in
  fst (is_busy w) = Ok false /\
  trace w' = [ESend (mkMessage PDM (Some 0x1f0e89f0) 4 [(0x0e, [0])] None)
                true false false None;
              EDisconnect] /\
  radio_messageSequence w' = 5 /\ radio_packetSequence w' = 11 /\
  radio_message_sequence (pod w') = 4 /\ radio_packet_sequence (pod w') = 9 /\
  saved w' = None.
Proof. vm_compute. repeat split. Qed.

(** C2.  [deactivate_pod] does not call [_assert_can_deactivate].  On a pod
    that is already inactive the guard would raise PdmError("Pod already
    deactivated"); [deactivate_pod] sends the 0x1c command all the same and
    returns. *)
Theorem deactivate_pod_skips_its_guard :
  let w := Sim.pdm Sim.inactive_pod [Sim.answers 0 0 5 11] (Sim.at_time 10 0 0) in
  fst (_assert_can_deactivate w) = Raise (PdmError "Pod already deactivated") /\
  fst (deactivate_pod w) = Ok tt /\
  exists rest,
    trace (snd (deactivate_pod w))
    = ESend (setNonce 101 Sim.deactivate_message) false false false None :: rest.
Proof. vm_compute. repeat split. eexists. reflexivity. Qed.

(** C10.  A schedule of 1.00 U/h around the clock passes the validity guard;
    at 10:29:59 one second is left in the half hour, the ten pulses of the
    half hour leave int(1 * 10 / 1800) = 0 pulses, and the interval
    computation divides by them: [set_basal_schedule] ends in
    PdmError("Unexpected error") and nothing is sent. *)
Theorem set_basal_schedule_divides_by_zero :
  let w := Sim.pdm Sim.running_pod [Sim.answers 2 0 5 11] (Sim.at_time 10 29 59) in
  fst (_assert_basal_schedule_is_valid (Some Sim.flat_schedule) w) = Ok tt /\
  half_hour_timing (Sim.at_time 10 29 59 60) = (20, 1) /\
  pulsesRemainingCurrentHour 1 10 = 0 /\
  basal_schedule_bodies Sim.flat_schedule (Sim.at_time 10 29 59 60) = Raise ZeroDivisionError /\
  fst (set_basal_schedule (Some Sim.flat_schedule) w) = Raise (PdmError "Unexpected error") /\
  existsb is_send (trace (snd (set_basal_schedule (Some Sim.flat_schedule) w))) = false.
Proof. vm_compute. repeat split. Qed.

(** Runs on concrete inputs are decided by evaluation. *)
Ltac run := vm_compute; reflexivity.

(** The pod answers 06 14 AB CD once: the sync word 0xABCD goes to the nonce
    generator with the sequence 4 of the message, and the message is sent
    again; with a retry count of 4 the same answer raises; five such answers
    in a row raise from a retry count of 0. *)
Lemma bad_nonce_renegotiation_witness :
  let once := Sim.pdm Sim.running_pod [Sim.bad_nonce 0xAB 0xCD; Sim.answers 2 0 5 11]
                (Sim.at_time 10 0 0) in
  let five := Sim.pdm Sim.running_pod (repeat (Sim.bad_nonce 0xAB 0xCD) 5)
                (Sim.at_time 10 0 0) in
  (exists w2,
     _sendMessage Sim.deactivate_message true 0 false None true false false None once
     = _sendMessage (setNonce 101 Sim.deactivate_message) true 1 false None
         true false false None (resynced 0xABCD 4 w2)) /\
  fst (_sendMessage Sim.deactivate_message true 4 false None true false false None once)
  = Raise (PdmError "Nonce re-negotiation failed") /\
  fst (_sendMessage Sim.deactivate_message true 0 false None true false false None five)
  = Raise (PdmError "Nonce re-negotiation failed").
Proof.
  intros once five.
  destruct (@bad_nonce_renegotiation Sim.nonce_gen Sim.pod_shadow) as [Step Five].
  split; [|split].
  - pose proof (Step Sim.deactivate_message 0 false None true false false None once) as S.
    specialize S with (pre := []) (post := []) (hb := 0xAB) (lb := 0xCD).
    edestruct S as (_ & Resend & _); [run | run | run |].
    eexists. apply Resend. discriminate.
  - pose proof (Step Sim.deactivate_message 4 false None true false false None once) as S.
    specialize S with (pre := []) (post := []) (hb := 0xAB) (lb := 0xCD).
    edestruct S as (Fail & _ & _); [run | run | run |].
    rewrite Fail; reflexivity.
  - edestruct (Five Sim.deactivate_message false None true false false None five)
      as (w' & t & Run & _).
    + run.
    + repeat constructor; exists 0xAB, 0xCD; reflexivity.
    + rewrite Run. reflexivity.
Defined.

(** The radio is out of sync on the first exchange and again on the resend:
    the error reaches the caller, after three sends when resync is allowed. *)
Lemma out_of_sync_resync_witness :
  let w := Sim.pdm Sim.running_pod [Sim.out_of_sync; Sim.answers 2 0 5 11; Sim.out_of_sync]
             (Sim.at_time 10 0 0) in
  fst (_sendMessage Sim.deactivate_message true 0 false None false false false None w)
  = Raise TransmissionOutOfSyncError /\
  fst (_sendMessage Sim.deactivate_message true 0 false None true false false None w)
  = Raise TransmissionOutOfSyncError /\
  count is_send
    (trace (snd (_sendMessage Sim.deactivate_message true 0 false None true false false None w)))
  = 3%nat.
Proof.
  intros w.
  edestruct (@out_of_sync_resync Sim.nonce_gen Sim.pod_shadow Sim.deactivate_message true 0
              false None false false None w) as (Now & _ & _ & Again); [run | run |].
  split; [rewrite Now; reflexivity|].
  erewrite Again; cycle 1; [run | run | run | split; run].
Defined.

(** A bolus of 1.00 U on the running pod returns, and has sent the two
    bodies. *)
Lemma bolus_one_unit_witness :
  let w := Sim.pdm Sim.running_pod [Sim.answers 2 2 5 11] (Sim.at_time 10 0 0) in
  fst (bolus (mkDecimal 100 2) w) = Ok tt /\
  sends_during w (snd (bolus (mkDecimal 100 2) w))
    [(0x1a, [0x00; 0x00; 0x00; 0x00; 0x02; 0x00; 0x6A; 0x01; 0x01; 0x40; 0x00; 0x14; 0x00; 0x14]);
     (0x17, [0x00; 0x00; 0xC8; 0x00; 0x03; 0x0D; 0x40; 0x00; 0x00; 0x00; 0x00; 0x00; 0x00])].
Proof.
  cbv zeta. split; [run|].
  destruct (@bolus_one_unit Sim.nonce_gen Sim.pod_shadow) as (_ & _ & _ & _ & _ & _ & Sent).
  apply Sent. run.
Defined.

(** 1.00 U/h for half an hour: ten pulses, sent in the two bodies. *)
Lemma temp_basal_encoding_witness :
  let w := Sim.pdm Sim.running_pod [Sim.answers 1 0 5 11] (Sim.at_time 10 0 0) in
  let run := setTempBasal (mkDecimal 100 2) (mkDecimal 5 1) false w in
  fst run = Ok tt /\
  sends_during w (snd run)
    [(0x1a, [0; 0; 0; 0; 1; 0; 141; 1; 56; 64; 0; 10; 0; 10]);
     (0x16, [0; 0; 0; 100; 10; 186; 149; 0; 0; 100; 10; 186; 149; 0])].
Proof.
  intros w r. split; [run|].
  edestruct (@temp_basal_encoding Sim.nonce_gen Sim.pod_shadow Sim.pdm_utils
               (mkDecimal 100 2) (mkDecimal 5 1) false w (snd r))
    as (pulse0 & pulses & ise_list & ise_body & pulse_body & first_count & first_interval
        & entries & entries_body & E1 & E2 & E3 & E4 & E5 & E6 & Sent); [run|].
  vm_compute in E1. injection E1 as <- <-.
  vm_compute in E2. injection E2 as <-.
  vm_compute in E3. injection E3 as <-.
  vm_compute in E4. injection E4 as <-.
  vm_compute in E5. injection E5 as <- <- <-.
  vm_compute in E6. injection E6 as <-.
  exact Sent.
Defined.

(** The checksum of the 1.00 U bolus body is the sum of the seven bytes after
    it; that of a temp basal of 1.00 U/h for an hour is the sum of the five
    bytes after it and of the packed pulse list 00 0A 00 0A. *)
Lemma outer_body_checksum_witness :
  let outer := [0x00; 0x00; 0x00; 0x00; 0x02; 0x00; 0x6A; 0x01; 0x01; 0x40; 0x00; 0x14; 0x00; 0x14] in
  let inner := [0x00; 0x00; 0xC8; 0x00; 0x03; 0x0D; 0x40; 0x00; 0x00; 0x00; 0x00; 0x00; 0x00] in
  let temp := temp_basal_bodies (mkDecimal 100 2) 2 false in
  (immediate_bolus_bodies 20 16 0 2 = Ok (outer, inner) /\
   u16_be (slice outer 5 7) = byte_sum (slice outer 7 14) mod 65536) /\
  exists outer' inner',
    temp = Ok (outer', inner') /\
    u16_be (slice outer' 5 7)
    = (byte_sum (slice outer' 7 12) + byte_sum [0x00; 0x0A; 0x00; 0x0A]) mod 65536.
Proof.
  intros outer inner temp.
  destruct (@outer_body_checksum Sim.pdm_utils) as (Bolus & Temp & _).
  split.
  - split; [reflexivity|]. exact (Bolus 20 16 0 2 outer inner eq_refl).
  - eexists _, _. split; [run|].
    edestruct (Temp (mkDecimal 100 2) 2 false) as (pulse_list & pulse_body & E1 & E2 & Sum);
      [run|].
    vm_compute in E1. injection E1 as <-.
    vm_compute in E2. injection E2 as <-.
    exact Sum.
Defined.

(** C7, as stated, fails on the bolus of 1.00 U: bytes 5 and 6 hold 0x006A,
    and the six bytes body[7:13] sum to 0x56, the last byte 0x14 being left
    out. *)
Lemma checksum_law_fails :
  exists outer inner,
    immediate_bolus_bodies 20 16 0 2 = Ok (outer, inner) /\ ~ checksum_law outer [].
Proof.
  eexists _, _. split; [reflexivity|]. unfold checksum_law. vm_compute. discriminate.
Qed.

(** A bolus of 0.99 U is accepted and sent as 19 pulses, the floor of 19.8.
    A bolus of 1.00 U, a whole number of steps, is sent as 20 pulses, the
    rounded value.  A bolus of 0.9999999999999999999999999999 U is sent as
    20 pulses, one more than the floor: its product with 20 has 29 digits
    and is rounded to 20.00000000000000000000000000. *)
Lemma bolus_pulse_count_witness :
  let w := Sim.pdm Sim.running_pod [Sim.answers 2 2 5 11] (Sim.at_time 10 0 0) in
  let a := mkDecimal 99 2 in
  let b := mkDecimal 100 2 in
  let c := mkDecimal 9999999999999999999999999999 28 in
  (fst (bolus a w) = Ok tt /\
   Qfloor (dec_Q a * 20) = 19 /\
   dec_int (dec_mul a (Decimal_of_Z 20)) = Qfloor (dec_Q a * 20) /\
   exists outer inner,
     sends_during w (snd (bolus a w)) [(0x1a, outer); (0x17, inner)] /\
     u16_be (slice outer 10 12) = 19) /\
  (fst (bolus b w) = Ok tt /\
   round_half_even (dec_Q b * 20) = 20 /\
   dec_int (dec_mul b (Decimal_of_Z 20)) = round_half_even (dec_Q b * 20)) /\
  (fst (bolus c w) = Ok tt /\
   Qfloor (dec_Q c * 20) = 19 /\
   exists outer inner,
     sends_during w (snd (bolus c w)) [(0x1a, outer); (0x17, inner)] /\
     u16_be (slice outer 10 12) = 20).
Proof.
  intros w a b c. split; [|split].
  - split; [run|]. split; [reflexivity|].
    edestruct (@bolus_pulse_count Sim.nonce_gen Sim.pod_shadow a w (snd (bolus a w)))
      as (_ & (outer & inner & Sent & Count & _) & _ & Exact & _); [run|].
    split; [apply Exact; vm_compute; [reflexivity | discriminate]|].
    exists outer, inner. split; [exact Sent | exact Count].
  - split; [run|]. split; [reflexivity|].
    edestruct (@bolus_pulse_count Sim.nonce_gen Sim.pod_shadow b w (snd (bolus b w)))
      as (_ & _ & _ & _ & Whole); [run|].
    apply Whole. reflexivity.
  - split; [run|]. split; [reflexivity|].
    edestruct (@bolus_pulse_count Sim.nonce_gen Sim.pod_shadow c w (snd (bolus c w)))
      as (_ & (outer & inner & Sent & Count & _) & _); [run|].
    exists outer, inner. split; [exact Sent|].
    etransitivity; [exact Count | run].
Defined.

(** C8, as stated, fails on a bolus of 0.99 U: it is accepted, it is sent as
    19 pulses where rounding gives 20, and 0.99 is no whole number of 0.05-unit
    steps. *)
Lemma quantum_law_fails :
  let a := mkDecimal 99 2 in
  let w := Sim.pdm Sim.running_pod [Sim.answers 2 2 5 11] (Sim.at_time 10 0 0) in
  ~ quantum_law a w /\
  fst (bolus a w) = Ok tt /\
  dec_int (dec_mul a (Decimal_of_Z 20)) = 19 /\
  round_half_even (dec_Q a * 20) = 20 /\
  whole_steps a = false.
Proof.
  intros a w. split; [|repeat split; run].
  intros Law.
  destruct (Law (snd (bolus a w))
              [0; 0; 0; 0; 2; 0; 88; 1; 1; 48; 0; 19; 0; 19]
              [0; 0; 190; 0; 3; 13; 64; 0; 0; 0; 0; 0; 0]) as [Rounded Whole].
  - run.
  - unfold sends_during. exists []. vm_compute. eexists _, _, _, _, _, _. split; reflexivity.
  - vm_compute in Rounded. discriminate.
Qed.

(** Thirteen hours are 26 half hours: rejected.  A temp basal of 1.00 U/h
    for 12.4 hours on a pod on which a temp basal is active: int(24.8) is
    24, the call is accepted; [cancelTempBasal] runs first, to its end, and
    the programming of 24 half hours starts from the world it left. *)
Lemma setTempBasal_checks_witness :
  let w := Sim.pdm Sim.running_pod [] (Sim.at_time 10 0 0) in
  let v := Sim.pdm Sim.temp_basal_pod [Sim.answers 2 0 5 11; Sim.answers 1 0 6 13]
             (Sim.at_time 10 0 0) in
  let rate := mkDecimal 100 2 in
  let hours := mkDecimal 124 1 in
  (exists msg, setTempBasal rate (mkDecimal 13 0) false w = (Raise (PdmError msg), closed w)) /\
  fst (setTempBasal rate hours false v) = Ok tt /\
  Qfloor (dec_Q hours * 2) = 24 /\
  dec_int (dec_mul hours (Decimal_of_Z 2)) = 24 /\
  exists wc,
    snd (cancelTempBasal false v) = closed wc /\
    (exists p,
       trace (closed wc)
       = [ESend (nonced_message 0x1f [0; 0; 0; 0; 2] v) true false false None;
          EDisconnect; ESave p true] /\
       state_basal p = Program /\ last_enacted_temp_basal_amount p = Some (-1)%Q) /\
    setTempBasal rate hours false v
    = finish (setTempBasal_program rate hours 24 false (closed wc)).
Proof.
  intros w v rate hours. split.
  - destruct (@setTempBasal_checks Sim.nonce_gen Sim.pod_shadow Sim.pdm_utils
                rate (mkDecimal 13 0) false w) as (_ & Cases).
    edestruct (Cases w) as (Long & _ & _ & _); [reflexivity | run |].
    destruct Long as (msg & Rejected & _); [right; reflexivity|].
    exists msg. exact Rejected.
  - destruct (@setTempBasal_checks Sim.nonce_gen Sim.pod_shadow Sim.pdm_utils
                rate hours false v) as (Returned & Cases).
    destruct (Returned (snd (setTempBasal rate hours false v)))
      as (_ & [Floor _] & _); [run|].
    edestruct (Cases v) as (_ & _ & _ & Accepted); [reflexivity | run |].
    edestruct (Accepted) as (_ & Active);
      [ vm_compute; split; discriminate
      | intros m E; vm_compute in E; injection E as <-; vm_compute; discriminate
      | vm_compute; discriminate
      | run |].
    destruct (Active eq_refl) as (wc & _ & Cancelled & _ & _ & Programmed).
    split; [run|]. split; [reflexivity|]. split; [reflexivity|].
    exists wc. split; [exact Cancelled|]. split.
    + rewrite <- Cancelled.
      let l := eval vm_compute in (trace (snd (cancelTempBasal false v))) in
      match l with
      | [_; _; ESave ?p _] => exists p
      end.
      split; [run | split; reflexivity].
    + destruct Programmed as [Run _]; [run | exact Run].
Defined.

(** C9, as stated, fails on a temp basal of 12.4 hours: the hours times two
    are 24.8, outside 1 to 24, and the call is accepted, as 24 half hours. *)
Lemma duration_law_fails :
  let hours := mkDecimal 124 1 in
  let w := Sim.pdm Sim.running_pod [Sim.answers 1 0 5 11] (Sim.at_time 10 0 0) in
  ~ duration_law hours w /\
  (24 < dec_Q hours * 2)%Q /\
  fst (setTempBasal (mkDecimal 100 2) hours false w) = Ok tt /\
  dec_int (dec_mul hours (Decimal_of_Z 2)) = 24.
Proof.
  intros hours w. split; [|repeat split; run].
  intros Law.
  destruct (Law (mkDecimal 100 2) false) as [msg Raised].
  - right. reflexivity.
  - vm_compute in Raised. discriminate Raised.
Qed.

(** * Further runs on concrete inputs *)

(** A status request on the running pod moves the counters of the radio to
    5 and 11; the pod on disk holds them, and a [Pdm] made from it starts
    there, with the nonce generator where it was. *)
Lemma saved_pod_resumes_witness :
  let w := Sim.pdm Sim.running_pod [Sim.answers 2 0 5 11] (Sim.at_time 10 0 0) in
  let w' := snd (pdm_command (pdmlock (_update_status 1 false)) w) in
  let again := Sim.pdm (pod w') [] (Sim.at_time 10 0 0) in
  saved w' = Some (pod w') /\
  radio_messageSequence again = 5 /\ radio_packetSequence again = 11 /\
  nonce again = nonce w'.
Proof.
  intros w w' again.
  destruct (saved_pod_resumes (pdmlock (_update_status 1 false)) w [] 1010%Q (Sim.at_time 10 0 0) false true)
    as (S & M & P & N); [run|].
  split; [exact S|]. split; [|split].
  - transitivity (radio_messageSequence w'); [exact M | run].
  - transitivity (radio_packetSequence w'); [exact P | run].
  - etransitivity; [exact N | run].
Defined.

(** The status of the running pod was read ten seconds ago: nothing to
    do. *)
Lemma updatePodStatus_fresh_witness :
  let w := Sim.pdm Sim.running_pod [] (Sim.at_time 10 0 0) in
  updatePodStatus 0 w = (Ok tt, closed w) /\
  trace (closed w) = [EDisconnect; ESave (saved_pod w) true].
Proof.
  intros w.
  destruct (updatePodStatus_fresh w 1000%Q) as [E T];
    [run | run | run |].
  split; [exact E | exact T].
Defined.

(** The status of the pod was never read: the request goes out. *)
Lemma updatePodStatus_asks_witness :
  let w := Sim.pdm Sim.unread_pod [Sim.answers 2 0 5 11] (Sim.at_time 10 0 0) in
  exists t,
    trace (snd (updatePodStatus 0 w))
    = trace w ++ ESend (plain_message 0x0e [0] w) false false false None :: t.
Proof.
  intros w.
  destruct (updatePodStatus_asks w 0) as [Sends _];
    [run | run | right; left; run |].
  apply Sends. lia.
Defined.

(** After a bolus of 1.00 U the pod is taken to be busy, and a bolus of
    0.50 U is refused. *)
Lemma bolus_sets_busy_witness :
  let w := Sim.pdm Sim.running_pod [Sim.answers 2 2 5 11] (Sim.at_time 10 0 0) in
  let w' := snd (bolus (mkDecimal 100 2) w) in
  _is_bolus_running w' = (Ok true, w') /\
  exists msg, bolus (mkDecimal 50 2) w' = finish (Raise (PdmError msg), w').
Proof.
  intros w w'.
  destruct (bolus_sets_busy (mkDecimal 100 2) w w')
    as (_ & _ & _ & _ & Later); [run|].
  destruct (Later w') as [Running Refused]; [reflexivity | run |].
  split; [exact Running|]. apply Refused. run.
Defined.

(** The running bolus is cancelled: the pod reports it gone, and the shadow
    no longer takes the pod to be busy. *)
Lemma cancelBolus_settles_witness :
  let w := Sim.pdm Sim.bolusing_pod [Sim.answers 2 2 5 11; Sim.answers 2 0 6 13]
             (Sim.at_time 10 0 0) in
  let w' := snd (cancelBolus false w) in
  last_enacted_bolus_amount (pod w') = Some (-1)%Q /\
  _is_bolus_running w' = (Ok false, w').
Proof.
  intros w w'.
  destruct (cancelBolus_settles false w w')
    as (_ & Amount & _ & Later); [run|].
  split; [exact Amount|]. apply Later. reflexivity.
Defined.

(** After a temp basal of 1.00 U/h for half an hour the shadow takes it to
    be active. *)
Lemma setTempBasal_sets_active_witness :
  let w := Sim.pdm Sim.running_pod [Sim.answers 1 0 5 11] (Sim.at_time 10 0 0) in
  let w' := snd (setTempBasal (mkDecimal 100 2) (mkDecimal 5 1) false w) in
  state_basal (pod w') = TempBasal /\ _is_temp_basal_active w' = (Ok true, w').
Proof.
  intros w w'.
  destruct (setTempBasal_sets_active (mkDecimal 100 2) (mkDecimal 5 1) false w w')
    as (Basal & _ & _ & _ & _ & _ & Later); [run|].
  split; [exact Basal|]. apply Later; [reflexivity | vm_compute; discriminate | run].
Defined.

(** The schedule of 1.00 U/h around the clock, set at 10:00:00. *)
Lemma set_basal_schedule_accepted_witness :
  let w := Sim.pdm Sim.running_pod [Sim.answers 2 0 5 11] (Sim.at_time 10 0 0) in
  let w' := snd (set_basal_schedule (Some Sim.flat_schedule) w) in
  exists entries,
    Some Sim.flat_schedule = Some entries /\ List.length entries = 48%nat /\
    Forall rate_in_range entries /\
    state_basal (pod w') = Program /\ var_basal_schedule (pod w') = Some entries.
Proof.
  intros w w'.
  apply (set_basal_schedule_accepted (Some Sim.flat_schedule) w w').
  run.
Defined.

(** Nothing runs on the running pod: [cancelBolus] raises, [cancelTempBasal]
    returns. *)
Lemma cancel_when_nothing_runs_witness :
  let w := Sim.pdm Sim.running_pod [] (Sim.at_time 10 0 0) in
  cancelBolus false w = finish (Raise (PdmError "Bolus is not running"), w) /\
  cancelTempBasal false w = finish (Ok tt, w).
Proof.
  intros w.
  assert (R : ready (pod w)).
  { repeat split; try reflexivity. left. reflexivity. }
  destruct (cancel_when_nothing_runs false w) as [Bolus Temp];
    [reflexivity | exact R |].
  split.
  - apply Bolus. run.
  - apply (Temp w w); [run | exact R | run].
Defined.

(** Alert 4 is acknowledged on the running pod. *)
Lemma acknowledge_alerts_sends_witness :
  let w := Sim.pdm Sim.running_pod [Sim.answers 2 0 5 11] (Sim.at_time 10 0 0) in
  exists t,
    trace (snd (acknowledge_alerts 4 w))
    = trace w ++ ESend (nonced_message 0x11 [0; 0; 0; 0; 4] w) true false false None :: t.
Proof.
  intros w.
  destruct (acknowledge_alerts_sends w 4) as [Sends _];
    [run | run |].
  apply Sends. lia.
Defined.

(** At 10:29:59 the pod is in half hour 20 and one second is left. *)
Lemma half_hour_timing_of_day_witness :
  let podDate := Sim.at_time 10 29 59 60 in
  fst (half_hour_timing podDate) = 20 /\ snd (half_hour_timing podDate) = 1 /\
  20 * 1800 + (1800 - 1) = 10 * 3600 + 29 * 60 + 59.
Proof.
  intros podDate.
  destruct (half_hour_timing_of_day podDate) as (_ & _ & Day & _);
    [cbn; lia | cbn; lia | cbn; lia |].
  split; [reflexivity|]. split; [reflexivity | exact Day].
Defined.

(** An error that is not the bad-nonce error and a command of unknown type:
    one exchange, and the shadow is as before. *)
Lemma sendMessage_passes_over_witness :
  let w := Sim.pdm Sim.running_pod [Sim.odd_response] (Sim.at_time 10 0 0) in
  _sendMessage Sim.deactivate_message false 0 false None true false false None w
  = (Ok tt, exchanged Sim.deactivate_message false false false None Sim.odd_response [] w) /\
  pod (exchanged Sim.deactivate_message false false false None Sim.odd_response [] w) = pod w.
Proof.
  intros w.
  apply (sendMessage_passes_over Sim.deactivate_message 0 false
           None true false false None w Sim.odd_response []
           [(0x06, [0x15; 0]); (0x42, [])]);
    reflexivity.
Defined.

(** A duration of 600 minutes is refused. *)
Lemma configure_alert_rejects_witness :
  let w := Sim.pdm Sim.running_pod [Sim.answers 2 0 5 11] (Sim.at_time 10 0 0) in
  exists msg,
    _configure_alert 7 true false 600 3 3 (Some 5) None false true w
    = (Raise (PdmError msg), w).
Proof.
  intros w.
  apply (configure_alert_rejects 7 true false 600 3 3 (Some 5)
           None false true w).
  intros [D _]. lia.
Defined.

(** The timer alert of the activation: alert bit 7, 55 minutes long, five
    minutes from now.  A reservoir alert at the float 4.1: the product with
    10 is the float 41, where the exact product is below 41; the limit sent
    is 00 29. *)
Lemma configure_alert_layout_witness :
  let w := Sim.pdm Sim.running_pod [Sim.answers 2 0 5 11] (Sim.at_time 10 0 0) in
  let r := float_round (41 # 10) in
  (exists t,
     trace (snd (_configure_alert 7 true false 55 3 3 (Some 5) None false true w))
     = trace w
       ++ ESend (nonced_message 0x19 [0; 0; 0; 0; 0x78; 0x37; 0; 5; 3; 3] w)
            (connected true w) false false None :: t) /\
  (r < 41 # 10)%Q /\ Qfloor (r * 10) = 40 /\ Q_int (float_mul r 10) = 41 /\
  exists t,
    trace (snd (_configure_alert 4 true false 0 2 2 None (Some r) true true w))
    = trace w
      ++ ESend (nonced_message 0x19 [0; 0; 0; 0; 0x4c; 0; 0; 41; 2; 2] w)
           (connected true w) false false None :: t.
Proof.
  intros w r. split; [|split; [reflexivity|split; [reflexivity|split; [reflexivity|]]]].
  - destruct (configure_alert_layout 7 true false 55 3 3 (Some 5)
                None false true w) as (Sent & _).
    + split; [lia|]. split; [reflexivity | lia].
    + lia.
    + lia.
    + lia.
    + exact Sent.
  - destruct (configure_alert_layout 4 true false 0 2 2 None (Some r)
                true true w) as (Sent & _).
    + split; [lia|]. split; [reflexivity|]. split; vm_compute; discriminate.
    + lia.
    + lia.
    + lia.
    + exact Sent.
Defined.

(** The pod out of the box is given its address; when the radio is out of
    sync on that exchange, the activation ends there. *)
Lemma activate_pod_assigns_address_witness :
  let w := Sim.pdm Sim.fresh_pod [Sim.out_of_sync] (Sim.at_time 10 0 0) in
  (exists t,
     trace (snd (activate_pod w))
     = trace w ++ ESend assign_address_message true true false (Some 0x66000000) :: t) /\
  activate_pod w
  = finish (Raise TransmissionOutOfSyncError,
            exchanged assign_address_message true true false (Some 0x66000000)
              Sim.out_of_sync [] (activation_start w)).
Proof.
  intros w.
  destruct (activate_pod_assigns_address w) as [_ Starts]; [reflexivity|].
  destruct Starts as [Sent Once]; [run|].
  split; [exact Sent|]. apply Once; reflexivity.
Defined.

(** A whole activation, at 10:00 on the first of June 2019, of the pod of
    lot 44147 (00 00 AC 73) with the serial number 1100256 (00 10 C9 E0):
    the pairing command is sent to the address 0xffffffff with sequence 1
    and carries the date 06 01 13 0A 00 and the two identifiers. *)
Lemma activate_pod_pairs_and_primes_witness :
  let w := Sim.pdm Sim.fresh_pod Sim.activation_script (Sim.at_time 10 0 0) in
  let w' := snd (activate_pod (PS:=Sim.activation_shadow) w) in
  fst (activate_pod (PS:=Sim.activation_shadow) w)
  = Ok tt /\
  (exists before t,
     trace w'
     = before
       ++ ESend (mkMessage PDM (Some 0xffffffff) 1
                   [(0x03, [0x66; 0; 0; 0; 0x14; 4; 6; 1; 19; 10; 0;
                            0; 0; 0xAC; 0x73; 0; 0x10; 0xC9; 0xE0])] None)
            true true false (Some 0x66000000) :: t /\
     before = [ESend assign_address_message true true false (Some 0x66000000)]) /\
  sends_during w w'
    [(0x1a, [0x00; 0x00; 0x00; 0x00; 0x02; 0x01; 0x0A; 0x01; 0x01; 0xA0; 0x00; 0x34; 0x00; 0x34]);
     (0x17, [0x00; 0x02; 0x08; 0x00; 0x01; 0x86; 0xA0; 0x00; 0x00; 0x00; 0x00; 0x00; 0x00])].
Proof.
  intros w w'. split; [run|].
  destruct (activate_pod_pairs_and_primes (PS:=Sim.activation_shadow) w w')
    as ((w1 & offset & lot & tid & t & First & Offset & Lot & Tid & _ & _ & _ & Trace)
        & Primed); [run|].
  split; [|exact Primed].
  vm_compute in First. injection First as <-.
  vm_compute in Offset. injection Offset as <-.
  vm_compute in Lot. injection Lot as <-.
  vm_compute in Tid. injection Tid as <-.
  eexists _, t. split; [exact Trace | reflexivity].
Defined.
